(** * Toornament-Standings: the API client and the rendering pipeline

    A shallow embedding of [toornament.py] (class [ToornamentAPI]) and of
    [embed_generator.py] (class [EmbedGenerator]), followed by the
    properties of the paginated fetch, the credential refresh, the rate
    limiter and the text rendering.  The stored lists
    ([persistent_json.py], [permission_manager.py], the stages and the
    sequences of [embed_generator.py]) and the commands of [bot.py] that
    use them come after the two classes, with the conventions of their own.

    Conventions of the embedding:
    - a Python [str] is a [string] whose characters are the code points
      U+0000 to U+00FF; [lower], [upper] and the white space of [int] and of
      [strptime] are those of Python on these code points.  The capital
      letters of U+00B5 and U+00FF lie beyond U+00FF: a property that
      depends on them says so in a hypothesis;
    - a Python [int] is a [Z];
    - a raised exception is the [Raise] case of [result];
    - a naive [datetime] is the number of microseconds since
      0001-01-01 00:00:00 and a [timedelta] a number of microseconds.  The
      clock and the margins the code itself adds to it (a minute, the
      spacing of the requests) are taken to stay within the years 1 to
      9999; the sum of a time and of a duration that the platform sends is
      checked, and raises [OverflowError] outside these years;
    - a [dict] with string keys is a [gmap string _];
    - the payloads of the platform that the renderer reads are records with
      the fields it reads, [None] where the platform may send [null];
    - there is one flow of control.

    What the code leaves to libraries is modelled by its contract:
    - [requests]: a request is logged and answered by the next response of
      the platform; the headers of a response are found whatever the case of
      their names; [response.ok] is a status outside 400 to 599;
    - [parse.parse]: the content range is matched with the unit as written
      and with decimal numerals;
    - [pause.until]: returns once the clock has reached the given time;
    - [datetime]: the proleptic Gregorian calendar, [strftime] and
      [strptime] for the one format the credentials use;
    - [json] and [open]: a file holds a JSON value or is not JSON; the
      files of the program can be opened for writing;
    - [discord.Colour.from_rgb]: the three components shifted into one
      number. *)

From Stdlib Require Import ZArith Lia List String Ascii Bool.
From Stdlib Require Import DecimalString DecimalZ DecimalN DecimalPos.
From stdpp Require Import base strings list gmap.

Set Warnings "-register-all".
Open Scope string_scope.
Open Scope Z_scope.

(** ** Exceptions and results *)

Inductive exn :=
| ValueError
| KeyError
| TypeError
| IndexError
| FileNotFoundError
| JSONDecodeError
| ConnectionError
| OverflowError
| HTTPError (status : Z).

Inductive result (A : Type) :=
| Ok (a : A)
| Raise (e : exn).
Arguments Ok {A} a.
Arguments Raise {A} e.

Definition rbind {A B} (r : result A) (k : A -> result B) : result B :=
  match r with
  | Ok a => k a
  | Raise e => Raise e
  end.

Notation "'let*' x := r 'in' k" := (rbind r (fun x => k))
  (at level 10, x pattern, r at level 100, k at level 200).

(** ** Python built-ins used by the two classes *)

Module Py.

(** [str(n)] for an [int]. *)
Definition str_of_int (z : Z) : string := NilZero.string_of_int (Z.to_int z).

(** [f"{n:+}"] for an [int]: the sign is always written. *)
Definition format_plus (z : Z) : string :=
  if 0 <=? z then "+" +:+ str_of_int z else str_of_int z.

(** [" " * n]; a negative count gives the empty string, as the truncated
    subtraction on [nat] does at the call site. *)
Fixpoint spaces (n : nat) : string :=
  match n with
  | O => ""
  | S n' => String " " (spaces n')
  end.

(** [sep.join(l)]. *)
Definition join (sep : string) (l : list string) : string := String.concat sep l.

Definition in_range (lo hi : nat) (c : ascii) : bool :=
  (lo <=? nat_of_ascii c)%nat && (nat_of_ascii c <=? hi)%nat.

(** The letters with two cases: A to Z and a to z, and U+00C0 to U+00DE
    and U+00E0 to U+00FE without the two signs U+00D7 and U+00F7 in their
    middle. *)
Definition is_capital (c : ascii) : bool :=
  in_range 65 90 c || (in_range 192 222 c && negb (nat_of_ascii c =? 215)%nat).

Definition is_small (c : ascii) : bool :=
  in_range 97 122 c || (in_range 224 254 c && negb (nat_of_ascii c =? 247)%nat).

Definition lower_char (c : ascii) : ascii :=
  if is_capital c then ascii_of_nat (nat_of_ascii c + 32) else c.

(** [s.lower()]. *)
Fixpoint lower (s : string) : string :=
  match s with
  | "" => ""
  | String c r => String (lower_char c) (lower r)
  end.


(** [c.upper()] for one character: the capital letter; [SS] for U+00DF,
    which has none; the character itself otherwise, also for the two
    characters of [capital_beyond]. *)
Definition upper_char (c : ascii) : string :=
  if is_small c then String (ascii_of_nat (nat_of_ascii c - 32)) ""
  else if (nat_of_ascii c =? 223)%nat then "SS"
  else String c "".

(** [s[:n]] and [s[n:]] for [n >= 0]. *)
Fixpoint take (n : nat) (s : string) : string :=
  match n, s with
  | S n', String c r => String c (take n' r)
  | _, _ => ""
  end.

Fixpoint drop (n : nat) (s : string) : string :=
  match n, s with
  | S n', String c r => drop n' r
  | _, _ => s
  end.

(** [s.strip(ch)] for a one-character argument: every leading and every
    trailing occurrence of [ch] goes. *)
Fixpoint lstrip (ch : ascii) (s : string) : string :=
  match s with
  | String c r => if Ascii.eqb c ch then lstrip ch r else s
  | "" => ""
  end.

Fixpoint rstrip (ch : ascii) (s : string) : string :=
  match s with
  | String c r =>
      match rstrip ch r with
      | "" => if Ascii.eqb c ch then "" else String c ""
      | r' => String c r'
      end
  | "" => ""
  end.

Definition strip (ch : ascii) (s : string) : string := rstrip ch (lstrip ch s).

(** [max(l)]: a [ValueError] on the empty list. *)
Definition max (l : list nat) : result nat :=
  match l with
  | [] => Raise ValueError
  | x :: r => Ok (fold_left Nat.max r x)
  end.

(** [d[k]]: a [KeyError] on a missing key. *)
Definition getitem {V} (d : gmap string V) (k : string) : result V :=
  match d !! k with
  | Some v => Ok v
  | None => Raise KeyError
  end.

(** [l[i]]: an [IndexError] out of range. *)
Definition index {A} (l : list A) (i : nat) : result A :=
  match l !! i with
  | Some a => Ok a
  | None => Raise IndexError
  end.

(** *** [int(s, 16)]

    The accepted language is
    [ws* [+-]? (0[xX]_?)? hex (_? hex)* ws*], where [ws] is one of the six
    ASCII white-space characters, U+0085 or U+00A0; anything else is a
    [ValueError]. *)

Definition is_space (c : ascii) : bool :=
  in_range 9 13 c || Ascii.eqb c " "
  || (nat_of_ascii c =? 133)%nat || (nat_of_ascii c =? 160)%nat.

(** [c.isspace()], which is also the white space of a regular expression:
    that of [int] and the four separators U+001C to U+001F. *)
Definition is_whitespace (c : ascii) : bool :=
  is_space c || in_range 28 31 c.

Fixpoint skip_whitespace (s : string) : string :=
  match s with
  | String c r => if is_whitespace c then skip_whitespace r else s
  | "" => ""
  end.

Definition hex_value (c : ascii) : option Z :=
  if in_range 48 57 c then Some (Z.of_nat (nat_of_ascii c) - 48)
  else if in_range 97 102 c then Some (Z.of_nat (nat_of_ascii c) - 87)
  else if in_range 65 70 c then Some (Z.of_nat (nat_of_ascii c) - 55)
  else None.

Fixpoint skip_spaces (s : string) : string :=
  match s with
  | String c r => if is_space c then skip_spaces r else s
  | "" => ""
  end.

(** The digit loop: [acc] is the value read so far, [prev_us] tells that the
    previous character was an underscore.  It stops at the first character
    that is neither a digit nor an underscore and gives back the rest. *)
Fixpoint scan_hex (s : string) (acc : Z) (prev_us : bool) : option (Z * string) :=
  match s with
  | "" => if prev_us then None else Some (acc, "")
  | String c r =>
      match hex_value c with
      | Some d => scan_hex r (acc * 16 + d) false
      | None =>
          if Ascii.eqb c "_" then
            if prev_us then None else scan_hex r acc true
          else if prev_us then None else Some (acc, s)
      end
  end.

Definition skip_sign (s : string) : Z * string :=
  match s with
  | String c r =>
      if Ascii.eqb c "+" then (1, r)
      else if Ascii.eqb c "-" then (-1, r)
      else (1, s)
  | "" => (1, s)
  end.

Definition skip_hex_prefix (s : string) : string :=
  match s with
  | String c (String x r) =>
      if Ascii.eqb c "0" && (Ascii.eqb x "x" || Ascii.eqb x "X") then
        match r with
        | String u r' => if Ascii.eqb u "_" then r' else r
        | "" => r
        end
      else s
  | _ => s
  end.

Definition int16 (s : string) : result Z :=
  let '(sign, s1) := skip_sign (skip_spaces s) in
  let s2 := skip_hex_prefix s1 in
  match s2 with
  | String c _ =>
      match hex_value c with
      | None => Raise ValueError
      | Some _ =>
          match scan_hex s2 0 false with
          | Some (v, rest) =>
              match skip_spaces rest with
              | "" => Ok (sign * v)
              | _ => Raise ValueError
              end
          | None => Raise ValueError
          end
      end
  | "" => Raise ValueError
  end.

End Py.

(** ** [embed_generator.py] *)

Module EmbedGenerator.

(** *** The chat platform's objects the generator reads *)

Record emoji := { emoji_name : string; emoji_id : Z }.

Record guild := { emojis : list emoji }.

(** [discord.Colour]: the 24-bit value and its three bytes. *)
Record colour := { colour_value : Z }.

Definition from_rgb (r g b : Z) : colour :=
  {| colour_value := Z.shiftl r 16 + Z.shiftl g 8 + b |}.

Definition get_byte (c : colour) (byte : Z) : Z :=
  Z.land (Z.shiftr (colour_value c) (8 * byte)) 255.

Definition to_rgb (c : colour) : Z * Z * Z :=
  (get_byte c 2, get_byte c 1, get_byte c 0).

(** *** The platform's payloads, with the fields the generator reads *)

Record custom_fields := { emote : option string; short_name : option string }.

Record participant := { participant_name : string; participant_custom : custom_fields }.

(** A score as it comes from the platform ([null] or a number) or as the
    forfeit pass rewrites it (a string). *)
Inductive score :=
| ScoreNone
| ScoreInt (z : Z)
| ScoreStr (s : string).

Record opponent := {
  forfeit : bool;
  opp_score : score;
  opp_participant : participant
}.

Record match_ := { status : string; opponents : list opponent }.

Record properties := { wins : Z; losses : Z; score_difference : Z }.

Record ranking_item := {
  rank : option Z;
  position : Z;
  rk_participant : participant;
  rk_properties : properties
}.

(** The dictionaries [__get_match_info] builds. *)
Record team_info := {
  ti_name : string;
  ti_emote : option string;
  ti_short : option string;
  ti_score : score
}.

Record match_info := {
  mi_status : string;
  home_team : team_info;
  away_team : team_info
}.

(** [f"{x}"] for a score. *)
Definition format_score (s : score) : string :=
  match s with
  | ScoreNone => "None"
  | ScoreInt z => Py.str_of_int z
  | ScoreStr s => s
  end.

(** *** Generating the fixtures *)

Definition emote_mention (e : emoji) : string :=
  "<:" +:+ emoji_name e +:+ ":" +:+ Py.str_of_int (emoji_id e) +:+ ">".

Fixpoint get_emote_id_loop (es : list emoji) (emote_name : string) : option string :=
  match es with
  | [] => None
  | e :: rest =>
      if String.eqb (Py.lower (emoji_name e)) emote_name
      then Some (emote_mention e)
      else get_emote_id_loop rest emote_name
  end.

Definition get_emote_id (g : guild) (emote_name : string) : option string :=
  let emote_name := Py.lower emote_name in
  get_emote_id_loop (emojis g) emote_name.

(** The loop of [__team_name_to_emote_name], with its two variables. *)
Fixpoint emote_name_loop (team_name : string) (prev_whitespace : bool)
    (emote_name : string) : string :=
  match team_name with
  | "" => emote_name
  | String char rest =>
      if Ascii.eqb char " " then emote_name_loop rest true emote_name
      else if prev_whitespace then
        emote_name_loop rest false (emote_name +:+ Py.upper_char char)
      else emote_name_loop rest false (emote_name +:+ String char "")
  end.

Definition team_name_to_emote_name (team_name : string) : string :=
  emote_name_loop team_name true "".

Definition grey_question : string := ":grey_question:".

Definition find_emote_id (g : guild) (t : team_info) : string :=
  let given :=
    match ti_emote t with
    | Some e => get_emote_id g e
    | None => None
    end in
  match given with
  | Some emote_id => emote_id
  | None =>
      let guessed_emote := team_name_to_emote_name (ti_name t) in
      match get_emote_id g guessed_emote with
      | None => grey_question
      | Some emote_id => emote_id
      end
  end.

Definition apply_match_forfeit (team : opponent) : opponent :=
  if forfeit team
  then {| forfeit := forfeit team; opp_score := ScoreStr "FF";
          opp_participant := opp_participant team |}
  else {| forfeit := forfeit team; opp_score := ScoreStr "W";
          opp_participant := opp_participant team |}.

Definition team_info_of (team : opponent) : team_info :=
  {| ti_name := participant_name (opp_participant team);
     ti_emote := emote (participant_custom (opp_participant team));
     ti_short := short_name (participant_custom (opp_participant team));
     ti_score := opp_score team |}.

Definition get_match_info (m : match_) : result match_info :=
  let* home := Py.index (opponents m) 0 in
  let* away := Py.index (opponents m) 1 in
  let '(home, away) :=
    if forfeit home || forfeit away
    then (apply_match_forfeit home, apply_match_forfeit away)
    else (home, away) in
  Ok {| mi_status := status m;
        home_team := team_info_of home;
        away_team := team_info_of away |}.

Definition display_name (t : team_info) : string :=
  match ti_short t with
  | None => ti_name t
  | Some short => short
  end.

Definition get_match_string (g : guild) (m : match_info) : string :=
  let home_emote := find_emote_id g (home_team m) in
  let away_emote := find_emote_id g (away_team m) in
  let home_name := display_name (home_team m) in
  let away_name := display_name (away_team m) in
  let home_str := home_name +:+ " " +:+ home_emote in
  let away_str := away_emote +:+ " " +:+ away_name in
  if String.eqb (mi_status m) "pending" then
    home_str +:+ " vs " +:+ away_str
  else
    let result_str :=
      format_score (ti_score (home_team m)) +:+ "-"
      +:+ format_score (ti_score (away_team m)) in
    home_str +:+ " " +:+ result_str +:+ " " +:+ away_str.

(** A list comprehension over a function that can raise. *)
Fixpoint map_result {A B} (f : A -> result B) (l : list A) : result (list B) :=
  match l with
  | [] => Ok []
  | a :: rest =>
      let* b := f a in
      let* bs := map_result f rest in
      Ok (b :: bs)
  end.

Definition newline : string := String (ascii_of_nat 10) "".

Definition generate_fixture_text (g : guild) (matches : list match_) : result string :=
  let* infos := map_result get_match_info matches in
  let match_str := map (get_match_string g) infos in
  Ok (Py.join newline match_str).

Definition str_to_colour (colour_code : string) : result colour :=
  let colour_code := Py.strip "#" colour_code in
  let* r := Py.int16 (Py.take 2 colour_code) in
  let* g := Py.int16 (Py.take 2 (Py.drop 2 colour_code)) in
  let* b := Py.int16 (Py.drop 4 colour_code) in
  Ok (from_rgb r g b).

(** *** Generating the ranking *)

(** [len(entry[key]) for entry in dict_list]. *)
Definition field_lengths (key : string) (dict_list : list (gmap string string))
    : result (list nat) :=
  map_result (fun entry => let* v := Py.getitem entry key in Ok (String.length v))
             dict_list.

(** The first loop of [__pad_dictionary]. *)
Fixpoint gather_paddings (keys : list string) (dict_list : list (gmap string string))
    (paddings : gmap string nat) : result (gmap string nat) :=
  match keys with
  | [] => Ok paddings
  | key :: rest =>
      let* lens := field_lengths key dict_list in
      let* m := Py.max lens in
      gather_paddings rest dict_list (<[key := m]> paddings)
  end.

(** The inner loop of the second pass, for one entry. *)
Fixpoint pad_entry (keys : list string) (paddings : gmap string nat)
    (entry : gmap string string) : result (gmap string string) :=
  match keys with
  | [] => Ok entry
  | key :: rest =>
      let* v := Py.getitem entry key in
      let actual_size := String.length v in
      let* target_size := Py.getitem paddings key in
      let padded_content := v +:+ Py.spaces (target_size - actual_size) in
      pad_entry rest paddings (<[key := padded_content]> entry)
  end.

(** [__pad_dictionary] updates the entries in place; the embedding gives
    the updated list back. *)
Definition pad_dictionary (keys : list string) (dict_list : list (gmap string string))
    : result (list (gmap string string)) :=
  let* paddings := gather_paddings keys dict_list ∅ in
  map_result (pad_entry keys paddings) dict_list.

Definition get_rank_info (team : ranking_item) : gmap string string :=
  let rank :=
    match rank team with
    | None => position team
    | Some r => r
    end in
  let name :=
    match short_name (participant_custom (rk_participant team)) with
    | None => participant_name (rk_participant team)
    | Some n => n
    end in
  let wins := wins (rk_properties team) in
  let losses := losses (rk_properties team) in
  let diff := score_difference (rk_properties team) in
  <["rank" := "#" +:+ Py.str_of_int rank]>
  (<["name" := name]>
  (<["win_loss" := Py.str_of_int wins +:+ "-" +:+ Py.str_of_int losses]>
  (<["diff" := Py.format_plus diff]> ∅))).

Definition get_ranking_str (team : gmap string string) (keys : list string)
    (separator : string) : result string :=
  let* values := map_result (Py.getitem team) keys in
  Ok (Py.join separator values).

Definition ranking_keys : list string := ["rank"; "name"; "win_loss"; "diff"].

Definition generate_ranking_text (ranking : list ranking_item) : result string :=
  let ranking := map get_rank_info ranking in
  let keys := ranking_keys in
  let* ranking := pad_dictionary keys ranking in
  let* ranking_str := map_result (fun team => get_ranking_str team keys " | ") ranking in
  Ok (Py.join newline ranking_str).

End EmbedGenerator.

(** ** Dates and the expiry format *)

Module Datetime.

Definition seconds (n : Z) : Z := n * 1000000.
Definition milliseconds (n : Z) : Z := n * 1000.
Definition minutes (n : Z) : Z := n * 60000000.
Definition us_per_day : Z := 86400000000.

(** The first time after the year 9999. *)
Definition end_of_time : Z := 3652059 * us_per_day.

(** [t + delta] for a [datetime] and a [timedelta] that comes from
    outside: an [OverflowError] when the sum is not a [datetime]. *)
Definition add (t delta : Z) : result Z :=
  if (0 <=? t + delta) && (t + delta <? end_of_time)
  then Ok (t + delta)
  else Raise OverflowError.

Definition is_leap (year : Z) : bool :=
  (year mod 4 =? 0) && (negb (year mod 100 =? 0) || (year mod 400 =? 0)).

Definition days_before_year (year : Z) : Z :=
  let y := year - 1 in
  y * 365 + y / 4 - y / 100 + y / 400.

Definition month_days (month : Z) : Z :=
  match month with
  | 2 => 28
  | 4 | 6 | 9 | 11 => 30
  | _ => 31
  end.

Definition month_offset (month : Z) : Z :=
  match month with
  | 1 => 0 | 2 => 31 | 3 => 59 | 4 => 90 | 5 => 120 | 6 => 151
  | 7 => 181 | 8 => 212 | 9 => 243 | 10 => 273 | 11 => 304 | 12 => 334
  | _ => 0
  end.

Definition days_in_month (year month : Z) : Z :=
  if (month =? 2) && is_leap year then 29 else month_days month.

Definition days_before_month (year month : Z) : Z :=
  month_offset month + (if (2 <? month) && is_leap year then 1 else 0).

(** The ordinal of a date: 1 for the first of January of year 1. *)
Definition ymd2ord (year month day : Z) : Z :=
  days_before_year year + days_before_month year month + day.

(** The month and the day of the month of the [n]-th day of a year, [n]
    counted from 0: the month is estimated, and the estimate is one too high
    when the day lies before the month's first day. *)
Definition month_day (n : Z) (leapyear : bool) : Z * Z :=
  let month := Z.shiftr (n + 50) 5 in
  let preceding := month_offset month + (if (2 <? month) && leapyear then 1 else 0) in
  if n <? preceding then
    let month := month - 1 in
    let preceding :=
      preceding - (month_days month + (if (month =? 2) && leapyear then 1 else 0)) in
    (month, n - preceding + 1)
  else (month, n - preceding + 1).

(** The date of an ordinal: the 400-year, 100-year and 4-year cycles and
    the years are counted off; the last day of a leap year is the one day
    that the count overshoots. *)
Definition ord2ymd (n : Z) : Z * Z * Z :=
  let n := n - 1 in
  let n400 := n / 146097 in
  let n := n mod 146097 in
  let year := n400 * 400 + 1 in
  let n100 := n / 36524 in
  let n := n mod 36524 in
  let n4 := n / 1461 in
  let n := n mod 1461 in
  let n1 := n / 365 in
  let n := n mod 365 in
  let year := year + n100 * 100 + n4 * 4 + n1 in
  if (n1 =? 4) || (n100 =? 4) then (year - 1, 12, 31)
  else
    let leapyear := (n1 =? 3) && (negb (n4 =? 24) || (n100 =? 3)) in
    let '(month, day) := month_day n leapyear in
    (year, month, day).

(** The fields of a [datetime]. *)
Record fields := {
  year : Z; month : Z; day : Z;
  hour : Z; minute : Z; second : Z; microsecond : Z
}.

Definition fields_of (t : Z) : fields :=
  let '(y, m, d) := ord2ymd (t / us_per_day + 1) in
  let rest := t mod us_per_day in
  {| year := y; month := m; day := d;
     hour := rest / 3600000000;
     minute := rest mod 3600000000 / 60000000;
     second := rest mod 60000000 / 1000000;
     microsecond := rest mod 1000000 |}.

Definition of_fields (f : fields) : Z :=
  (ymd2ord (year f) (month f) (day f) - 1) * us_per_day
  + hour f * 3600000000 + minute f * 60000000 + second f * 1000000
  + microsecond f.

Definition digit (n : Z) : ascii := ascii_of_nat (48 + Z.to_nat n).

Definition pad2 (n : Z) : string :=
  String (digit (n / 10)) (String (digit (n mod 10)) "").

Definition pad4 (n : Z) : string :=
  String (digit (n / 1000)) (String (digit (n / 100 mod 10)) (pad2 (n mod 100))).

(** [t.strftime("%d.%m.%Y, %H:%M:%S")].  The year is written with four
    digits, which is what every platform does from the year 1000 on. *)
Definition strftime (t : Z) : string :=
  let f := fields_of t in
  pad2 (day f) +:+ "." +:+ pad2 (month f) +:+ "." +:+ pad4 (year f) +:+ ", "
  +:+ pad2 (hour f) +:+ ":" +:+ pad2 (minute f) +:+ ":" +:+ pad2 (second f).

Definition digit_value (c : ascii) : option Z :=
  if Py.in_range 48 57 c then Some (Z.of_nat (nat_of_ascii c) - 48) else None.

(** A directive of one or two digits: the two-digit reading is tried first,
    then the one-digit reading; the value has to lie between [lo] and
    [hi]. *)
Definition read_number (lo hi : Z) (s : string) : option (Z * string) :=
  match s with
  | String c1 r1 =>
      match digit_value c1 with
      | Some d1 =>
          let one := if (lo <=? d1) then Some (d1, r1) else None in
          match r1 with
          | String c2 r2 =>
              match digit_value c2 with
              | Some d2 =>
                  let v := d1 * 10 + d2 in
                  if (lo <=? v) && (v <=? hi) then Some (v, r2) else one
              | None => one
              end
          | "" => one
          end
      | None => None
      end
  | "" => None
  end.

(** [%d] also takes a blank in front of a single digit. *)
Definition read_day (s : string) : option (Z * string) :=
  match read_number 1 31 s with
  | Some r => Some r
  | None =>
      match s with
      | String c1 (String c2 r) =>
          if Ascii.eqb c1 " " then
            match digit_value c2 with
            | Some d => if 1 <=? d then Some (d, r) else None
            | None => None
            end
          else None
      | _ => None
      end
  end.

(** [%Y]: four digits. *)
Definition read_year (s : string) : option (Z * string) :=
  match s with
  | String c1 (String c2 (String c3 (String c4 r))) =>
      match digit_value c1, digit_value c2, digit_value c3, digit_value c4 with
      | Some d1, Some d2, Some d3, Some d4 =>
          Some (d1 * 1000 + d2 * 100 + d3 * 10 + d4, r)
      | _, _, _, _ => None
      end
  | _ => None
  end.

Definition expect (ch : ascii) (s : string) : option string :=
  match s with
  | String c r => if Ascii.eqb c ch then Some r else None
  | "" => None
  end.

(** A blank of the format stands for one or more white-space characters,
    as a regular expression counts them. *)
Definition expect_spaces (s : string) : option string :=
  match s with
  | String c r => if Py.is_whitespace c then Some (Py.skip_whitespace r) else None
  | "" => None
  end.

Definition obind {A B} (o : option A) (k : A -> option B) : option B :=
  match o with
  | Some a => k a
  | None => None
  end.

(** The text against the format [%d.%m.%Y, %H:%M:%S], field by field. *)
Definition read_fields (s : string) : option fields :=
  obind (read_day s) (fun '(d, s) =>
  obind (expect "." s) (fun s =>
  obind (read_number 1 12 s) (fun '(m, s) =>
  obind (expect "." s) (fun s =>
  obind (read_year s) (fun '(y, s) =>
  obind (expect "," s) (fun s =>
  obind (expect_spaces s) (fun s =>
  obind (read_number 0 23 s) (fun '(hh, s) =>
  obind (expect ":" s) (fun s =>
  obind (read_number 0 59 s) (fun '(mi, s) =>
  obind (expect ":" s) (fun s =>
  obind (read_number 0 61 s) (fun '(ss, s) =>
  match s with
  | "" => Some {| year := y; month := m; day := d;
                  hour := hh; minute := mi; second := ss; microsecond := 0 |}
  | _ => None
  end)))))))))))).

(** [datetime.strptime(s, "%d.%m.%Y, %H:%M:%S")]: a [ValueError] when the
    text does not match the format or the fields are not a date. *)
Definition strptime (s : string) : result Z :=
  match read_fields s with
  | None => Raise ValueError
  | Some f =>
      if (1 <=? year f) && (day f <=? days_in_month (year f) (month f))
         && (second f <=? 59)
      then Ok (of_fields f)
      else Raise ValueError
  end.

End Datetime.

(** ** [toornament.py] *)

Module Toornament.

(** *** Values *)

(** What [json.load] and [response.json()] give. *)
Inductive json :=
| JNull
| JBool (b : bool)
| JInt (z : Z)
| JStr (s : string)
| JList (l : list json)
| JDict (d : gmap string json).

(** What the credential dictionary and the header dictionaries hold: JSON
    values and, under [auth_expiry], a [datetime]. *)
Inductive pyval :=
| PJson (j : json)
| PDatetime (t : Z).

Definition pstr (s : string) : pyval := PJson (JStr s).

(** [j[key]] for a string key. *)
Definition subscript (j : json) (key : string) : result json :=
  match j with
  | JDict d => Py.getitem d key
  | _ => Raise TypeError
  end.

(** *** The network and the file system, as the client sees them *)

Record request := {
  req_method : string;
  req_url : string;
  req_headers : gmap string pyval;
  req_data : option (gmap string pyval);
  req_time : Z
}.

(** A response: the status, the headers keyed by their lower-case names
    (the headers of a response are looked up without regard to case) and
    the body when it is JSON. *)
Record response := {
  status_code : Z;
  resp_headers : gmap string string;
  resp_json : option json
}.

(** [response.ok]: [raise_for_status] does not raise, that is the status is
    not in the range 400 to 599. *)
Definition ok (r : response) : bool :=
  negb ((400 <=? status_code r) && (status_code r <? 600)).

(** [response.headers[name]]. *)
Definition header (r : response) (name : string) : result string :=
  Py.getitem (resp_headers r) (Py.lower name).

(** [response.json()]. *)
Definition response_json (r : response) : result json :=
  match resp_json r with
  | Some j => Ok j
  | None => Raise JSONDecodeError
  end.

(** What the outside can observe of a run, newest first. *)
Inductive event :=
| EvRequest (r : request)
| EvWrite (path : string) (content : json).

(** The instance ([self]), the default header dictionaries of the three
    request methods (one object each, shared by all calls that do not pass
    [headers]) and the world: the clock, the delays that each reading of the
    clock will have seen pass, the files and the observable events. *)
Record state := {
  api_cooldown : Z;
  time_per_request : Z;
  credential_path : string;
  credentials : gmap string pyval;
  group_buffer : gmap string (list json);
  tournament_buffer : gmap string json;
  get_defaults : gmap string pyval;
  post_defaults : gmap string pyval;
  pages_defaults : gmap string pyval;
  clock : Z;
  ticks : list N;
  disk : gmap string (option json);
  trace : list event
}.

Definition set_api_cooldown (v : Z) (s : state) : state :=
  {| api_cooldown := v; time_per_request := time_per_request s;
     credential_path := credential_path s; credentials := credentials s;
     group_buffer := group_buffer s; tournament_buffer := tournament_buffer s;
     get_defaults := get_defaults s; post_defaults := post_defaults s;
     pages_defaults := pages_defaults s; clock := clock s; ticks := ticks s;
     disk := disk s; trace := trace s |}.

Definition set_credentials (v : gmap string pyval) (s : state) : state :=
  {| api_cooldown := api_cooldown s; time_per_request := time_per_request s;
     credential_path := credential_path s; credentials := v;
     group_buffer := group_buffer s; tournament_buffer := tournament_buffer s;
     get_defaults := get_defaults s; post_defaults := post_defaults s;
     pages_defaults := pages_defaults s; clock := clock s; ticks := ticks s;
     disk := disk s; trace := trace s |}.

Definition set_group_buffer (v : gmap string (list json)) (s : state) : state :=
  {| api_cooldown := api_cooldown s; time_per_request := time_per_request s;
     credential_path := credential_path s; credentials := credentials s;
     group_buffer := v; tournament_buffer := tournament_buffer s;
     get_defaults := get_defaults s; post_defaults := post_defaults s;
     pages_defaults := pages_defaults s; clock := clock s; ticks := ticks s;
     disk := disk s; trace := trace s |}.

Definition set_tournament_buffer (v : gmap string json) (s : state) : state :=
  {| api_cooldown := api_cooldown s; time_per_request := time_per_request s;
     credential_path := credential_path s; credentials := credentials s;
     group_buffer := group_buffer s; tournament_buffer := v;
     get_defaults := get_defaults s; post_defaults := post_defaults s;
     pages_defaults := pages_defaults s; clock := clock s; ticks := ticks s;
     disk := disk s; trace := trace s |}.

Definition set_get_defaults (v : gmap string pyval) (s : state) : state :=
  {| api_cooldown := api_cooldown s; time_per_request := time_per_request s;
     credential_path := credential_path s; credentials := credentials s;
     group_buffer := group_buffer s; tournament_buffer := tournament_buffer s;
     get_defaults := v; post_defaults := post_defaults s;
     pages_defaults := pages_defaults s; clock := clock s; ticks := ticks s;
     disk := disk s; trace := trace s |}.

Definition set_post_defaults (v : gmap string pyval) (s : state) : state :=
  {| api_cooldown := api_cooldown s; time_per_request := time_per_request s;
     credential_path := credential_path s; credentials := credentials s;
     group_buffer := group_buffer s; tournament_buffer := tournament_buffer s;
     get_defaults := get_defaults s; post_defaults := v;
     pages_defaults := pages_defaults s; clock := clock s; ticks := ticks s;
     disk := disk s; trace := trace s |}.

Definition set_pages_defaults (v : gmap string pyval) (s : state) : state :=
  {| api_cooldown := api_cooldown s; time_per_request := time_per_request s;
     credential_path := credential_path s; credentials := credentials s;
     group_buffer := group_buffer s; tournament_buffer := tournament_buffer s;
     get_defaults := get_defaults s; post_defaults := post_defaults s;
     pages_defaults := v; clock := clock s; ticks := ticks s;
     disk := disk s; trace := trace s |}.

Definition set_clock (v : Z) (s : state) : state :=
  {| api_cooldown := api_cooldown s; time_per_request := time_per_request s;
     credential_path := credential_path s; credentials := credentials s;
     group_buffer := group_buffer s; tournament_buffer := tournament_buffer s;
     get_defaults := get_defaults s; post_defaults := post_defaults s;
     pages_defaults := pages_defaults s; clock := v; ticks := ticks s;
     disk := disk s; trace := trace s |}.

Definition set_ticks (v : list N) (s : state) : state :=
  {| api_cooldown := api_cooldown s; time_per_request := time_per_request s;
     credential_path := credential_path s; credentials := credentials s;
     group_buffer := group_buffer s; tournament_buffer := tournament_buffer s;
     get_defaults := get_defaults s; post_defaults := post_defaults s;
     pages_defaults := pages_defaults s; clock := clock s; ticks := v;
     disk := disk s; trace := trace s |}.

Definition set_disk (v : gmap string (option json)) (s : state) : state :=
  {| api_cooldown := api_cooldown s; time_per_request := time_per_request s;
     credential_path := credential_path s; credentials := credentials s;
     group_buffer := group_buffer s; tournament_buffer := tournament_buffer s;
     get_defaults := get_defaults s; post_defaults := post_defaults s;
     pages_defaults := pages_defaults s; clock := clock s; ticks := ticks s;
     disk := v; trace := trace s |}.

Definition set_trace (v : list event) (s : state) : state :=
  {| api_cooldown := api_cooldown s; time_per_request := time_per_request s;
     credential_path := credential_path s; credentials := credentials s;
     group_buffer := group_buffer s; tournament_buffer := tournament_buffer s;
     get_defaults := get_defaults s; post_defaults := post_defaults s;
     pages_defaults := pages_defaults s; clock := clock s; ticks := ticks s;
     disk := disk s; trace := v |}.

(** *** Code that does not use the network: state and exceptions *)

Definition St (A : Type) : Type := state -> result A * state.

Definition ret {A} (a : A) : St A := fun s => (Ok a, s).

Definition bind {A B} (m : St A) (k : A -> St B) : St B :=
  fun s =>
    match m s with
    | (Ok a, s') => k a s'
    | (Raise e, s') => (Raise e, s')
    end.

Definition gets {A} (f : state -> A) : St A := fun s => (Ok (f s), s).

Definition modify (f : state -> state) : St unit := fun s => (Ok tt, f s).

Definition lift_result {A} (r : result A) : St A := fun s => (r, s).

Notation "x <- m ;; k" := (bind m (fun x => k))
  (at level 100, m at next level, right associativity).

(** [datetime.datetime.now()]: the time that has passed since the clock was
    last read is the next delay. *)
Definition now : St Z :=
  fun s =>
    match ticks s with
    | [] => (Ok (clock s), s)
    | d :: rest =>
        let t := clock s + Z.of_N d in
        (Ok t, set_clock t (set_ticks rest s))
    end.

(** [pause.until(t)]: returns once the clock has reached [t]. *)
Definition pause_until (t : Z) : St unit :=
  modify (fun s => set_clock (Z.max (clock s) t) s).

(** [self.__credentials[key]]. *)
Definition credential (key : string) : St pyval :=
  fun s => (Py.getitem (credentials s) key, s).

Definition set_credential (key : string) (v : pyval) : St unit :=
  modify (fun s => set_credentials (<[key := v]> (credentials s)) s).

Definition is_json (v : pyval) : bool :=
  match v with
  | PJson _ => true
  | PDatetime _ => false
  end.

Definition json_of (v : pyval) : option json :=
  match v with
  | PJson j => Some j
  | PDatetime _ => None
  end.

(** [json.dump] of a dictionary: a [TypeError] when a value is a
    [datetime]. *)
Definition json_dump (d : gmap string pyval) : result json :=
  if decide (map_Forall (fun _ v => is_json v = true) d)
  then Ok (JDict (omap json_of d))
  else Raise TypeError.

(** Writing a file: the file is opened (and emptied) before the content is
    produced, so that a content that cannot be produced leaves a file that
    is not JSON. *)
Definition write_json (path : string) (d : gmap string pyval) : St unit :=
  fun s =>
    match json_dump d with
    | Ok j =>
        (Ok tt, set_trace (EvWrite path j :: trace s) (set_disk (<[path := Some j]> (disk s)) s))
    | Raise e => (Raise e, set_disk (<[path := None]> (disk s)) s)
    end.

Definition load_api_credentials : St unit :=
  path <- gets credential_path ;;
  files <- gets disk ;;
  match files !! path with
  | None => lift_result (Raise FileNotFoundError)
  | Some None => lift_result (Raise JSONDecodeError)
  | Some (Some (JDict d)) =>
      _ <- modify (set_credentials (PJson <$> d)) ;;
      text <- credential "auth_expiry" ;;
      match text with
      | PJson (JStr text) =>
          t <- lift_result (Datetime.strptime text) ;;
          set_credential "auth_expiry" (PDatetime t)
      | _ => lift_result (Raise TypeError)
      end
  | Some (Some _) => lift_result (Raise TypeError)
  end.

(** [n - 10] for the [expires_in] of a token response. *)
Definition minus_ten (j : json) : result Z :=
  match j with
  | JInt n => Ok (n - 10)
  | JBool b => Ok (Z.b2z b - 10)
  | _ => Raise TypeError
  end.

Definition update_api_credentials (response : json) : St unit :=
  access_token <- lift_result (subscript response "access_token") ;;
  _ <- set_credential "auth_key" (PJson access_token) ;;
  token_type <- lift_result (subscript response "token_type") ;;
  _ <- set_credential "auth_type" (PJson token_type) ;;
  scope <- lift_result (subscript response "scope") ;;
  _ <- set_credential "auth_scope" (PJson scope) ;;
  expiry_in_seconds <- lift_result (subscript response "expires_in") ;;
  t <- now ;;
  delta <- lift_result (minus_ten expiry_in_seconds) ;;
  auth_expiry <- lift_result (Datetime.add t (Datetime.seconds delta)) ;;
  _ <- set_credential "auth_expiry" (pstr (Datetime.strftime auth_expiry)) ;;
  path <- gets credential_path ;;
  creds <- gets credentials ;;
  _ <- write_json path creds ;;
  set_credential "auth_expiry" (PDatetime auth_expiry).

Definition has_api_token_expired : St bool :=
  t <- now ;;
  expiry <- credential "auth_expiry" ;;
  match expiry with
  | PDatetime expiry => ret (expiry <? t + Datetime.minutes 1)
  | PJson _ => lift_result (Raise TypeError)
  end.

Definition respect_rate_limits : St unit :=
  t <- now ;;
  cooldown <- gets api_cooldown ;;
  _ <- (if t <? cooldown then pause_until cooldown else ret tt) ;;
  t <- now ;;
  per_request <- gets time_per_request ;;
  modify (set_api_cooldown (t + Datetime.milliseconds per_request)).

(** *** Code that uses the network

    The responses the platform will give, in the order of the requests, are
    threaded next to the state; a request that finds none left never gets
    an answer, which [requests] reports as a [ConnectionError]. *)

Definition Net (A : Type) : Type :=
  list response -> state -> result A * list response * state.

Definition nret {A} (a : A) : Net A := fun inbox s => (Ok a, inbox, s).

Definition nraise {A} (e : exn) : Net A := fun inbox s => (Raise e, inbox, s).

Definition nbind {A B} (m : Net A) (k : A -> Net B) : Net B :=
  fun inbox s =>
    match m inbox s with
    | (Ok a, inbox', s') => k a inbox' s'
    | (Raise e, inbox', s') => (Raise e, inbox', s')
    end.

Definition lift {A} (m : St A) : Net A :=
  fun inbox s => let '(r, s') := m s in (r, inbox, s').

Notation "x <-- m ;; k" := (nbind m (fun x => k))
  (at level 100, m at next level, right associativity).

(** The request leaves at the time the clock shows. *)
Definition log_request (method url : string) (headers : gmap string pyval)
    (data : option (gmap string pyval)) (s : state) : state :=
  set_trace
    (EvRequest {| req_method := method; req_url := url; req_headers := headers;
                  req_data := data; req_time := clock s |} :: trace s) s.

(** [requests.get] and [requests.post]. *)
Definition requests_send (method url : string) (headers : gmap string pyval)
    (data : option (gmap string pyval)) : Net response :=
  fun inbox s =>
    let s := log_request method url headers data s in
    match inbox with
    | [] => (Raise ConnectionError, [], s)
    | r :: inbox => (Ok r, inbox, s)
    end.

(** The three request methods start alike: the token, when asked for, and
    the API key go into the header dictionary.  [save] puts the dictionary
    back where the method took it from. *)
Definition attach_headers (check : Net unit) (authorization : bool)
    (save : gmap string pyval -> state -> state) (headers : gmap string pyval)
    : Net (gmap string pyval) :=
  headers <-- (if authorization then
                 _ <-- check ;;
                 auth_key <-- lift (credential "auth_key") ;;
                 let headers := <["Authorization" := auth_key]> headers in
                 _ <-- lift (modify (save headers)) ;;
                 nret headers
               else nret headers) ;;
  token <-- lift (credential "token") ;;
  let headers := <["X-Api-Key" := token]> headers in
  _ <-- lift (modify (save headers)) ;;
  nret headers.

Definition answer (response : response) : Net json :=
  if ok response then lift (lift_result (response_json response))
  else nraise (HTTPError (status_code response)).

(** [__request_post], with the token check it runs as a parameter: the
    check itself posts, without authorization. *)
Definition request_post_with (check : Net unit) (url : string)
    (data : option (gmap string pyval)) (headers : option (gmap string pyval))
    (authorization : bool) : Net json :=
  let save h := match headers with None => set_post_defaults h | Some _ => fun s => s end in
  h <-- lift (gets (fun s => default (post_defaults s) headers)) ;;
  h <-- attach_headers check authorization save h ;;
  _ <-- lift respect_rate_limits ;;
  response <-- requests_send "POST" url h data ;;
  answer response.

Definition token_url : string := "https://api.toornament.com/oauth/v2/token".

Definition check_auth_token : Net unit :=
  expired <-- lift has_api_token_expired ;;
  if (expired : bool) then
    let request_headers : gmap string pyval :=
      {[ "Content-Type" := pstr "application/x-www-form-urlencoded" ]} in
    client_id <-- lift (credential "client_id") ;;
    client_secret <-- lift (credential "client_secret") ;;
    let request_data : gmap string pyval :=
      <["grant_type" := pstr "client_credentials"]>
      (<["scope" := pstr "organizer:participant organizer:result"]>
      (<["client_id" := client_id]>
      (<["client_secret" := client_secret]> ∅))) in
    response <-- request_post_with (nret tt) token_url (Some request_data)
                   (Some request_headers) false ;;
    lift (update_api_credentials response)
  else nret tt.

Definition request_post := request_post_with check_auth_token.

Definition request_get (url : string) (headers : option (gmap string pyval))
    (authorization : bool) : Net json :=
  let save h := match headers with None => set_get_defaults h | Some _ => fun s => s end in
  h <-- lift (gets (fun s => default (get_defaults s) headers)) ;;
  h <-- attach_headers check_auth_token authorization save h ;;
  _ <-- lift respect_rate_limits ;;
  response <-- requests_send "GET" url h None ;;
  answer response.

(** *** The paginated fetch *)

(** [f"{unit}={page_start}-{page_end}"]. *)
Definition range_header (unit : string) (page_start page_end : Z) : string :=
  unit +:+ "=" +:+ Py.str_of_int page_start +:+ "-" +:+ Py.str_of_int page_end.

(** A number as [{:d}] reads it: an optional sign or blank, then decimal
    digits, as many as there are. *)
Fixpoint read_digits (s : string) (acc : Z) : Z * string :=
  match s with
  | String c r =>
      match Datetime.digit_value c with
      | Some d => read_digits r (acc * 10 + d)
      | None => (acc, s)
      end
  | "" => (acc, "")
  end.

Definition read_int (s : string) : option (Z * string) :=
  let '(sign, s) :=
    match s with
    | String c r =>
        if Ascii.eqb c "-" then (-1, r)
        else if Ascii.eqb c "+" || Ascii.eqb c " " then (1, r)
        else (1, s)
    | "" => (1, s)
    end in
  match s with
  | String c _ =>
      match Datetime.digit_value c with
      | Some _ => let '(v, rest) := read_digits s 0 in Some (sign * v, rest)
      | None => None
      end
  | "" => None
  end.

Fixpoint expect_prefix (p s : string) : option string :=
  match p with
  | "" => Some s
  | String c p' =>
      match s with
      | String c' s' => if Ascii.eqb c c' then expect_prefix p' s' else None
      | "" => None
      end
  end.

(** [parse.parse(f"{unit} {{:d}}-{{:d}}/{{:d}}", text)] on the headers the
    platform sends: the unit as it is written, then three numbers in
    decimal digits.  [None] when the text does not have this form. *)
Definition parse_content_range (unit text : string) : option (Z * Z * Z) :=
  Datetime.obind (expect_prefix (unit +:+ " ") text) (fun s =>
  Datetime.obind (read_int s) (fun '(first, s) =>
  Datetime.obind (Datetime.expect "-" s) (fun s =>
  Datetime.obind (read_int s) (fun '(last, s) =>
  Datetime.obind (Datetime.expect "/" s) (fun s =>
  Datetime.obind (read_int s) (fun '(total, s) =>
  match s with
  | "" => Some (first, last, total)
  | _ => None
  end)))))).

Fixpoint chars (s : string) : list json :=
  match s with
  | "" => []
  | String c r => JStr (String c "") :: chars r
  end.

(** [page_list += body]: the elements of a list, the characters of a
    string, the keys of a dictionary (here in the order of the map). *)
Definition extend (page_list : list json) (body : json) : result (list json) :=
  match body with
  | JList l => Ok (page_list ++ l)%list
  | JStr s => Ok (page_list ++ chars s)%list
  | JDict d => Ok (page_list ++ map (fun kv => JStr (fst kv)) (map_to_list d))%list
  | _ => Raise TypeError
  end.

(** The [while] loop of [__request_get_pages], one response for each
    turn.  The header dictionary comes back with the result, whatever the
    result is. *)
Fixpoint pages_loop (url unit : string) (items_per_request : Z)
    (headers : gmap string pyval) (page_start total_page_num : Z)
    (page_list : list json) (inbox : list response) (s : state) {struct inbox}
    : result (list json) * gmap string pyval * list response * state :=
  if page_start <? total_page_num then
    let page_end := page_start + items_per_request - 1 in
    let headers := <["Range" := pstr (range_header unit page_start page_end)]> headers in
    let s := snd (respect_rate_limits s) in
    let s := log_request "GET" url headers None s in
    match inbox with
    | [] => (Raise ConnectionError, headers, [], s)
    | response :: inbox =>
        if ok response then
          match
            (let* body := response_json response in
             let* page_list := extend page_list body in
             let* content_range_str := header response "Content-Range" in
             Ok (page_list, parse_content_range unit content_range_str))
          with
          | Raise e => (Raise e, headers, inbox, s)
          | Ok (page_list, None) => (Ok page_list, headers, inbox, s)
          | Ok (page_list, Some (_, last_page_index, total_page_num)) =>
              let page_start := last_page_index + 1 in
              pages_loop url unit items_per_request headers page_start
                total_page_num page_list inbox s
          end
        else (Raise (HTTPError (status_code response)), headers, inbox, s)
    end
  else (Ok page_list, headers, inbox, s).

Definition request_get_pages (url : string) (headers : option (gmap string pyval))
    (authorization : bool) (unit : string) (items_per_request : Z) : Net (list json) :=
  let save h := match headers with None => set_pages_defaults h | Some _ => fun s => s end in
  h <-- lift (gets (fun s => default (pages_defaults s) headers)) ;;
  h <-- attach_headers check_auth_token authorization save h ;;
  fun inbox s =>
    let '(r, h, inbox, s) := pages_loop url unit items_per_request h 0 1 [] inbox s in
    (r, inbox, save h s).

(** *** The public methods *)

Definition tournaments_url : string := "https://api.toornament.com/viewer/v2/tournaments/".

Definition get_ranking (tournament_id stage_id group_id : string) : Net (list json) :=
  let request_url :=
    tournaments_url +:+ tournament_id +:+ "/stages/" +:+ stage_id +:+ "/ranking-items"
    +:+ "?group_ids=" +:+ group_id in
  request_get_pages request_url None false "items" 50.

(** [round_nums]: a list, or one number that is made a list. *)
Inductive rounds :=
| RoundList (l : list Z)
| RoundOne (n : Z).

Definition get_matches (tournament_id stage_id group_id : string) (round_nums : rounds)
    : Net (list json) :=
  let round_nums := match round_nums with RoundList l => l | RoundOne n => [n] end in
  let round_nums := map Py.str_of_int round_nums in
  let request_url :=
    tournaments_url +:+ tournament_id +:+ "/matches"
    +:+ "?stage_ids=" +:+ stage_id +:+ "&group_ids=" +:+ group_id
    +:+ "&round_numbers=" +:+ Py.join "," round_nums in
  request_get_pages request_url None false "matches" 50.

Definition get_groups (tournament_id : string) : Net (list json) :=
  let request_url := tournaments_url +:+ tournament_id +:+ "/groups" in
  request_get_pages request_url None false "groups" 50.

Definition get_stage (tournament_id stage_id : string) : Net json :=
  let request_url := tournaments_url +:+ tournament_id +:+ "/stages/" +:+ stage_id in
  request_get request_url None false.

Definition get_tournament (tournament_id : string) : Net json :=
  buffer <-- lift (gets tournament_buffer) ;;
  match buffer !! tournament_id with
  | Some tournament => nret tournament
  | None =>
      let request_url := tournaments_url +:+ tournament_id in
      tournament <-- request_get request_url None false ;;
      _ <-- lift (modify (fun s =>
              set_tournament_buffer (<[tournament_id := tournament]> (tournament_buffer s)) s)) ;;
      nret tournament
  end.

(** The search of [get_group_info]: the position of the first group with
    that name and the group with its annotation. *)
Fixpoint find_group (groups : list json) (group_name tournament_id : string) (i : nat)
    : result (option (nat * json)) :=
  match groups with
  | [] => Ok None
  | group :: rest =>
      let* name := subscript group "name" in
      match name, group with
      | JStr name, JDict d =>
          if String.eqb name group_name
          then Ok (Some (i, JDict (<["tournament_id" := JStr tournament_id]> d)))
          else find_group rest group_name tournament_id (S i)
      | _, _ => find_group rest group_name tournament_id (S i)
      end
  end.

(** The group that is given back is the object the buffer holds, so the
    annotation shows in the buffer too. *)
Definition get_group_info (tournament_id group_name : string) : Net (option json) :=
  buffer <-- lift (gets group_buffer) ;;
  groups <-- match buffer !! tournament_id with
             | Some groups => nret groups
             | None =>
                 groups <-- get_groups tournament_id ;;
                 _ <-- lift (modify (fun s =>
                         set_group_buffer (<[tournament_id := groups]> (group_buffer s)) s)) ;;
                 nret groups
             end ;;
  found <-- lift (lift_result (find_group groups group_name tournament_id 0)) ;;
  match found with
  | Some (i, group) =>
      _ <-- lift (modify (fun s =>
              set_group_buffer (<[tournament_id := <[i := group]> groups]> (group_buffer s)) s)) ;;
      nret (Some group)
  | None => nret None
  end.

(** [__init__]: a new instance in the world of [s]. *)
Definition init (auth_path : string) : St unit :=
  t <- now ;;
  _ <- modify (fun s =>
    {| api_cooldown := t; time_per_request := 333;
       credential_path := auth_path; credentials := credentials s;
       group_buffer := group_buffer s; tournament_buffer := tournament_buffer s;
       get_defaults := get_defaults s; post_defaults := post_defaults s;
       pages_defaults := pages_defaults s; clock := clock s; ticks := ticks s;
       disk := disk s; trace := trace s |}) ;;
  _ <- load_api_credentials ;;
  _ <- modify (set_group_buffer ∅) ;;
  modify (set_tournament_buffer ∅).

(** A session: the calls the command layer makes, one after the other; a
    call that raises does not end the session. *)
Inductive call :=
| GetRanking (tournament_id stage_id group_id : string)
| GetMatches (tournament_id stage_id group_id : string) (round_nums : rounds)
| GetGroups (tournament_id : string)
| GetStage (tournament_id stage_id : string)
| GetTournament (tournament_id : string)
| GetGroupInfo (tournament_id group_name : string).

Definition forget {A} (m : Net A) : list response -> state -> list response * state :=
  fun inbox s => let '(_, inbox, s) := m inbox s in (inbox, s).

Definition perform (c : call) : list response -> state -> list response * state :=
  match c with
  | GetRanking t st g => forget (get_ranking t st g)
  | GetMatches t st g r => forget (get_matches t st g r)
  | GetGroups t => forget (get_groups t)
  | GetStage t st => forget (get_stage t st)
  | GetTournament t => forget (get_tournament t)
  | GetGroupInfo t n => forget (get_group_info t n)
  end.

Fixpoint perform_all (cs : list call) (inbox : list response) (s : state)
    : list response * state :=
  match cs with
  | [] => (inbox, s)
  | c :: cs => let '(inbox, s) := perform c inbox s in perform_all cs inbox s
  end.

End Toornament.

Import EmbedGenerator.
Import Toornament.

(** * Vocabulary of the properties *)

(** Every character of [s] satisfies [p]. *)
Fixpoint all_chars (p : ascii -> bool) (s : string) : bool :=
  match s with
  | "" => true
  | String c r => p c && all_chars p r
  end.

Definition is_hex_digit (c : ascii) : bool :=
  match Py.hex_value c with
  | Some _ => true
  | None => false
  end.

(** A colour code as the specification describes it: six hexadecimal
    digits, with or without one leading [#]. *)
Definition six_hex_digits (s : string) : bool :=
  (String.length s =? 6)%nat && all_chars is_hex_digit s.

Definition colour_code_wf (s : string) : bool :=
  match s with
  | String c r => if Ascii.eqb c "#" then six_hex_digits r else six_hex_digits s
  | "" => false
  end.



(** The words of [s]: the maximal runs of characters that [is_sep] rejects.
    [word] is the word being read. *)
Fixpoint split_words (is_sep : ascii -> bool) (s : string) (word : string) : list string :=
  match s with
  | "" => match word with "" => [] | _ => [word] end
  | String c r =>
      if is_sep c then
        match word with
        | "" => split_words is_sep r ""
        | _ => word :: split_words is_sep r ""
        end
      else split_words is_sep r (word +:+ String c "")
  end.

Definition capitalize_first (w : string) : string :=
  match w with
  | "" => ""
  | String c r => Py.upper_char c +:+ r
  end.

Definition concat_words (ws : list string) : string := fold_right append "" ws.

(** The guessed emote name in the words of the specification: the words
    of the name, each with its first character in upper case, glued
    together. *)
Definition guess_by_words (is_sep : ascii -> bool) (team_name : string) : string :=
  concat_words (map capitalize_first (split_words is_sep team_name "")).

Definition is_blank (c : ascii) : bool := Ascii.eqb c " ".

(** Two emote names that differ in the case of their letters only. *)
Definition same_name_ignoring_case (a b : string) : bool :=
  String.eqb (Py.lower a) (Py.lower b).

(** The first custom emote of the guild with that name, as a mention. *)
Definition lookup_emote (g : guild) (name : string) : option string :=
  emote_mention <$> find (fun e => same_name_ignoring_case (emoji_name e) name) (emojis g).

(** [s.ljust(w)]. *)
Definition ljust (s : string) (w : nat) : string :=
  s +:+ Py.spaces (w - String.length s).

(** The text of column [key] in the row of [team], before padding. *)
Definition field (key : string) (team : ranking_item) : string :=
  default "" (get_rank_info team !! key).

(** The natural width of column [key]. *)
Definition column_width (key : string) (ranking : list ranking_item) : nat :=
  max_list (map (fun team => String.length (field key team)) ranking).

Definition padded_row (ranking : list ranking_item) (team : ranking_item) : string :=
  Py.join " | " (map (fun key => ljust (field key team) (column_width key ranking)) ranking_keys).

(** A content-range header as the platform writes it. *)
Definition content_range (unit : string) (first last total : N) : string :=
  unit +:+ " " +:+ Py.str_of_int (Z.of_N first) +:+ "-"
  +:+ Py.str_of_int (Z.of_N last) +:+ "/" +:+ Py.str_of_int (Z.of_N total).

(** A successful response with the items [items] and a content range. *)
Definition carries (r : response) (unit : string) (items : list json)
    (first last total : N) : Prop :=
  ok r = true /\ resp_json r = Some (JList items) /\
  header r "Content-Range" = Ok (content_range unit first last total).

(** The items a response adds to the pages. *)
Definition items_of (r : response) : list json :=
  match resp_json r with
  | Some body => match extend [] body with Ok l => l | Raise _ => [] end
  | None => []
  end.

(** The header dictionary with the window that starts at [page_start]. *)
Definition with_range (unit : string) (items_per_request page_start : Z)
    (headers : gmap string pyval) : gmap string pyval :=
  <["Range" := pstr (range_header unit page_start (page_start + items_per_request - 1))]> headers.

(** The state once the request for that window has left. *)
Definition page_sent (url unit : string) (items_per_request page_start : Z)
    (headers : gmap string pyval) (s : state) : state :=
  log_request "GET" url (with_range unit items_per_request page_start headers) None
    (snd (respect_rate_limits s)).

(** A page as the platform sends it: the items and the three numbers of
    the content range. *)
Record page := {
  page_items : list json;
  page_first : N;
  page_last : N;
  page_total : N
}.

Definition carries_page (unit : string) (r : response) (p : page) : Prop :=
  carries r unit (page_items p) (page_first p) (page_last p) (page_total p).

(** The content range [a-b/n] of the page has [b < n - 1]. *)
Definition more_to_fetch (p : page) : Prop :=
  Z.of_N (page_last p) < Z.of_N (page_total p) - 1.

(** The start of the window after the page. *)
Definition next_start (p : page) : Z := Z.of_N (page_last p) + 1.

(** The loop variables [page_start] and [total_page_num] after the pages
    [ps], and the starts of the windows that were asked for to get them. *)
Definition chain_start (page_start : Z) (ps : list page) : Z :=
  fold_left (fun _ p => next_start p) ps page_start.

Definition chain_total (total_page_num : Z) (ps : list page) : Z :=
  fold_left (fun _ p => Z.of_N (page_total p)) ps total_page_num.

Fixpoint starts_during (page_start : Z) (ps : list page) : list Z :=
  match ps with
  | [] => []
  | p :: ps => page_start :: starts_during (next_start p) ps
  end.

(** What is compared of an event: for a request the method, the URL and
    the [Range] header. *)
Definition request_line (e : event) : option (string * string * option pyval) :=
  match e with
  | EvRequest r => Some (req_method r, req_url r, req_headers r !! "Range")
  | EvWrite _ _ => None
  end.

(** The request for the window of [items_per_request] items that starts at
    [page_start]. *)
Definition window_request (url unit : string) (items_per_request page_start : Z)
    : option (string * string * option pyval) :=
  Some ("GET", url,
        Some (pstr (unit +:+ "=" +:+ Py.str_of_int page_start +:+ "-"
                    +:+ Py.str_of_int (page_start + items_per_request - 1)))).

(** The value of a decimal numeral, read from the left. *)
Fixpoint uint_value (d : Decimal.uint) (acc : Z) : Z :=
  match d with
  | Decimal.Nil => acc
  | Decimal.D0 d => uint_value d (acc * 10 + 0)
  | Decimal.D1 d => uint_value d (acc * 10 + 1)
  | Decimal.D2 d => uint_value d (acc * 10 + 2)
  | Decimal.D3 d => uint_value d (acc * 10 + 3)
  | Decimal.D4 d => uint_value d (acc * 10 + 4)
  | Decimal.D5 d => uint_value d (acc * 10 + 5)
  | Decimal.D6 d => uint_value d (acc * 10 + 6)
  | Decimal.D7 d => uint_value d (acc * 10 + 7)
  | Decimal.D8 d => uint_value d (acc * 10 + 8)
  | Decimal.D9 d => uint_value d (acc * 10 + 9)
  end.

Definition starts_with_digit (s : string) : bool :=
  match s with
  | String c _ => match Datetime.digit_value c with Some _ => true | None => false end
  | "" => false
  end.

(** The times at which the requests of a trace left, newest first. *)
Fixpoint request_times (tr : list event) : list Z :=
  match tr with
  | [] => []
  | EvRequest r :: tr => req_time r :: request_times tr
  | EvWrite _ _ :: tr => request_times tr
  end.

(** Each request left at least [gap] after the one before it. *)
Fixpoint spaced (gap : Z) (times : list Z) : Prop :=
  match times with
  | [] => True
  | t2 :: rest =>
      match rest with
      | [] => True
      | t1 :: _ => t1 + gap <= t2
      end /\ spaced gap rest
  end.

(** The invariant of the rate limiter: the requests so far are spaced, and
    the cooldown lies a full spacing after the last of them. *)
Definition rate_limited (s : state) : Prop :=
  time_per_request s = 333 /\
  spaced 333000 (request_times (trace s)) /\
  forall t, head (request_times (trace s)) = Some t -> t + 333000 <= api_cooldown s.

(** Two states with the same rate limiter and the same requests. *)
Definition same_limiter (s s' : state) : Prop :=
  api_cooldown s' = api_cooldown s /\
  time_per_request s' = time_per_request s /\
  request_times (trace s') = request_times (trace s).

(** The state once the clock has been read. *)
Definition after_tick (s : state) : state := snd (now s).

(** A token response with these four fields. *)
Definition token_reply (body : gmap string json) (access_token token_type scope : json)
    (expires_in : Z) : Prop :=
  body !! "access_token" = Some access_token /\
  body !! "token_type" = Some token_type /\
  body !! "scope" = Some scope /\
  body !! "expires_in" = Some (JInt expires_in).

(** Credentials that hold JSON values, the expiry apart. *)
Definition json_credentials (creds : gmap string pyval) : Prop :=
  forall key v, creds !! key = Some v -> key <> "auth_expiry" -> is_json v = true.

(** The credentials with the three fields of a token response. *)
Definition with_token (access_token token_type scope : json) (creds : gmap string pyval)
    : gmap string pyval :=
  <["auth_scope" := PJson scope]>
  (<["auth_type" := PJson token_type]>
  (<["auth_key" := PJson access_token]> creds)).

(** The credential file for the credentials [creds] and the expiry [e]. *)
Definition credential_file (creds : gmap string pyval) (e : Z) : json :=
  JDict (omap json_of (<["auth_expiry" := pstr (Datetime.strftime e)]> creds)).

(** The state [__update_api_credentials] leaves for such a response. *)
Definition after_update (access_token token_type scope : json) (expires_in : Z)
    (s : state) : state :=
  let creds := with_token access_token token_type scope (credentials s) in
  let s1 := after_tick (set_credentials creds s) in
  let e := clock s1 + Datetime.seconds (expires_in - 10) in
  let in_file := <["auth_expiry" := pstr (Datetime.strftime e)]> creds in
  set_credentials (<["auth_expiry" := PDatetime e]> in_file)
    (set_trace (EvWrite (credential_path s) (credential_file creds e) :: trace s1)
       (set_disk (<[credential_path s := Some (credential_file creds e)]> (disk s1))
          (set_credentials in_file s1))).

(** The form the token request carries. *)
Definition token_form (client_id client_secret : pyval) : gmap string pyval :=
  <["grant_type" := pstr "client_credentials"]>
  (<["scope" := pstr "organizer:participant organizer:result"]>
  (<["client_id" := client_id]>
  (<["client_secret" := client_secret]> ∅))).

Definition token_headers (token : pyval) : gmap string pyval :=
  <["X-Api-Key" := token]>
  {[ "Content-Type" := pstr "application/x-www-form-urlencoded" ]}.

(** The state once the token request has left. *)
Definition token_requested (client_id client_secret token : pyval) (s : state) : state :=
  log_request "POST" token_url (token_headers token)
    (Some (token_form client_id client_secret))
    (snd (respect_rate_limits (after_tick s))).

(** The time [__update_api_credentials] reads when it handles the answer
    to that token request. *)
Definition token_handled (client_id client_secret token : pyval) (s : state) : Z :=
  clock (after_tick (token_requested client_id client_secret token s)).

(** The latest date a [datetime] can hold, and the first of the year 1000. *)
Definition max_timestamp : Z := 3652059 * Datetime.us_per_day.
Definition year_1000 : Z := (Datetime.ymd2ord 1000 1 1 - 1) * Datetime.us_per_day.

(** Code without network that leaves the rate limiter alone. *)
Definition quiet {A} (m : St A) : Prop := forall s, same_limiter s (snd (m s)).

(** Code that keeps the invariant of the rate limiter. *)
Definition keeps {A} (m : Net A) : Prop :=
  forall inbox s, rate_limited s -> rate_limited (snd (m inbox s)).

(** The mark of an opponent in a match with a forfeit. *)
Definition forfeit_mark (team : opponent) : string :=
  if forfeit team then "FF" else "W".

(** ** Samples *)

Definition tab : ascii := ascii_of_nat 9.

Definition sample_team (name : string) (short : option string) : participant :=
  {| participant_name := name;
     participant_custom := {| emote := None; short_name := short |} |}.

Definition sample_opponent (name : string) (forfeited : bool) (points : Z) : opponent :=
  {| forfeit := forfeited; opp_score := ScoreInt points;
     opp_participant := sample_team name None |}.

Definition both_forfeit : match_ :=
  {| status := "completed";
     opponents := [sample_opponent "Alpha" true 0; sample_opponent "Beta" true 0] |}.

Definition one_forfeit : match_ :=
  {| status := "completed";
     opponents := [sample_opponent "Alpha" false 2; sample_opponent "Beta" true 1] |}.

Definition sample_guild : guild :=
  {| emojis := [ {| emoji_name := "BlueOx"; emoji_id := 7 |} ] |}.

Definition sample_ranking : list ranking_item :=
  [ {| rank := Some 1; position := 1;
       rk_participant := sample_team "Red Devils" (Some "RDV");
       rk_properties := {| wins := 10; losses := 2; score_difference := 14 |} |};
    {| rank := None; position := 2;
       rk_participant := sample_team "Blue" None;
       rk_properties := {| wins := 3; losses := 9; score_difference := -11 |} |} ].

Definition sample_time : Z :=
  (Datetime.ymd2ord 2024 2 29 - 1) * Datetime.us_per_day
  + 13 * 3600000000 + 7 * 60000000 + 9 * 1000000 + 123456.

(** Credentials whose token expires [valid_for] microseconds after
    [sample_time]. *)
Definition sample_credentials (valid_for : Z) : gmap string pyval :=
  <["client_id" := pstr "id"]>
  (<["client_secret" := pstr "secret"]>
  (<["token" := pstr "key"]>
  (<["auth_key" := pstr "old"]>
  (<["auth_type" := pstr "bearer"]>
  (<["auth_scope" := pstr "organizer:result"]>
  (<["auth_expiry" := PDatetime (sample_time + valid_for)]> ∅)))))).

Definition sample_state (valid_for : Z) (delays : list N) : state :=
  {| api_cooldown := sample_time; time_per_request := 333;
     credential_path := "auth.json"; credentials := sample_credentials valid_for;
     group_buffer := ∅; tournament_buffer := ∅;
     get_defaults := ∅; post_defaults := ∅; pages_defaults := ∅;
     clock := sample_time; ticks := delays; disk := ∅; trace := [] |}.

Definition sample_page (unit : string) (first last total : N) (items : list json)
    : response :=
  {| status_code := 206;
     resp_headers := {[ "content-range" := content_range unit first last total ]};
     resp_json := Some (JList items) |}.

(** A page with a header that is not a content range, and a page without
    the header. *)
Definition odd_page (text : string) (items : list json) : response :=
  {| status_code := 200;
     resp_headers := {[ "content-range" := text ]};
     resp_json := Some (JList items) |}.

Definition headerless_page (items : list json) : response :=
  {| status_code := 200; resp_headers := ∅; resp_json := Some (JList items) |}.

Definition token_body (expires_in : Z) : gmap string json :=
  <["access_token" := JStr "new"]>
  (<["token_type" := JStr "bearer"]>
  (<["scope" := JStr "organizer:result"]>
  (<["expires_in" := JInt expires_in]> ∅))).

Definition token_response (expires_in : Z) : response :=
  {| status_code := 200; resp_headers := ∅;
     resp_json := Some (JDict (token_body expires_in)) |}.

(** A world with a credential file and no instance yet. *)
Definition sample_file : json :=
  JDict (<["client_id" := JStr "id"]>
        (<["client_secret" := JStr "secret"]>
        (<["token" := JStr "key"]>
        (<["auth_key" := JStr "old"]>
        (<["auth_type" := JStr "bearer"]>
        (<["auth_scope" := JStr "organizer:result"]>
        (<["auth_expiry" := JStr "29.02.2024, 14:07:09"]> ∅))))))).

Definition sample_world (delays : list N) : state :=
  {| api_cooldown := 0; time_per_request := 0;
     credential_path := ""; credentials := ∅;
     group_buffer := ∅; tournament_buffer := ∅;
     get_defaults := ∅; post_defaults := ∅; pages_defaults := ∅;
     clock := sample_time; ticks := delays;
     disk := {[ "auth.json" := Some sample_file ]}; trace := [] |}.

(** What a trace shows of its events: for a request the method, the
    [Authorization] and the [Range] headers and the time since
    [sample_time], for a write the path. *)
Definition show_event (e : event)
    : string * option pyval * option pyval * Z :=
  match e with
  | EvRequest r =>
      (req_method r, req_headers r !! "Authorization", req_headers r !! "Range",
       req_time r - sample_time)
  | EvWrite path _ => ("write " +:+ path, None, None, 0)
  end.

(** * The stored lists and the commands

    [persistent_json.py] (class [JSONStorage]), the stages and sequences of
    [embed_generator.py], [permission_manager.py] (class
    [PermissionManager]) and the commands of [bot.py] that use them.

    The content of a storage is whatever JSON the file held, so the code
    that reads it is modelled on JSON values, with the exceptions Python
    raises on values of another shape.  The files are a map from paths to
    what a path holds: JSON, or something that is not JSON.  A file can
    always be written. *)

(** ** Python on JSON values *)

Module PyJson.

(** [for x in j]: the elements of a list, the characters of a string, the
    keys of a dictionary (here in the order of the map); other values
    cannot be iterated. *)
Definition iterate (j : json) : result (list json) :=
  match j with
  | JList l => Ok l
  | JStr s => Ok (chars s)
  | JDict d => Ok (map (fun kv => JStr (fst kv)) (map_to_list d))
  | _ => Raise TypeError
  end.

(** [j += [x]]: only a list can be extended by a list. *)
Definition iadd (j x : json) : result json :=
  match j with
  | JList l => Ok (JList (l ++ [x])%list)
  | _ => Raise TypeError
  end.

(** [j == s] for a [str] [s]. *)
Definition eq_str (j : json) (s : string) : bool :=
  match j with
  | JStr t => String.eqb t s
  | _ => false
  end.

(** [j == n] for an [int] [n]: [True] equals 1 and [False] equals 0. *)
Definition eq_int (j : json) (n : Z) : bool :=
  match j with
  | JInt m => m =? n
  | JBool b => Z.b2z b =? n
  | _ => false
  end.

(** A loop that keeps the elements for which the test holds; the test can
    raise. *)
Fixpoint filter_result {A} (p : A -> result bool) (l : list A) : result (list A) :=
  match l with
  | [] => Ok []
  | a :: rest =>
      let* keep := p a in
      let* kept := filter_result p rest in
      Ok (if (keep : bool) then a :: kept else kept)
  end.

(** A loop that returns the first element for which the test holds. *)
Fixpoint find_result {A} (p : A -> result bool) (l : list A) : result (option A) :=
  match l with
  | [] => Ok None
  | a :: rest =>
      let* found := p a in
      if (found : bool) then Ok (Some a) else find_result p rest
  end.

(** A loop that returns [True] at the first element for which the test
    holds. *)
Fixpoint exists_result {A} (p : A -> result bool) (l : list A) : result bool :=
  match l with
  | [] => Ok false
  | a :: rest =>
      let* found := p a in
      if (found : bool) then Ok true else exists_result p rest
  end.

(** [s.split(sep)] for a one-character separator. *)
Fixpoint split (sep : ascii) (s : string) : list string :=
  match s with
  | "" => [""]
  | String c r =>
      if Ascii.eqb c sep then "" :: split sep r
      else
        match split sep r with
        | w :: ws => String c w :: ws
        | [] => [String c ""]
        end
  end.

End PyJson.

(** ** [persistent_json.py] *)

Module JSONStorage.

Record storage := { location : string; content : json }.

(** [__load]: whatever goes wrong, the content stays the empty list. *)
Definition load (location : string) (fs : gmap string (option json)) : json :=
  match fs !! location with
  | Some (Some j) => j
  | _ => JList []
  end.

(** [__init__]. *)
Definition init (location : string) (fs : gmap string (option json)) : storage :=
  {| location := location; content := load location fs |}.

Definition save (st : storage) (fs : gmap string (option json))
    : gmap string (option json) :=
  <[location st := Some (content st)]> fs.

(** [self.content = c], as the users of a storage write it. *)
Definition set_content (c : json) (st : storage) : storage :=
  {| location := location st; content := c |}.

End JSONStorage.

(** ** [embed_generator.py]: the stages and the sequences *)

Module Registry.

Import JSONStorage.

Record generator := { stages : storage; sequences : storage }.

Definition init (fs : gmap string (option json)) : generator :=
  {| stages := JSONStorage.init "data/stages.json" fs;
     sequences := JSONStorage.init "data/sequences.json" fs |}.

Definition set_stages (st : storage) (g : generator) : generator :=
  {| stages := st; sequences := sequences g |}.

Definition set_sequences (st : storage) (g : generator) : generator :=
  {| stages := stages g; sequences := st |}.

Definition stage_info (alias : string) (group_info : json) (logo_url colour : string)
    : json :=
  JDict (<["alias" := JStr (Py.lower alias)]>
        (<["group" := group_info]>
        (<["logo" := JStr logo_url]>
        (<["colour" := JStr colour]> ∅)))).

Definition add_stage (alias : string) (group_info : json) (logo_url colour : string)
    (g : generator) (fs : gmap string (option json))
    : result unit * generator * gmap string (option json) :=
  match PyJson.iadd (content (stages g)) (stage_info alias group_info logo_url colour) with
  | Ok c =>
      let st := set_content c (stages g) in
      (Ok tt, set_stages st g, save st fs)
  | Raise e => (Raise e, g, fs)
  end.

(** The test of [remove_stage]:
    [not stage["alias"] == alias and not stage["group"]["name"] == alias]. *)
Definition keeps_stage (alias : string) (stage : json) : result bool :=
  let* a := subscript stage "alias" in
  if negb (PyJson.eq_str a alias) then
    let* group := subscript stage "group" in
    let* name := subscript group "name" in
    Ok (negb (PyJson.eq_str name alias))
  else Ok false.

Definition remove_stage (alias : string) (g : generator) (fs : gmap string (option json))
    : result unit * generator * gmap string (option json) :=
  match
    (let* l := PyJson.iterate (content (stages g)) in
     PyJson.filter_result (keeps_stage alias) l)
  with
  | Ok kept =>
      let st := set_content (JList kept) (stages g) in
      (Ok tt, set_stages st g, save st fs)
  | Raise e => (Raise e, g, fs)
  end.

(** The test of [get_stage]:
    [stage["alias"] == stage_name or stage["group"]["name"] == stage_name]. *)
Definition is_stage (stage_name : string) (stage : json) : result bool :=
  let* a := subscript stage "alias" in
  if PyJson.eq_str a stage_name then Ok true
  else
    let* group := subscript stage "group" in
    let* name := subscript group "name" in
    Ok (PyJson.eq_str name stage_name).

Definition get_stage (stage_name : string) (g : generator) : result (option json) :=
  let stage_name := Py.lower stage_name in
  let* l := PyJson.iterate (content (stages g)) in
  PyJson.find_result (is_stage stage_name) l.

Definition sequence_info (alias : string) (stage_list : list string) : json :=
  JDict (<["alias" := JStr (Py.lower alias)]>
        (<["groups" := JList (map JStr stage_list)]> ∅)).

Definition add_sequence (alias : string) (stage_list : list string)
    (g : generator) (fs : gmap string (option json))
    : result unit * generator * gmap string (option json) :=
  match PyJson.iadd (content (sequences g)) (sequence_info alias stage_list) with
  | Ok c =>
      let st := set_content c (sequences g) in
      (Ok tt, set_sequences st g, save st fs)
  | Raise e => (Raise e, g, fs)
  end.

(** The test of [remove_sequence]: [not sequence["alias"] == alias]. *)
Definition keeps_sequence (alias : string) (sequence : json) : result bool :=
  let* a := subscript sequence "alias" in
  Ok (negb (PyJson.eq_str a alias)).

Definition remove_sequence (alias : string) (g : generator) (fs : gmap string (option json))
    : result unit * generator * gmap string (option json) :=
  match
    (let* l := PyJson.iterate (content (sequences g)) in
     PyJson.filter_result (keeps_sequence alias) l)
  with
  | Ok kept =>
      let st := set_content (JList kept) (sequences g) in
      (Ok tt, set_sequences st g, save st fs)
  | Raise e => (Raise e, g, fs)
  end.

Definition is_sequence (sequence_name : string) (sequence : json) : result bool :=
  let* a := subscript sequence "alias" in
  Ok (PyJson.eq_str a sequence_name).

Definition get_sequence (sequence_name : string) (g : generator) : result (option json) :=
  let sequence_name := Py.lower sequence_name in
  let* l := PyJson.iterate (content (sequences g)) in
  PyJson.find_result (is_sequence sequence_name) l.

End Registry.

(** ** [permission_manager.py] *)

Module PermissionManager.

Import JSONStorage.

(** The chat platform's objects the manager reads: a role with the guild it
    belongs to, and the context of a command with its author. *)
Record role := { role_guild_id : Z; role_id : Z; role_mention : string }.

Record context := {
  author_administrator : bool;
  author_roles : list role;
  guild_id : Z
}.

Definition init (fs : gmap string (option json)) : storage :=
  JSONStorage.init "roles.json" fs.

Definition role_info (r : role) : json :=
  JDict (<["guild" := JInt (role_guild_id r)]> (<["role" := JInt (role_id r)]> ∅)).

Definition add_role (r : role) (roles : storage) (fs : gmap string (option json))
    : result unit * storage * gmap string (option json) :=
  match PyJson.iadd (content roles) (role_info r) with
  | Ok c =>
      let st := set_content c roles in
      (Ok tt, st, save st fs)
  | Raise e => (Raise e, roles, fs)
  end.

(** The test of [remove_role]:
    [not perm_role["guild"] == role.guild.id or not perm_role["role"] == role.id]. *)
Definition keeps_role (r : role) (perm_role : json) : result bool :=
  let* guild := subscript perm_role "guild" in
  if negb (PyJson.eq_int guild (role_guild_id r)) then Ok true
  else
    let* id := subscript perm_role "role" in
    Ok (negb (PyJson.eq_int id (role_id r))).

Definition remove_role (r : role) (roles : storage) (fs : gmap string (option json))
    : result unit * storage * gmap string (option json) :=
  match
    (let* l := PyJson.iterate (content roles) in
     PyJson.filter_result (keeps_role r) l)
  with
  | Ok kept =>
      let st := set_content (JList kept) roles in
      (Ok tt, st, save st fs)
  | Raise e => (Raise e, roles, fs)
  end.

(** The test of [has_perms]:
    [member_role.guild.id == perm_role["guild"] and member_role.id == perm_role["role"]]. *)
Definition permits (member_role : role) (perm_role : json) : result bool :=
  let* guild := subscript perm_role "guild" in
  if PyJson.eq_int guild (role_guild_id member_role) then
    let* id := subscript perm_role "role" in
    Ok (PyJson.eq_int id (role_id member_role))
  else Ok false.

Definition has_perms (roles : storage) (ctx : context) : result bool :=
  if author_administrator ctx then Ok true
  else
    PyJson.exists_result
      (fun member_role =>
         let* l := PyJson.iterate (content roles) in
         PyJson.exists_result (permits member_role) l)
      (author_roles ctx).

End PermissionManager.

(** ** [bot.py]: the commands that use the stored lists only

    A command gives the messages it sends to the channel, in their order.
    In each of these commands whatever can raise comes before the first
    message, so a command that raises has sent none. *)

Module Bot.

Import JSONStorage.
Import PermissionManager.

(** The objects of the module: [perms], [embed_gen] and the files. *)
Record bot := {
  perms : storage;
  embed_gen : Registry.generator;
  fs : gmap string (option json)
}.

Definition start (fs : gmap string (option json)) : bot :=
  {| perms := PermissionManager.init fs; embed_gen := Registry.init fs; fs := fs |}.

Definition denied : list string := ["Permission denied"].

Definition ping (ctx : context) (b : bot) : result (list string) * bot :=
  match has_perms (perms b) ctx with
  | Ok true => (Ok ["pong"], b)
  | Ok false => (Ok [], b)
  | Raise e => (Raise e, b)
  end.

Definition removegroup (ctx : context) (group_name : string) (b : bot)
    : result (list string) * bot :=
  match has_perms (perms b) ctx with
  | Ok false => (Ok denied, b)
  | Ok true =>
      let '(r, g, fs) := Registry.remove_stage group_name (embed_gen b) (fs b) in
      let b := {| perms := perms b; embed_gen := g; fs := fs |} in
      match r with
      | Ok _ => (Ok ["Removed group '" +:+ group_name +:+ "' from the bot."], b)
      | Raise e => (Raise e, b)
      end
  | Raise e => (Raise e, b)
  end.

Definition addsequence (ctx : context) (seq_name seq_groups : string) (b : bot)
    : result (list string) * bot :=
  match has_perms (perms b) ctx with
  | Ok false => (Ok denied, b)
  | Ok true =>
      let groups := PyJson.split "," seq_groups in
      let '(r, g, fs) := Registry.add_sequence seq_name groups (embed_gen b) (fs b) in
      let b := {| perms := perms b; embed_gen := g; fs := fs |} in
      match r with
      | Ok _ =>
          let group_str := Py.join newline groups in
          (Ok ["Created sequence '" +:+ seq_name
               +:+ "' containing the following groups:" +:+ newline +:+ group_str], b)
      | Raise e => (Raise e, b)
      end
  | Raise e => (Raise e, b)
  end.

Definition removesequence (ctx : context) (seq_name : string) (b : bot)
    : result (list string) * bot :=
  match has_perms (perms b) ctx with
  | Ok false => (Ok denied, b)
  | Ok true =>
      let '(r, g, fs) := Registry.remove_sequence seq_name (embed_gen b) (fs b) in
      let b := {| perms := perms b; embed_gen := g; fs := fs |} in
      match r with
      | Ok _ => (Ok ["Removed sequence '" +:+ seq_name +:+ "'."], b)
      | Raise e => (Raise e, b)
      end
  | Raise e => (Raise e, b)
  end.

Definition addrole (ctx : context) (r : role) (b : bot) : result (list string) * bot :=
  if negb (author_administrator ctx) then (Ok denied, b)
  else if negb (role_guild_id r =? guild_id ctx) then (Ok denied, b)
  else
    let '(res, roles, fs) := add_role r (perms b) (fs b) in
    let b := {| perms := roles; embed_gen := embed_gen b; fs := fs |} in
    match res with
    | Ok _ =>
        (Ok ["Users from " +:+ role_mention r +:+ " now have permissions for this bot."], b)
    | Raise e => (Raise e, b)
    end.

Definition removerole (ctx : context) (r : role) (b : bot) : result (list string) * bot :=
  if negb (author_administrator ctx) then (Ok denied, b)
  else if negb (role_guild_id r =? guild_id ctx) then (Ok denied, b)
  else
    let '(res, roles, fs) := remove_role r (perms b) (fs b) in
    let b := {| perms := roles; embed_gen := embed_gen b; fs := fs |} in
    match res with
    | Ok _ => (Ok [], b)
    | Raise e => (Raise e, b)
    end.

(** The commands, as the command framework calls them. *)
Inductive command :=
| Ping
| RemoveGroup (group_name : string)
| AddSequence (seq_name seq_groups : string)
| RemoveSequence (seq_name : string)
| AddRole (r : role)
| RemoveRole (r : role).

Definition run (ctx : context) (c : command) (b : bot) : result (list string) * bot :=
  match c with
  | Ping => ping ctx b
  | RemoveGroup group_name => removegroup ctx group_name b
  | AddSequence seq_name seq_groups => addsequence ctx seq_name seq_groups b
  | RemoveSequence seq_name => removesequence ctx seq_name b
  | AddRole r => addrole ctx r b
  | RemoveRole r => removerole ctx r b
  end.

End Bot.

(** * Vocabulary of the further properties *)

(** ** The buffers and the headers *)

(** The group has [group_name] for its name; it has a name, and another
    one. *)
Definition named (group_name : string) (group : json) : bool :=
  match group with
  | JDict d =>
      match d !! "name" with
      | Some name => PyJson.eq_str name group_name
      | None => false
      end
  | _ => false
  end.

Definition named_otherwise (group_name : string) (group : json) : bool :=
  match group with
  | JDict d =>
      match d !! "name" with
      | Some name => negb (PyJson.eq_str name group_name)
      | None => false
      end
  | _ => false
  end.

(** The group with the tournament id written into it. *)
Definition annotated (tournament_id : string) (group : json) : json :=
  match group with
  | JDict d => JDict (<["tournament_id" := JStr tournament_id]> d)
  | _ => group
  end.

(** A GET request without a body that carries the API key and no
    [Authorization]. *)
Definition plain_get (token : pyval) (e : event) : Prop :=
  match e with
  | EvRequest r =>
      req_method r = "GET" /\ req_data r = None /\
      req_headers r !! "X-Api-Key" = Some token /\
      req_headers r !! "Authorization" = None
  | EvWrite _ _ => False
  end.

(** No [Authorization] among the default headers of the two methods the
    public methods use. *)
Definition unauthenticated (s : state) : Prop :=
  get_defaults s !! "Authorization" = None /\
  pages_defaults s !! "Authorization" = None.

(** What a public method leaves of the state [s]: the credentials and the
    files as they were, no [Authorization] among the default headers, and
    nothing but plain requests added to the trace. *)
Definition plain_run (token : pyval) (s s' : state) : Prop :=
  (exists later, trace s' = (later ++ trace s)%list /\ Forall (plain_get token) later) /\
  credentials s' = credentials s /\ disk s' = disk s /\ unauthenticated s'.

(** A response with a success status. *)
Definition answered (r : response) : Prop := ok r = true.

(** ** The rendering *)

Definition hex_digit (c : ascii) : Z :=
  match Py.hex_value c with
  | Some v => v
  | None => 0
  end.

(** The value of the two hexadecimal digits of [s] from position [i] on. *)
Definition hex_byte (s : string) (i : nat) : Z :=
  match Py.drop i s with
  | String a (String b _) => 16 * hex_digit a + hex_digit b
  | _ => 0
  end.

(** A colour code without its leading [#]. *)
Definition colour_digits (s : string) : string :=
  match s with
  | String c r => if Ascii.eqb c "#" then r else s
  | "" => ""
  end.

(** The width of a row of the table: the four columns and the three
    separators. *)
Definition table_width (ranking : list ranking_item) : nat :=
  (column_width "rank" ranking + 3 + (column_width "name" ranking + 3
   + (column_width "win_loss" ranking + 3 + column_width "diff" ranking)))%nat.

(** The line of one match. *)
Definition fixture_line (g : guild) (m : match_) : result string :=
  let* info := get_match_info m in
  Ok (get_match_string g info).





(** ** The stored lists *)

(** The alias of a stage and the name of its group, when it has both. *)
Definition stage_names (stage : json) : option (json * json) :=
  match subscript stage "alias",
        (let* group := subscript stage "group" in subscript group "name") with
  | Ok alias, Ok name => Some (alias, name)
  | _, _ => None
  end.

Definition well_formed_stage (stage : json) : bool :=
  match stage_names stage with
  | Some _ => true
  | None => false
  end.

(** The stage has [name] for its alias or for the name of its group. *)
Definition answers_to (name : string) (stage : json) : bool :=
  match stage_names stage with
  | Some (alias, group_name) => PyJson.eq_str alias name || PyJson.eq_str group_name name
  | None => false
  end.

(** A stage as [add_stage] stores it, for a group that [name] does not
    name: the alias is in lower case. *)
Definition stored_apart_from (name : string) (stage : json) : bool :=
  match stage_names stage with
  | Some (JStr alias, group_name) =>
      String.eqb (Py.lower alias) alias && negb (PyJson.eq_str group_name name)
  | _ => false
  end.

Definition has_alias (sequence : json) : bool :=
  match subscript sequence "alias" with
  | Ok _ => true
  | Raise _ => false
  end.

(** The sequence has [name] for its alias. *)
Definition alias_is (name : string) (sequence : json) : bool :=
  match subscript sequence "alias" with
  | Ok alias => PyJson.eq_str alias name
  | Raise _ => false
  end.

(** The list of roles as the manager stores it, for these pairs of a guild
    and a role. *)
Definition role_entry (entry : Z * Z) : json :=
  JDict (<["guild" := JInt (fst entry)]> (<["role" := JInt (snd entry)]> ∅)).

Definition role_list (entries : list (Z * Z)) : json := JList (map role_entry entries).

(** The pair of a role, and the roles that one of the pairs names. *)
Definition entry_of (r : PermissionManager.role) : Z * Z :=
  (PermissionManager.role_guild_id r, PermissionManager.role_id r).

Definition same_entry (a b : Z * Z) : bool := (fst a =? fst b) && (snd a =? snd b).

Definition grants (entries : list (Z * Z)) (member_role : PermissionManager.role) : bool :=
  existsb (fun entry => same_entry entry (entry_of member_role)) entries.

(** The objects of the module are what a start from the files gives. *)
Definition in_step (b : Bot.bot) : Prop := b = Bot.start (Bot.fs b).

(** ** More samples *)

Definition tournament_page : response :=
  {| status_code := 200; resp_headers := ∅;
     resp_json := Some (JDict {[ "name" := JStr "Cup" ]}) |}.

Definition refusal : response :=
  {| status_code := 401; resp_headers := ∅; resp_json := None |}.

Definition sample_group (name id : string) : json :=
  JDict (<["name" := JStr name]> (<["id" := JStr id]> (<["stage_id" := JStr "S"]> ∅))).

Definition sample_groups : list json :=
  [sample_group "Division 1" "1"; sample_group "The Vortex" "2"].

Definition token_without_expiry : json :=
  JDict (<["access_token" := JStr "new"]>
        (<["token_type" := JStr "bearer"]>
        (<["scope" := JStr "organizer:result"]> ∅))).

Definition unplayed (name : string) : opponent :=
  {| forfeit := false; opp_score := ScoreNone; opp_participant := sample_team name None |}.

Definition sample_role : PermissionManager.role :=
  {| PermissionManager.role_guild_id := 1; PermissionManager.role_id := 10;
     PermissionManager.role_mention := "<@&10>" |}.

Definition other_role : PermissionManager.role :=
  {| PermissionManager.role_guild_id := 2; PermissionManager.role_id := 20;
     PermissionManager.role_mention := "<@&20>" |}.

(** An author in the guild 1. *)
Definition member (administrator : bool) (roles : list PermissionManager.role)
    : PermissionManager.context :=
  {| PermissionManager.author_administrator := administrator;
     PermissionManager.author_roles := roles;
     PermissionManager.guild_id := 1 |}.

Definition no_files : gmap string (option json) := ∅.

(** The stage of the example of [addgroup]. *)
Definition vortex : json :=
  Registry.stage_info "Vortex" (sample_group "The Vortex" "2") "logo.png" "#00AAFF".

(** A bot with that stage, started on files that hold it. *)
Definition vortex_files : gmap string (option json) :=
  {[ "data/stages.json" := Some (JList [vortex]) ]}.

Definition vortex_bot : Bot.bot := Bot.start vortex_files.

(** * Properties *)

(** ** The embedding on samples *)

Example int16_samples :
  map Py.int16 ["ff"; "0xFF"; " +f_f "; "0x_a"; "-1"; "f_"; "_f"; "g"; ""; "0x"; "1 2"]
  = [Ok 255; Ok 255; Ok 255; Ok 10; Ok (-1); Raise ValueError; Raise ValueError;
     Raise ValueError; Raise ValueError; Raise ValueError; Raise ValueError].
Proof. reflexivity. Qed.

Example strip_samples :
  map (Py.strip "#") ["#00AAFF"; "##a#b##"; "###"; ""] = ["00AAFF"; "a#b"; ""; ""].
Proof. reflexivity. Qed.

Example emote_name_samples :
  map team_name_to_emote_name ["red devils"; "  red   DEVILS fc "; ""]
  = ["RedDevils"; "RedDEVILSFc"; ""].
Proof. reflexivity. Qed.

(** Beyond ASCII: U+00C9 and U+00E9 are the two cases of one letter,
    U+00DF becomes [SS], U+00A0 is white space for [int] and U+001C is
    not, and both are white space for [strptime]. *)
Example latin_1_samples :
  Py.lower (String (ascii_of_nat 201) "LAN") = String (ascii_of_nat 233) "lan" /\
  team_name_to_emote_name (String (ascii_of_nat 233) "lan vital")
  = String (ascii_of_nat 201) "lanVital" /\
  team_name_to_emote_name (String (ascii_of_nat 223) "a") = "SSa" /\
  Py.int16 (String (ascii_of_nat 160) "f") = Ok 15 /\
  Py.int16 (String (ascii_of_nat 28) "f") = Raise ValueError /\
  Datetime.strptime ("01.02.2024," +:+ String (ascii_of_nat 28) "03:04:05")
  = Datetime.strptime "01.02.2024, 03:04:05" /\
  Datetime.strptime ("01.02.2024," +:+ String (ascii_of_nat 160) "03:04:05")
  = Datetime.strptime "01.02.2024, 03:04:05".
Proof. repeat split. Qed.

Example ranking_sample :
  generate_ranking_text sample_ranking
  = Ok ("#1 | RDV  | 10-2 | +14" +:+ newline +:+ "#2 | Blue | 3-9  | -11").
Proof. vm_compute. reflexivity. Qed.

Example fixture_sample :
  generate_fixture_text sample_guild [one_forfeit; both_forfeit]
  = Ok ("Alpha :grey_question: W-FF :grey_question: Beta" +:+ newline
        +:+ "Alpha :grey_question: FF-FF :grey_question: Beta").
Proof. vm_compute. reflexivity. Qed.

Example calendar_samples :
  map Datetime.ord2ymd [1; 365; 366; 146097; 146098; 737425; 738945; 3652059]
  = [(1, 1, 1); (1, 12, 31); (2, 1, 1); (400, 12, 31); (401, 1, 1);
     (2020, 1, 1); (2024, 2, 29); (9999, 12, 31)].
Proof. reflexivity. Qed.

Example strftime_sample : Datetime.strftime sample_time = "29.02.2024, 13:07:09".
Proof. vm_compute. reflexivity. Qed.

Example strptime_samples :
  map Datetime.strptime
    ["29.02.2024, 13:07:09"; "1.2.2024,  3:04:05"; "31.02.2024, 03:04:05";
     "01.02.2024, 03:04:60"; "01.02.2024, 24:04:00"; "01.02.2024 03:04:05"]
  = [Ok (sample_time - 123456); Ok 63842353445000000; Raise ValueError;
     Raise ValueError; Raise ValueError; Raise ValueError].
Proof. vm_compute. reflexivity. Qed.

Example parse_content_range_samples :
  map (parse_content_range "items")
    ["items 0-49/120"; "items 50-99/120"; "items */0"; "matches 0-49/120"; ""]
  = [Some (0, 49, 120); Some (50, 99, 120); None; None; None].
Proof. reflexivity. Qed.

(** A ranking of three items on two pages, for a new instance: two
    requests, 333 ms apart, the second for the window from 2. *)
Example get_ranking_sample :
  let '(r, inbox, s) :=
    get_ranking "T" "S" "G"
      [sample_page "items" 0 1 3 [JInt 1; JInt 2]; sample_page "items" 2 2 3 [JInt 3]]
      (snd (init "auth.json" (sample_world []))) in
  r = Ok [JInt 1; JInt 2; JInt 3] /\ inbox = [] /\
  map show_event (trace s)
  = [("GET", None, Some (pstr "items=2-51"), 333000);
     ("GET", None, Some (pstr "items=0-49"), 0)].
Proof. vm_compute. repeat split. Qed.

(** ** Strings *)

Lemma append_cons c s t : String c s +:+ t = String c (s +:+ t).
Proof. reflexivity. Qed.

Lemma append_nil_l t : "" +:+ t = t.
Proof. reflexivity. Qed.

Lemma append_nil_r s : s +:+ "" = s.
Proof. induction s as [|c s IH]; [reflexivity|]. now rewrite append_cons, IH. Qed.

Lemma append_assoc s t u : (s +:+ t) +:+ u = s +:+ (t +:+ u).
Proof. induction s as [|c s IH]; [reflexivity|]. now rewrite !append_cons, IH. Qed.

Lemma length_append s t :
  String.length (s +:+ t) = (String.length s + String.length t)%nat.
Proof.
  induction s as [|c s IH]; [reflexivity|].
  rewrite append_cons. simpl. now rewrite IH.
Qed.

Lemma length_spaces n : String.length (Py.spaces n) = n.
Proof. induction n as [|n IH]; simpl; congruence. Qed.

Section AllChars.
Variable p : ascii -> bool.








Lemma all_chars_weaken (q : ascii -> bool) s :
  (forall c, q c = true -> p c = true) ->
  all_chars q s = true -> all_chars p s = true.
Proof.
  intros Hqp. induction s as [|c s IH]; simpl; [reflexivity|].
  intros [Hc Hs]%andb_prop. now rewrite (Hqp _ Hc), IH.
Qed.


End AllChars.



Lemma int16_empty : Py.int16 "" = Raise ValueError.
Proof. reflexivity. Qed.





(** ** The colour of a stage

    [__str_to_colour] does not look at the length of its argument: it cuts
    it at the second and at the fourth character and leaves the rest to
    [int]. *)



(** ** Emotes and forfeits *)

Lemma get_emote_id_lookup g name : get_emote_id g name = lookup_emote g name.
Proof.
  unfold get_emote_id, lookup_emote, same_name_ignoring_case.
  induction (emojis g) as [|e es IH]; simpl; [reflexivity|].
  destruct (String.eqb (Py.lower (emoji_name e)) (Py.lower name)); [reflexivity|exact IH].
Qed.

Lemma capitalize_snoc w c :
  w <> "" -> capitalize_first (w +:+ String c "") = capitalize_first w +:+ String c "".
Proof.
  destruct w as [|a w]; [congruence|]. intros _.
  rewrite append_cons. cbn [capitalize_first]. now rewrite append_assoc.
Qed.

Lemma snoc_nonempty w c : w +:+ String c "" <> "".
Proof. destruct w; discriminate. Qed.

Lemma emote_name_loop_words s : forall acc,
  emote_name_loop s true acc
  = acc +:+ concat_words (map capitalize_first (split_words is_blank s "")) /\
  forall word, word <> "" ->
    emote_name_loop s false (acc +:+ capitalize_first word)
    = acc +:+ concat_words (map capitalize_first (split_words is_blank s word)).
Proof.
  induction s as [|c s IH]; intros acc.
  - split; [simpl; now rewrite append_nil_r|].
    intros [|a w] Hw; [congruence|].
    cbn [split_words map concat_words fold_right emote_name_loop].
    now rewrite append_nil_r.
  - cbn [emote_name_loop split_words].
    change (Ascii.eqb c " ") with (is_blank c). destruct (is_blank c).
    + split; [apply IH|]. intros [|a w] Hw; [congruence|].
      destruct (IH (acc +:+ capitalize_first (String a w))) as [-> _].
      cbn [map concat_words fold_right]. now rewrite append_assoc.
    + split.
      * destruct (IH acc) as [_ H]. rewrite append_nil_l.
        specialize (H (String c "") ltac:(discriminate)).
        cbn [capitalize_first] in H. rewrite append_nil_r in H. exact H.
      * intros word Hw. destruct (IH acc) as [_ H].
        rewrite append_assoc, <- capitalize_snoc by exact Hw.
        apply H, snoc_nonempty.
Qed.

Lemma team_name_to_emote_name_words s :
  team_name_to_emote_name s = guess_by_words is_blank s.
Proof. apply (emote_name_loop_words s ""). Qed.

(** The emote of a team is the configured emote when one is configured
    and the guild has a custom emote of that name, compared without regard
    to case; otherwise the emote whose name is guessed from the full name,
    by dropping the blanks and putting the first character of every
    blank-delimited word in upper case ([red devils] gives [RedDevils]),
    looked up the same way; otherwise the placeholder. *)
Lemma find_emote_id_chain g t :
  find_emote_id g t =
    match ti_emote t ≫= lookup_emote g with
    | Some mention => mention
    | None =>
        match lookup_emote g (guess_by_words is_blank (ti_name t)) with
        | Some mention => mention
        | None => ":grey_question:"
        end
    end
  /\ guess_by_words is_blank "red devils" = "RedDevils"
  /\ find_emote_id sample_guild (team_info_of (sample_opponent "red devils" false 0))
     = ":grey_question:".
Proof.
  split; [|split; reflexivity].
  unfold find_emote_id. rewrite team_name_to_emote_name_words, !get_emote_id_lookup.
  destruct (ti_emote t) as [e|]; simpl; [rewrite get_emote_id_lookup|]; reflexivity.
Qed.

(** C9: the guess does not remove the white space of the team name, as
    the claim and the docstring of [__team_name_to_emote_name] have it
    ("whitespaces are removed and following letters are capitalized"): the
    loop compares each character with the blank U+0020 alone.  A tabulator
    is white space; in [blue<TAB>ox] it stays in the guess and the letter
    after it is not capitalized, where the words of the name give [BlueOx].
    So, in a guild with the emote [BlueOx], the team [blue ox] gets that
    emote and the team [blue<TAB>ox] gets the placeholder. *)
Theorem guess_keeps_tab :
  Py.is_whitespace tab = true /\
  team_name_to_emote_name ("blue" +:+ String tab "ox") = "Blue" +:+ String tab "ox" /\
  guess_by_words Py.is_whitespace ("blue" +:+ String tab "ox") = "BlueOx" /\
  team_name_to_emote_name "blue ox" = "BlueOx" /\
  find_emote_id sample_guild (team_info_of (sample_opponent "blue ox" false 0))
  = "<:BlueOx:7>" /\
  find_emote_id sample_guild
    (team_info_of (sample_opponent ("blue" +:+ String tab "ox") false 0))
  = ":grey_question:".
Proof. repeat split. Qed.

(** C4, as stated, fails when both opponents carry the flag: both sides
    show [FF], no side shows [W]. *)
Lemma double_forfeit_shows_no_winner :
  map forfeit (opponents both_forfeit) = [true; true] /\
  exists info, get_match_info both_forfeit = Ok info /\
    ti_score (home_team info) = ScoreStr "FF" /\
    ti_score (away_team info) = ScoreStr "FF" /\
    get_match_string {| emojis := [] |} info
    = "Alpha :grey_question: FF-FF :grey_question: Beta".
Proof. split; [reflexivity|]. eexists. repeat split. Qed.

(** C4, amended: in a match with at least one forfeit flag, every opponent
    with the flag shows [FF] and every opponent without it shows [W],
    whatever the scores were; the line of a match that is not pending shows
    these two marks where the scores go, the line of a pending match shows
    no score. *)
Theorem forfeit_scores st home away others g :
  forfeit home || forfeit away = true ->
  exists info,
    get_match_info {| status := st; opponents := home :: away :: others |} = Ok info /\
    ti_score (home_team info) = ScoreStr (forfeit_mark home) /\
    ti_score (away_team info) = ScoreStr (forfeit_mark away) /\
    get_match_string g info =
      if String.eqb st "pending" then
        (display_name (home_team info) +:+ " " +:+ find_emote_id g (home_team info))
        +:+ " vs " +:+
        (find_emote_id g (away_team info) +:+ " " +:+ display_name (away_team info))
      else
        (display_name (home_team info) +:+ " " +:+ find_emote_id g (home_team info))
        +:+ " " +:+ (forfeit_mark home +:+ "-" +:+ forfeit_mark away) +:+ " " +:+
        (find_emote_id g (away_team info) +:+ " " +:+ display_name (away_team info)).
Proof.
  intros Hff. unfold get_match_info. simpl. rewrite Hff.
  eexists. split; [reflexivity|].
  unfold get_match_string, forfeit_mark, apply_match_forfeit. simpl.
  destruct (forfeit home), (forfeit away), (String.eqb st "pending"); repeat split.
Qed.

Lemma forfeit_scores_witness :
  exists info,
    get_match_info one_forfeit = Ok info /\
    ti_score (home_team info) = ScoreStr "W" /\
    ti_score (away_team info) = ScoreStr "FF".
Proof.
  destruct (forfeit_scores "completed" (sample_opponent "Alpha" false 2)
              (sample_opponent "Beta" true 1) [] sample_guild eq_refl)
    as (info & Hinfo & Hhome & Haway & _).
  exists info. repeat split; assumption.
Defined.
(** ** The standings table *)

Lemma length_ljust s w :
  (String.length s <= w)%nat -> String.length (ljust s w) = w.
Proof. intros H. unfold ljust. rewrite length_append, length_spaces. lia. Qed.

Lemma map_result_ok {A B} (f : A -> result B) (g : A -> B) l :
  (forall a, a ∈ l -> f a = Ok (g a)) -> map_result f l = Ok (map g l).
Proof.
  induction l as [|a l IH]; intros H; simpl; [reflexivity|].
  rewrite (H a) by apply list_elem_of_here. simpl.
  rewrite IH; [reflexivity|]. intros b Hb. apply H. now apply list_elem_of_further.
Qed.

Lemma fold_left_max l : forall x, fold_left Nat.max l x = Nat.max x (max_list l).
Proof.
  induction l as [|y l IH]; intros x; simpl; [lia|]. rewrite IH. lia.
Qed.

Lemma py_max_nonempty l : l <> [] -> Py.max l = Ok (max_list l).
Proof. destruct l as [|x l]; [congruence|]. intros _. simpl. now rewrite fold_left_max. Qed.

Lemma field_lookup key team :
  key ∈ ranking_keys -> get_rank_info team !! key = Some (field key team).
Proof.
  unfold ranking_keys, field. rewrite !elem_of_cons, elem_of_nil.
  intros [->|[->|[->|[->|[]]]]]; reflexivity.
Qed.

Lemma field_lengths_ranking key ranking :
  key ∈ ranking_keys ->
  field_lengths key (map get_rank_info ranking)
  = Ok (map (fun team => String.length (field key team)) ranking).
Proof.
  intros Hk. unfold field_lengths.
  induction ranking as [|t r IH]; simpl; [reflexivity|].
  unfold Py.getitem at 1. rewrite field_lookup by exact Hk. simpl.
  now rewrite IH.
Qed.

(** The paddings the first loop leaves for the keys it is given. *)
Lemma gather_paddings_ranking ranking : ranking <> [] -> forall keys paddings,
  (forall key, key ∈ keys -> key ∈ ranking_keys) ->
  exists paddings',
    gather_paddings keys (map get_rank_info ranking) paddings = Ok paddings' /\
    (forall key, key ∈ keys -> paddings' !! key = Some (column_width key ranking)) /\
    (forall key, key ∉ keys -> paddings' !! key = paddings !! key).
Proof.
  intros Hne keys. induction keys as [|k keys IH]; intros paddings Hk;
    cbn [gather_paddings].
  { eexists; split; [reflexivity|]. split; [intros key []%elem_of_nil|reflexivity]. }
  rewrite field_lengths_ranking by (apply Hk, list_elem_of_here). cbn [rbind].
  rewrite py_max_nonempty by (destruct ranking; [congruence|discriminate]).
  cbn [rbind]. fold (column_width k ranking).
  destruct (IH (<[k := column_width k ranking]> paddings)) as (p' & -> & Hin & Hout).
  { intros key Hkey. apply Hk. now apply list_elem_of_further. }
  eexists; split; [reflexivity|]. split.
  - intros key Hkey. destruct (decide (key ∈ keys)) as [Hkk|Hkk]; [now apply Hin|].
    apply elem_of_cons in Hkey as [->|]; [|contradiction].
    rewrite Hout by exact Hkk. apply lookup_insert_eq.
  - intros key Hkey. apply not_elem_of_cons in Hkey as [Hne' Hkey].
    rewrite Hout by exact Hkey. now apply lookup_insert_ne.
Qed.

Lemma pad_entry_spec (paddings : gmap string nat) (w : string -> nat) :
  forall keys (entry : gmap string string) (v : string -> string),
  NoDup keys ->
  (forall key, key ∈ keys -> entry !! key = Some (v key) /\ paddings !! key = Some (w key)) ->
  exists entry',
    pad_entry keys paddings entry = Ok entry' /\
    (forall key, key ∈ keys -> entry' !! key = Some (ljust (v key) (w key))) /\
    (forall key, key ∉ keys -> entry' !! key = entry !! key).
Proof.
  induction keys as [|k keys IH]; intros entry v Hnd H; simpl.
  { eexists; split; [reflexivity|]. split; [intros key []%elem_of_nil|reflexivity]. }
  apply NoDup_cons in Hnd as [Hk Hnd].
  destruct (H k) as [Hv Hw]; [apply list_elem_of_here|].
  unfold Py.getitem. rewrite Hv, Hw. simpl.
  destruct (IH (<[k := v k +:+ Py.spaces (w k - String.length (v k))]> entry) v Hnd)
    as (e' & -> & Hin & Hout).
  { intros key Hkey. split; [|apply H; now apply list_elem_of_further].
    rewrite lookup_insert_ne by (intros ->; contradiction).
    apply H. now apply list_elem_of_further. }
  eexists; split; [reflexivity|]. split.
  - intros key [->|Hkey]%elem_of_cons; [|now apply Hin].
    rewrite Hout by exact Hk. apply lookup_insert_eq.
  - intros key [Hne Hkey]%not_elem_of_cons.
    rewrite Hout by exact Hkey. now apply lookup_insert_ne.
Qed.

Lemma ranking_keys_nodup : NoDup ranking_keys.
Proof. apply (bool_decide_unpack _). vm_compute. exact I. Qed.

Lemma get_ranking_str_padded (entry : gmap string string) (f : string -> string) keys sep :
  (forall key, key ∈ keys -> entry !! key = Some (f key)) ->
  get_ranking_str entry keys sep = Ok (Py.join sep (map f keys)).
Proof.
  intros H. unfold get_ranking_str.
  rewrite (map_result_ok _ f); [reflexivity|].
  intros key Hkey. unfold Py.getitem. now rewrite H.
Qed.

Lemma map_result_bind {A B C} (f : A -> result B) (h : B -> result C) (g : A -> C) l :
  (forall a, a ∈ l -> exists b, f a = Ok b /\ h b = Ok (g a)) ->
  exists bs, map_result f l = Ok bs /\ map_result h bs = Ok (map g l).
Proof.
  induction l as [|a l IH]; intros H; simpl.
  { eexists; split; reflexivity. }
  destruct (H a) as (b & -> & Hb); [apply list_elem_of_here|].
  destruct IH as (bs & -> & Hbs).
  { intros a' Ha'. apply H. now apply list_elem_of_further. }
  simpl. eexists; split; [reflexivity|]. simpl. now rewrite Hb, Hbs.
Qed.

Lemma column_width_ge key ranking team :
  team ∈ ranking -> (String.length (field key team) <= column_width key ranking)%nat.
Proof.
  intros Hin. apply max_list_elem_of_le. apply list_elem_of_fmap.
  exists team. split; [reflexivity|exact Hin].
Qed.

Lemma generate_ranking_text_rows ranking :
  ranking <> [] ->
  generate_ranking_text ranking = Ok (Py.join newline (map (padded_row ranking) ranking)).
Proof.
  intros Hne. unfold generate_ranking_text, pad_dictionary.
  destruct (gather_paddings_ranking ranking Hne ranking_keys ∅) as (pd & -> & Hpd & _);
    [auto|]. cbn [rbind].
  destruct (map_result_bind (pad_entry ranking_keys pd)
              (fun team => get_ranking_str team ranking_keys " | ")
              (fun e => Py.join " | "
                 (map (fun key => ljust (default "" (e !! key))
                    (column_width key ranking)) ranking_keys))
              (map get_rank_info ranking)) as (rows & -> & Hrows).
  { intros e He.
    destruct (pad_entry_spec pd (fun key => column_width key ranking) ranking_keys e
                (fun key => default "" (e !! key)) ranking_keys_nodup)
      as (e' & He' & Hin & _).
    { intros key Hkey. split; [|now apply Hpd].
      apply list_elem_of_fmap in He as (team & -> & _).
      now rewrite (field_lookup key team Hkey). }
    exists e'. split; [exact He'|]. now apply get_ranking_str_padded. }
  cbn [rbind]. rewrite Hrows. cbn [rbind]. rewrite map_map. reflexivity.
Qed.

(** C6: for a ranking that is not empty, the table is the rows joined by
    newlines, a row is its four fields joined by [" | "], and every field
    is its text followed by blanks up to exactly the natural width of its
    column. *)
Theorem ranking_table_padded ranking :
  ranking <> [] ->
  generate_ranking_text ranking = Ok (Py.join newline (map (padded_row ranking) ranking)) /\
  forall team key, team ∈ ranking -> key ∈ ranking_keys ->
    String.length (ljust (field key team) (column_width key ranking))
    = column_width key ranking /\
    ljust (field key team) (column_width key ranking)
    = field key team
      +:+ Py.spaces (column_width key ranking - String.length (field key team)).
Proof.
  intros Hne. split; [now apply generate_ranking_text_rows|].
  intros team key Hteam Hkey. split; [|reflexivity].
  apply length_ljust. now apply column_width_ge.
Qed.

Lemma ranking_table_padded_witness :
  generate_ranking_text sample_ranking
  = Ok (Py.join newline (map (padded_row sample_ranking) sample_ranking)).
Proof. apply (ranking_table_padded sample_ranking). discriminate. Defined.

(** C10: the empty ranking raises (the [ValueError] of [max] on no widths),
    and every other ranking gives a table. *)
Theorem empty_ranking_raises :
  generate_ranking_text [] = Raise ValueError /\
  forall ranking, ranking <> [] -> exists text, generate_ranking_text ranking = Ok text.
Proof.
  split; [reflexivity|].
  intros ranking Hne. eexists. now apply generate_ranking_text_rows.
Qed.

Lemma empty_ranking_raises_witness :
  exists text, generate_ranking_text sample_ranking = Ok text.
Proof. apply empty_ranking_raises. discriminate. Defined.
(** ** The calendar and the expiry format *)


Section Calendar.
Import Datetime.
















End Calendar.
(** ** The paginated fetch *)

Lemma read_digits_numeral d : forall acc rest,
  starts_with_digit rest = false ->
  read_digits (NilEmpty.string_of_uint d +:+ rest) acc = (uint_value d acc, rest).
Proof.
  induction d; intros acc rest Hrest; cbn [NilEmpty.string_of_uint uint_value];
    rewrite ?append_cons; cbn [read_digits];
    try (change (Datetime.digit_value _) with (Some 0) ||
         change (Datetime.digit_value _) with (Some 1) ||
         change (Datetime.digit_value _) with (Some 2) ||
         change (Datetime.digit_value _) with (Some 3) ||
         change (Datetime.digit_value _) with (Some 4) ||
         change (Datetime.digit_value _) with (Some 5) ||
         change (Datetime.digit_value _) with (Some 6) ||
         change (Datetime.digit_value _) with (Some 7) ||
         change (Datetime.digit_value _) with (Some 8) ||
         change (Datetime.digit_value _) with (Some 9)); try apply IHd; try exact Hrest.
  change ("" +:+ rest) with rest. destruct rest as [|c r]; [reflexivity|].
  simpl in *. destruct (Datetime.digit_value c); [discriminate|reflexivity].
Qed.

Lemma of_uint_acc_value d : forall acc,
  Z.pos (Pos.of_uint_acc d acc) = uint_value d (Z.pos acc).
Proof.
  induction d; intros acc; cbn [Pos.of_uint_acc uint_value]; rewrite ?IHd;
    try reflexivity; f_equal; lia.
Qed.

Lemma of_uint_value d : Z.of_N (Pos.of_uint d) = uint_value d 0.
Proof.
  induction d; cbn [Pos.of_uint uint_value]; try exact IHd; try reflexivity;
    cbn [Z.of_N]; rewrite of_uint_acc_value; reflexivity.
Qed.

Lemma str_of_int_nonneg (n : N) :
  exists d, Py.str_of_int (Z.of_N n) = NilEmpty.string_of_uint d /\
            uint_value d 0 = Z.of_N n /\ d <> Decimal.Nil.
Proof.
  destruct n as [|p].
  - exists (Decimal.D0 Decimal.Nil). repeat split; discriminate.
  - exists (Pos.to_uint p). unfold Py.str_of_int. cbn [Z.of_N Z.to_int NilZero.string_of_int].
    pose proof (Unsigned.to_uint_nonnil p) as Hnil.
    split; [|split; [|exact Hnil]].
    + unfold NilZero.string_of_uint. destruct (Pos.to_uint p); congruence.
    + rewrite <- of_uint_value, DecimalPos.Unsigned.of_to. reflexivity.
Qed.

Lemma read_int_numeral (n : N) rest :
  starts_with_digit rest = false ->
  read_int (Py.str_of_int (Z.of_N n) +:+ rest) = Some (Z.of_N n, rest).
Proof.
  intros Hrest. destruct (str_of_int_nonneg n) as (d & -> & Hv & Hnil).
  unfold read_int.
  pose proof (read_digits_numeral d 0 rest Hrest) as Hread.
  destruct d; try congruence; cbn [NilEmpty.string_of_uint] in *;
    rewrite append_cons in *; cbn -[read_digits Z.mul];
    rewrite Hread, Hv; f_equal; f_equal; lia.
Qed.

Lemma expect_prefix_append p rest : expect_prefix p (p +:+ rest) = Some rest.
Proof.
  induction p as [|c p IH]; [reflexivity|].
  rewrite append_cons. cbn [expect_prefix]. now rewrite Ascii.eqb_refl.
Qed.

Lemma parse_content_range_ok unit first last total :
  parse_content_range unit (content_range unit first last total)
  = Some (Z.of_N first, Z.of_N last, Z.of_N total).
Proof.
  unfold parse_content_range, content_range.
  rewrite <- (append_assoc unit " "), expect_prefix_append. cbn [Datetime.obind].
  rewrite read_int_numeral by reflexivity. cbn [Datetime.obind].
  change ("-" +:+ ?r) with (String "-" r). cbn [Datetime.expect Ascii.eqb Bool.eqb].
  cbn [Datetime.obind].
  rewrite read_int_numeral by reflexivity. cbn [Datetime.obind].
  change ("/" +:+ ?r) with (String "/" r). cbn [Datetime.expect Ascii.eqb Bool.eqb].
  cbn [Datetime.obind].
  rewrite <- (append_nil_r (Py.str_of_int (Z.of_N total))).
  rewrite read_int_numeral by reflexivity. reflexivity.
Qed.

Lemma pages_loop_cons url unit ipr headers page_start total page_list r inbox s :
  page_start < total ->
  pages_loop url unit ipr headers page_start total page_list (r :: inbox) s =
  let headers' := with_range unit ipr page_start headers in
  let s1 := page_sent url unit ipr page_start headers s in
  if ok r then
    match
      (let* body := response_json r in
       let* page_list := extend page_list body in
       let* content_range_str := header r "Content-Range" in
       Ok (page_list, parse_content_range unit content_range_str))
    with
    | Raise e => (Raise e, headers', inbox, s1)
    | Ok (page_list, None) => (Ok page_list, headers', inbox, s1)
    | Ok (page_list, Some (_, last_page_index, total_page_num)) =>
        pages_loop url unit ipr headers' (last_page_index + 1) total_page_num
          page_list inbox s1
    end
  else (Raise (HTTPError (status_code r)), headers', inbox, s1).
Proof.
  intros Hlt. cbn [pages_loop]. destruct (Z.ltb_spec page_start total); [|lia].
  reflexivity.
Qed.

Lemma pages_loop_nil url unit ipr headers page_start total page_list s :
  page_start < total ->
  pages_loop url unit ipr headers page_start total page_list [] s =
  (Raise ConnectionError, with_range unit ipr page_start headers, [],
   page_sent url unit ipr page_start headers s).
Proof.
  intros Hlt. cbn [pages_loop]. destruct (Z.ltb_spec page_start total); [|lia].
  reflexivity.
Qed.

Lemma pages_loop_done url unit ipr headers page_start total page_list inbox s :
  total <= page_start ->
  pages_loop url unit ipr headers page_start total page_list inbox s =
  (Ok page_list, headers, inbox, s).
Proof.
  intros Hge. destruct inbox; cbn [pages_loop];
    destruct (Z.ltb_spec page_start total); try lia; reflexivity.
Qed.

Ltac unfold_st :=
  unfold respect_rate_limits, has_api_token_expired, credential, set_credential,
    pause_until, now, bind, gets, modify, ret, lift_result in *.

Lemma respect_rate_limits_spec s :
  exists t ticks',
    respect_rate_limits s
    = (Ok tt, set_api_cooldown (t + Datetime.milliseconds (time_per_request s))
                (set_clock t (set_ticks ticks' s))) /\
    clock s <= t /\ api_cooldown s <= t.
Proof.
  unfold_st. destruct s as [cd tpr path creds gb tb gd pd pgd clk tks dsk tr].
  cbn. destruct tks as [|d1 tks]; cbn.
  - destruct (Z.ltb_spec clk cd); cbn.
    + exists (Z.max clk cd), []. split; [reflexivity|lia].
    + exists clk, []. split; [reflexivity|lia].
  - destruct (Z.ltb_spec (clk + Z.of_N d1) cd); cbn; destruct tks as [|d2 tks]; cbn.
    + exists (Z.max (clk + Z.of_N d1) cd), []. split; [reflexivity|lia].
    + exists (Z.max (clk + Z.of_N d1) cd + Z.of_N d2), tks. split; [reflexivity|lia].
    + exists (clk + Z.of_N d1), []. split; [reflexivity|lia].
    + exists (clk + Z.of_N d1 + Z.of_N d2), tks. split; [reflexivity|lia].
Qed.

Lemma trace_page_sent url unit ipr page_start headers s :
  trace (page_sent url unit ipr page_start headers s)
  = EvRequest {| req_method := "GET"; req_url := url;
                 req_headers := with_range unit ipr page_start headers;
                 req_data := None;
                 req_time := clock (page_sent url unit ipr page_start headers s) |}
    :: trace s.
Proof.
  unfold page_sent. destruct (respect_rate_limits_spec s) as (t & tk & -> & _).
  reflexivity.
Qed.

Lemma pages_loop_trace url unit ipr inbox : forall headers page_start total page_list s,
  exists later,
    trace (snd (pages_loop url unit ipr headers page_start total page_list inbox s))
    = (later ++ trace s)%list.
Proof.
  induction inbox as [|r inbox IH]; intros headers page_start total page_list s;
    (destruct (Z.lt_ge_cases page_start total) as [Hlt|Hge];
     [|rewrite pages_loop_done by lia; exists []; reflexivity]).
  - rewrite pages_loop_nil by exact Hlt. cbn [snd]. rewrite trace_page_sent.
    eexists [_]. reflexivity.
  - rewrite pages_loop_cons by exact Hlt. cbv zeta.
    set (s1 := page_sent url unit ipr page_start headers s).
    assert (Hs1 : exists ev, trace s1 = ev :: trace s)
      by (eexists; apply trace_page_sent).
    destruct Hs1 as [ev Hs1].
    destruct (ok r); [|exists [ev]; cbn [snd]; now rewrite Hs1].
    destruct (let* body := response_json r in _) as [[pl [[[? last] tot]|]]|e];
      try (exists [ev]; cbn [snd]; now rewrite Hs1).
    destruct (IH (with_range unit ipr page_start headers) (last + 1) tot pl s1)
      as [later ->].
    exists (later ++ [ev])%list. rewrite Hs1, <- app_assoc. reflexivity.
Qed.

Lemma pages_loop_first_request url unit ipr headers page_start total page_list inbox s :
  page_start < total ->
  exists req later,
    trace (snd (pages_loop url unit ipr headers page_start total page_list inbox s))
    = (later ++ EvRequest req :: trace s)%list /\
    req_method req = "GET" /\ req_url req = url /\ req_data req = None /\
    req_headers req = with_range unit ipr page_start headers.
Proof.
  intros Hlt.
  set (s1 := page_sent url unit ipr page_start headers s).
  pose proof (trace_page_sent url unit ipr page_start headers s) as Hs1. fold s1 in Hs1.
  destruct inbox as [|r inbox].
  - rewrite pages_loop_nil by exact Hlt. cbn [snd]. fold s1. rewrite Hs1.
    eexists _, []. repeat split.
  - rewrite pages_loop_cons by exact Hlt. cbv zeta. fold s1.
    destruct (ok r); [|eexists _, []; cbn [snd]; rewrite Hs1; repeat split].
    destruct (let* body := response_json r in _) as [[pl [[[? last] tot]|]]|e];
      try (eexists _, []; cbn [snd]; rewrite Hs1; repeat split).
    destruct (pages_loop_trace url unit ipr inbox
                (with_range unit ipr page_start headers) (last + 1) tot pl s1)
      as [later ->].
    rewrite Hs1. eexists _, later. repeat split.
Qed.

Lemma extend_items page_list body l :
  extend [] body = Ok l -> extend page_list body = Ok (page_list ++ l)%list.
Proof. destruct body; cbn; intros [= <-]; reflexivity. Qed.

Lemma extend_raise page_list body e :
  extend page_list body = Raise e -> extend [] body = Raise e.
Proof. destruct body; cbn; congruence. Qed.

Lemma items_of_eq r body l :
  resp_json r = Some body -> extend [] body = Ok l -> items_of r = l.
Proof. intros Hb Hl. unfold items_of. now rewrite Hb, Hl. Qed.

Lemma pages_loop_concat url unit ipr inbox :
  forall headers page_start total page_list s pages headers' inbox' s',
  pages_loop url unit ipr headers page_start total page_list inbox s
  = (Ok pages, headers', inbox', s') ->
  exists used,
    inbox = (used ++ inbox')%list /\
    pages = (page_list ++ flat_map items_of used)%list.
Proof.
  induction inbox as [|r inbox IH];
    intros headers page_start total page_list s pages headers' inbox' s';
    (destruct (Z.lt_ge_cases page_start total) as [Hlt|Hge];
     [|rewrite pages_loop_done by lia; intros [= <- <- <- <-]; exists [];
       split; [reflexivity|cbn; now rewrite app_nil_r]]).
  - rewrite pages_loop_nil by exact Hlt. discriminate.
  - rewrite pages_loop_cons by exact Hlt. cbv zeta.
    destruct (ok r); [|discriminate].
    unfold response_json.
    destruct (resp_json r) as [body|] eqn:Hbody; cbn [rbind]; [|discriminate].
    destruct (extend page_list body) as [pl|e] eqn:Hext; cbn [rbind]; [|discriminate].
    assert (Hitems : exists l, extend [] body = Ok l /\ pl = (page_list ++ l)%list).
    { destruct body; cbn in Hext |- *; try discriminate; injection Hext as <-; eauto. }
    destruct Hitems as (l & Hl & ->).
    destruct (header r "Content-Range") as [text|e]; cbn [rbind]; [|discriminate].
    destruct (parse_content_range unit text) as [[[? last] tot]|].
    + intros Hrun. apply IH in Hrun as (used & -> & ->).
      exists (r :: used). split; [reflexivity|].
      cbn [flat_map]. rewrite (items_of_eq _ _ _ Hbody Hl). now rewrite app_assoc.
    + intros [= <- <- <- <-]. exists [r]. split; [reflexivity|].
      cbn [flat_map]. rewrite (items_of_eq _ _ _ Hbody Hl). now rewrite app_nil_r.
Qed.

Lemma pages_loop_unparsed url unit ipr headers page_start total page_list r inbox s
    items text :
  page_start < total -> ok r = true -> resp_json r = Some (JList items) ->
  header r "Content-Range" = Ok text -> parse_content_range unit text = None ->
  pages_loop url unit ipr headers page_start total page_list (r :: inbox) s
  = (Ok (page_list ++ items)%list, with_range unit ipr page_start headers, inbox,
     page_sent url unit ipr page_start headers s).
Proof.
  intros Hlt Hok Hbody Hhdr Hparse. rewrite pages_loop_cons by exact Hlt. cbv zeta.
  unfold response_json. rewrite Hok, Hbody. cbn [rbind extend].
  rewrite Hhdr. cbn [rbind]. now rewrite Hparse.
Qed.

Lemma pages_loop_no_header url unit ipr headers page_start total page_list r inbox s
    items :
  page_start < total -> ok r = true -> resp_json r = Some (JList items) ->
  header r "Content-Range" = Raise KeyError ->
  pages_loop url unit ipr headers page_start total page_list (r :: inbox) s
  = (Raise KeyError, with_range unit ipr page_start headers, inbox,
     page_sent url unit ipr page_start headers s).
Proof.
  intros Hlt Hok Hbody Hhdr. rewrite pages_loop_cons by exact Hlt. cbv zeta.
  unfold response_json. rewrite Hok, Hbody. cbn [rbind extend].
  now rewrite Hhdr.
Qed.

(** A fetch without authorization: the API key goes into the headers and
    the loop starts at window 0 with no pages. *)
Lemma request_get_pages_plain url given unit ipr inbox s token :
  credentials s !! "token" = Some token ->
  request_get_pages url given false unit ipr inbox s =
  let save h := match given with None => set_pages_defaults h | Some _ => fun s => s end in
  let h := <["X-Api-Key" := token]> (default (pages_defaults s) given) in
  let '(r, h', inbox', s') := pages_loop url unit ipr h 0 1 [] inbox (save h s) in
  (r, inbox', save h' s').
Proof.
  intros Htoken. unfold request_get_pages, attach_headers.
  unfold nbind, lift, gets, nret, credential, Py.getitem, modify.
  rewrite Htoken. reflexivity.
Qed.

Lemma request_get_pages_concat url given unit ipr inbox s pages inbox' s' :
  request_get_pages url given false unit ipr inbox s = (Ok pages, inbox', s') ->
  exists used, inbox = (used ++ inbox')%list /\ pages = flat_map items_of used.
Proof.
  destruct (credentials s !! "token") as [token|] eqn:Htoken.
  - rewrite (request_get_pages_plain url given unit ipr inbox s token Htoken). cbv zeta.
    destruct (pages_loop _ _ _ _ _ _ _ _ _) as [[[r h'] inbox1] s1] eqn:Hloop.
    intros [= -> -> _]. apply pages_loop_concat in Hloop. exact Hloop.
  - unfold request_get_pages, attach_headers.
    unfold nbind, lift, gets, nret, credential, Py.getitem. rewrite Htoken.
    discriminate.
Qed.

Lemma trace_save (given : option (gmap string pyval)) h s :
  trace (match given with None => set_pages_defaults h | Some _ => fun s => s end s)
  = trace s.
Proof. destruct given; reflexivity. Qed.

Lemma request_line_page_sent url unit ipr page_start headers s :
  exists ev,
    trace (page_sent url unit ipr page_start headers s) = ev :: trace s /\
    request_line ev = window_request url unit ipr page_start.
Proof.
  eexists. split; [apply trace_page_sent|].
  unfold request_line, window_request, with_range, range_header.
  cbn [req_method req_url req_headers]. rewrite lookup_insert_eq. reflexivity.
Qed.

Lemma starts_during_snoc ps : forall page_start,
  (starts_during page_start ps ++ [chain_start page_start ps])%list
  = page_start :: map next_start ps.
Proof.
  induction ps as [|p ps IH]; intros page_start; [reflexivity|].
  cbn [starts_during chain_start fold_left app map]. f_equal. apply IH.
Qed.

(** The loop on a run of pages that all leave more to fetch: it asks for
    one window after the other and is then about to ask for the next. *)
Lemma pages_loop_chain url unit ipr rs ps :
  Forall2 (carries_page unit) rs ps -> Forall more_to_fetch ps ->
  forall headers page_start total page_list rest s,
  page_start < total ->
  exists headers1 s1 sent,
    pages_loop url unit ipr headers page_start total page_list (rs ++ rest)%list s
    = pages_loop url unit ipr headers1 (chain_start page_start ps) (chain_total total ps)
        (page_list ++ flat_map page_items ps)%list rest s1 /\
    chain_start page_start ps < chain_total total ps /\
    trace s1 = (rev sent ++ trace s)%list /\
    map request_line sent = map (window_request url unit ipr) (starts_during page_start ps).
Proof.
  induction 1 as [|r p rs ps Hr Hrs IH];
    intros Hmore headers page_start total page_list rest s Hlt.
  - exists headers, s, []. cbn [flat_map]. rewrite app_nil_r. repeat split. exact Hlt.
  - apply Forall_cons in Hmore as [Hp Hmore].
    destruct Hr as (Hok & Hbody & Hhdr).
    cbn [app]. rewrite pages_loop_cons by exact Hlt. cbv zeta.
    unfold response_json. rewrite Hok, Hbody. cbn [rbind extend]. rewrite Hhdr.
    cbn [rbind]. rewrite parse_content_range_ok.
    destruct (IH Hmore (with_range unit ipr page_start headers) (next_start p)
                (Z.of_N (page_total p)) (page_list ++ page_items p)%list rest
                (page_sent url unit ipr page_start headers s))
      as (h1 & s1 & sent & Hrun & Hlt' & Htrace & Hlines).
    { unfold more_to_fetch, next_start in *. lia. }
    destruct (request_line_page_sent url unit ipr page_start headers s)
      as (ev & Hev & Hline).
    exists h1, s1, (ev :: sent).
    cbn [chain_start chain_total fold_left flat_map starts_during map rev].
    split; [|split; [exact Hlt'|split]].
    + fold (next_start p). rewrite Hrun. unfold chain_start, chain_total.
      now rewrite <- app_assoc.
    + rewrite Htrace, Hev, <- app_assoc. reflexivity.
    + now rewrite Hline, Hlines.
Qed.

(** C1: a paginated fetch follows the content ranges ([__request_get_pages]
    without authorization, which is what [get_ranking], [get_matches] and
    [get_groups] run, 50 to a page, with the URLs and the units shown; a
    round number that is not a list counts as the list of that number).
    The platform answers with successful pages that carry their items and
    a content range [unit a-b/n].  As long as the pages have [b < n - 1],
    the fetch asks for one window after the other, whatever comes next: the
    first request has the Range [unit=0-(size - 1)], and every page is
    followed by a request whose Range starts at its [b + 1].  When the page
    that follows has [b = n - 1] (or more), the fetch stops there: no
    further request leaves, the responses after it are not used, and the
    result is the items of all the pages in the order of their arrival. *)
Theorem paginated_fetch_follows_content_range url given unit ipr token rs ps s :
  credentials s !! "token" = Some token ->
  Forall2 (carries_page unit) rs ps ->
  Forall more_to_fetch ps ->
  (forall rest, exists later sent,
     trace (snd (request_get_pages url given false unit ipr (rs ++ rest)%list s))
     = (later ++ rev sent ++ trace s)%list /\
     map request_line sent = map (window_request url unit ipr) (0 :: map next_start ps)) /\
  (forall final last rest,
     carries_page unit final last ->
     Z.of_N (page_total last) - 1 <= Z.of_N (page_last last) ->
     exists s' sent,
       request_get_pages url given false unit ipr (rs ++ final :: rest)%list s
       = (Ok (flat_map page_items ps ++ page_items last)%list, rest, s') /\
       trace s' = (rev sent ++ trace s)%list /\
       map request_line sent
       = map (window_request url unit ipr) (0 :: map next_start ps)) /\
  (forall tournament_id stage_id group_id round_nums,
     get_ranking tournament_id stage_id group_id
     = request_get_pages
         ("https://api.toornament.com/viewer/v2/tournaments/" +:+ tournament_id
          +:+ "/stages/" +:+ stage_id +:+ "/ranking-items?group_ids=" +:+ group_id)
         None false "items" 50 /\
     get_matches tournament_id stage_id group_id (RoundList round_nums)
     = request_get_pages
         ("https://api.toornament.com/viewer/v2/tournaments/" +:+ tournament_id
          +:+ "/matches?stage_ids=" +:+ stage_id +:+ "&group_ids=" +:+ group_id
          +:+ "&round_numbers=" +:+ Py.join "," (map Py.str_of_int round_nums))
         None false "matches" 50 /\
     (forall round_num,
        get_matches tournament_id stage_id group_id (RoundOne round_num)
        = get_matches tournament_id stage_id group_id (RoundList [round_num])) /\
     get_groups tournament_id
     = request_get_pages
         ("https://api.toornament.com/viewer/v2/tournaments/" +:+ tournament_id
          +:+ "/groups")
         None false "groups" 50).
Proof.
  intros Htoken Hrs Hmore.
  set (h := <["X-Api-Key" := token]> (default (pages_defaults s) given)).
  set (save := fun h0 : gmap string pyval =>
                 match given with None => set_pages_defaults h0 | Some _ => fun s => s end).
  assert (Hchain : forall rest, exists headers1 s1 sent,
            pages_loop url unit ipr h 0 1 [] (rs ++ rest)%list (save h s)
            = pages_loop url unit ipr headers1 (chain_start 0 ps) (chain_total 1 ps)
                (flat_map page_items ps) rest s1 /\
            chain_start 0 ps < chain_total 1 ps /\
            trace s1 = (rev sent ++ trace s)%list /\
            map request_line sent
            = map (window_request url unit ipr) (starts_during 0 ps)).
  { intros rest.
    destruct (pages_loop_chain url unit ipr rs ps Hrs Hmore h 0 1 [] rest (save h s))
      as (h1 & s1 & sent & Hrun & Hlt & Htrace & Hlines); [lia|].
    exists h1, s1, sent. unfold save in Htrace. rewrite trace_save in Htrace. auto. }
  split; [|split].
  - intros rest. destruct (Hchain rest) as (h1 & s1 & sent & Hrun & Hlt & Htrace & Hlines).
    rewrite (request_get_pages_plain url given unit ipr _ s token Htoken). cbv zeta.
    fold h save. rewrite Hrun. clear Hrun.
    destruct (pages_loop_first_request url unit ipr h1 (chain_start 0 ps)
                (chain_total 1 ps) (flat_map page_items ps) rest s1 Hlt)
      as (req & later & Hlater & Hm & Hu & _ & Hh).
    destruct (pages_loop _ _ _ _ _ _ _ _ _) as [[[res h'] inbox1] s2].
    cbn [snd] in *. unfold save. rewrite trace_save, Hlater, Htrace.
    exists later, (sent ++ [EvRequest req])%list. split.
    + rewrite rev_app_distr. reflexivity.
    + rewrite map_app, Hlines, <- starts_during_snoc, map_app. f_equal.
      cbn [map]. unfold request_line, window_request.
      rewrite Hm, Hu, Hh. unfold with_range, range_header.
      rewrite lookup_insert_eq. reflexivity.
  - intros final last rest (Hok & Hbody & Hhdr) Hlast.
    destruct (Hchain (final :: rest)) as (h1 & s1 & sent & Hrun & Hlt & Htrace & Hlines).
    rewrite (request_get_pages_plain url given unit ipr _ s token Htoken). cbv zeta.
    fold h save. rewrite Hrun. rewrite pages_loop_cons by exact Hlt. cbv zeta.
    unfold response_json. rewrite Hok, Hbody. cbn [rbind extend]. rewrite Hhdr.
    cbn [rbind]. rewrite parse_content_range_ok, pages_loop_done by lia.
    destruct (request_line_page_sent url unit ipr (chain_start 0 ps) h1 s1)
      as (ev & Hev & Hline).
    eexists _, (sent ++ [ev])%list. split; [reflexivity|]. split.
    + unfold save. rewrite trace_save, Hev, Htrace, rev_app_distr. reflexivity.
    + rewrite map_app, Hlines, <- starts_during_snoc, map_app. f_equal.
      cbn [map]. now rewrite Hline.
  - intros tournament_id stage_id group_id round_nums. repeat split.
Qed.

Lemma paginated_fetch_witness :
  exists s',
    get_ranking "T" "S" "G"
      [sample_page "items" 0 1 3 [JInt 1; JInt 2]; sample_page "items" 2 2 3 [JInt 3];
       sample_page "items" 0 0 1 [JInt 4]]
      (sample_state 0 [])
    = (Ok [JInt 1; JInt 2; JInt 3], [sample_page "items" 0 0 1 [JInt 4]], s') /\
    map request_line (rev (trace s'))
    = [Some ("GET",
             "https://api.toornament.com/viewer/v2/tournaments/T/stages/S/ranking-items?group_ids=G",
             Some (pstr "items=0-49"));
       Some ("GET",
             "https://api.toornament.com/viewer/v2/tournaments/T/stages/S/ranking-items?group_ids=G",
             Some (pstr "items=2-51"))].
Proof.
  destruct (paginated_fetch_follows_content_range
              "https://api.toornament.com/viewer/v2/tournaments/T/stages/S/ranking-items?group_ids=G"
              None "items" 50 (pstr "key")
              [sample_page "items" 0 1 3 [JInt 1; JInt 2]]
              [{| page_items := [JInt 1; JInt 2]; page_first := 0; page_last := 1;
                  page_total := 3 |}]
              (sample_state 0 []) eq_refl
              ltac:(repeat constructor)
              ltac:(repeat constructor))
    as (_ & Hstop & _).
  destruct (Hstop (sample_page "items" 2 2 3 [JInt 3])
              {| page_items := [JInt 3]; page_first := 2; page_last := 2; page_total := 3 |}
              [sample_page "items" 0 0 1 [JInt 4]]
              ltac:(repeat split) ltac:(vm_compute; discriminate))
    as (s' & sent & Hrun & Htrace & Hlines).
  exists s'. split; [exact Hrun|].
  rewrite Htrace. cbn [sample_state trace]. rewrite app_nil_r, rev_involutive.
  exact Hlines.
Defined.

(** C2: the two ways a page can come without a content range.  A header
    that is there and is not a content range ends the fetch with the items
    so far, this page's among them.  A response without the header does
    not: the look-up of the header raises a [KeyError] and the items are
    lost. *)
Theorem missing_content_range_raises :
  fst (fst (get_ranking "T" "S" "G"
    [sample_page "items" 0 1 4 [JInt 1; JInt 2]; odd_page "items */4" [JInt 3]]
    (sample_state 0 [])))
  = Ok [JInt 1; JInt 2; JInt 3] /\
  fst (fst (get_ranking "T" "S" "G"
    [sample_page "items" 0 1 4 [JInt 1; JInt 2]; headerless_page [JInt 3]]
    (sample_state 0 [])))
  = Raise KeyError.
Proof. split; vm_compute; reflexivity. Qed.
(** ** The rate limiter *)

(** *** States with the same limiter *)

Lemma same_limiter_refl s : same_limiter s s.
Proof. repeat split. Qed.

Lemma same_limiter_trans s1 s2 s3 : same_limiter s1 s2 -> same_limiter s2 s3 -> same_limiter s1 s3.
Proof. unfold same_limiter. intros (? & ? & ?) (? & ? & ?). repeat split; congruence. Qed.

Lemma rate_limited_same_limiter s s' : same_limiter s s' -> rate_limited s -> rate_limited s'.
Proof.
  unfold same_limiter, rate_limited. intros (Hc & Ht & Hr) (H1 & H2 & H3).
  rewrite Hc, Ht, Hr. auto.
Qed.

Lemma quiet_bind {A B} (m : St A) (k : A -> St B) :
  quiet m -> (forall a, quiet (k a)) -> quiet (bind m k).
Proof.
  intros Hm Hk s. unfold bind. specialize (Hm s).
  destruct (m s) as [[a|e] s1]; cbn [snd] in *; [|exact Hm].
  eapply same_limiter_trans; [exact Hm|apply Hk].
Qed.

Lemma quiet_ret {A} (a : A) : quiet (ret a).
Proof. intros s. apply same_limiter_refl. Qed.

Lemma quiet_lift_result {A} (r : result A) : quiet (lift_result r).
Proof. intros s. apply same_limiter_refl. Qed.

Lemma quiet_gets {A} (f : state -> A) : quiet (gets f).
Proof. intros s. apply same_limiter_refl. Qed.

Lemma quiet_modify f : (forall s, same_limiter s (f s)) -> quiet (modify f).
Proof. intros H s. apply H. Qed.

Lemma quiet_now : quiet now.
Proof. intros s. unfold now. destruct (ticks s); repeat split. Qed.

Lemma quiet_credential key : quiet (credential key).
Proof. intros s. apply same_limiter_refl. Qed.

Lemma quiet_set_credential key v : quiet (set_credential key v).
Proof. intros s. repeat split. Qed.

Lemma quiet_write_json path d : quiet (write_json path d).
Proof. intros s. unfold write_json. destruct (json_dump d); repeat split. Qed.

Create HintDb quiet.
#[local] Hint Resolve quiet_ret quiet_lift_result quiet_gets quiet_now
  quiet_credential quiet_set_credential quiet_write_json : quiet.

Ltac quiet_tac :=
  repeat first
    [ apply quiet_bind; [|intros ?; cbv beta]
    | solve [auto with quiet]
    | match goal with |- quiet (match ?x with _ => _ end) => destruct x end
    | apply quiet_modify; intros ?; repeat split ].

Lemma quiet_update_api_credentials response : quiet (update_api_credentials response).
Proof. unfold update_api_credentials. quiet_tac. Qed.

Lemma quiet_has_api_token_expired : quiet has_api_token_expired.
Proof. unfold has_api_token_expired. quiet_tac. Qed.

Lemma quiet_load_api_credentials : quiet load_api_credentials.
Proof. unfold load_api_credentials. quiet_tac. Qed.

(** *** Code that keeps the invariant *)

Lemma keeps_nbind {A B} (m : Net A) (k : A -> Net B) :
  keeps m -> (forall a, keeps (k a)) -> keeps (nbind m k).
Proof.
  intros Hm Hk inbox s Hs. unfold nbind. specialize (Hm inbox s Hs).
  destruct (m inbox s) as [[[a|e] inbox1] s1]; cbn [snd] in *; [|exact Hm].
  now apply Hk.
Qed.

Lemma keeps_nret {A} (a : A) : keeps (nret a).
Proof. intros inbox s Hs. exact Hs. Qed.

Lemma keeps_nraise {A} e : keeps (@nraise A e).
Proof. intros inbox s Hs. exact Hs. Qed.

Lemma keeps_lift {A} (m : St A) : quiet m -> keeps (lift m).
Proof.
  intros Hm inbox s Hs. unfold lift. specialize (Hm s).
  destruct (m s) as [r s1]. cbn [snd] in *. eapply rate_limited_same_limiter; eauto.
Qed.

(** The limiter and the request that follows it. *)
Lemma rate_limited_send method url headers data s :
  rate_limited s ->
  rate_limited (log_request method url headers data (snd (respect_rate_limits s))).
Proof.
  intros (Htpr & Hsp & Hcd).
  destruct (respect_rate_limits_spec s) as (t & tk & -> & Hclk & Hcool).
  unfold rate_limited, log_request. cbn. rewrite Htpr. split; [reflexivity|].
  split; [split; [|exact Hsp]|].
  - destruct (request_times (trace s)) as [|t1 rest] eqn:Hrt; [exact I|].
    specialize (Hcd t1 eq_refl). lia.
  - intros t' [= <-]. unfold Datetime.milliseconds. lia.
Qed.

Lemma keeps_send {A} method url headers data (k : response -> Net A) :
  (forall r, keeps (k r)) ->
  keeps (_ <-- lift respect_rate_limits ;; response <-- requests_send method url headers data ;; k response).
Proof.
  intros Hk inbox s Hs. unfold nbind at 1. unfold lift.
  pose proof (rate_limited_send method url headers data s Hs) as Hsent.
  destruct (respect_rate_limits_spec s) as (t & tk & Heq & _).
  rewrite Heq in *. cbn [snd] in Hsent.
  unfold nbind, requests_send. destruct inbox as [|r inbox]; cbn [snd]; [exact Hsent|].
  now apply Hk.
Qed.

Lemma keeps_answer r : keeps (answer r).
Proof.
  unfold answer. destruct (ok r); [apply keeps_lift; auto with quiet|apply keeps_nraise].
Qed.

Lemma keeps_attach_headers check authorization save headers :
  keeps check -> (forall h s, same_limiter s (save h s)) ->
  keeps (attach_headers check authorization save headers).
Proof.
  intros Hcheck Hsave. unfold attach_headers.
  repeat first
    [ apply keeps_nbind; [|intros ?]
    | apply keeps_nret
    | apply keeps_lift; first [solve [auto with quiet] | apply quiet_modify; intros ?; apply Hsave]
    | exact Hcheck
    | match goal with |- keeps (if ?b then _ else _) => destruct b end ].
Qed.

Lemma keeps_request_post_with check url data headers authorization :
  keeps check -> keeps (request_post_with check url data headers authorization).
Proof.
  intros Hcheck. unfold request_post_with.
  apply keeps_nbind; [apply keeps_lift; auto with quiet|intros h].
  apply keeps_nbind.
  { apply keeps_attach_headers; [exact Hcheck|]. intros h' s. destruct headers; repeat split. }
  intros h'. apply keeps_send. intros r. apply keeps_answer.
Qed.

Lemma keeps_check_auth_token : keeps check_auth_token.
Proof.
  unfold check_auth_token.
  apply keeps_nbind; [apply keeps_lift, quiet_has_api_token_expired|intros [|]];
    [|apply keeps_nret].
  apply keeps_nbind; [apply keeps_lift; auto with quiet|intros cid].
  apply keeps_nbind; [apply keeps_lift; auto with quiet|intros cs].
  apply keeps_nbind; [apply keeps_request_post_with, keeps_nret|intros r].
  apply keeps_lift, quiet_update_api_credentials.
Qed.

Lemma keeps_request_post url data headers authorization :
  keeps (request_post url data headers authorization).
Proof. apply keeps_request_post_with, keeps_check_auth_token. Qed.

Lemma keeps_request_get url headers authorization :
  keeps (request_get url headers authorization).
Proof.
  unfold request_get.
  apply keeps_nbind; [apply keeps_lift; auto with quiet|intros h].
  apply keeps_nbind.
  { apply keeps_attach_headers; [apply keeps_check_auth_token|].
    intros h' s. destruct headers; repeat split. }
  intros h'. apply keeps_send. intros r. apply keeps_answer.
Qed.

Lemma rate_limited_pages_loop url unit ipr inbox :
  forall headers page_start total page_list s,
  rate_limited s ->
  rate_limited (snd (pages_loop url unit ipr headers page_start total page_list inbox s)).
Proof.
  induction inbox as [|r inbox IH]; intros headers page_start total page_list s Hs;
    (destruct (Z.lt_ge_cases page_start total) as [Hlt|Hge];
     [|rewrite pages_loop_done by lia; exact Hs]).
  - rewrite pages_loop_nil by exact Hlt. now apply rate_limited_send.
  - rewrite pages_loop_cons by exact Hlt. cbv zeta.
    pose proof (rate_limited_send "GET" url (with_range unit ipr page_start headers)
                  None s Hs) as Hsent.
    fold (page_sent url unit ipr page_start headers s) in Hsent.
    destruct (ok r); [|exact Hsent].
    destruct (let* body := response_json r in _) as [[pl [[[? last] tot]|]]|e];
      try exact Hsent.
    now apply IH.
Qed.

Lemma keeps_request_get_pages url headers authorization unit ipr :
  keeps (request_get_pages url headers authorization unit ipr).
Proof.
  unfold request_get_pages.
  apply keeps_nbind; [apply keeps_lift; auto with quiet|intros h].
  apply keeps_nbind.
  { apply keeps_attach_headers; [apply keeps_check_auth_token|].
    intros h' s. destruct headers; repeat split. }
  intros h' inbox s Hs.
  pose proof (rate_limited_pages_loop url unit ipr inbox h' 0 1 [] s Hs) as Hloop.
  destruct (pages_loop url unit ipr h' 0 1 [] inbox s) as [[[r h''] inbox'] s'].
  cbn [snd] in *. eapply rate_limited_same_limiter; [|exact Hloop].
  destruct headers; repeat split.
Qed.

Lemma keeps_get_tournament tournament_id : keeps (get_tournament tournament_id).
Proof.
  unfold get_tournament.
  apply keeps_nbind; [apply keeps_lift; auto with quiet|intros buffer].
  destruct (buffer !! tournament_id); [apply keeps_nret|].
  apply keeps_nbind; [apply keeps_request_get|intros tournament].
  apply keeps_nbind; [|intros _; apply keeps_nret].
  apply keeps_lift, quiet_modify. intros s. repeat split.
Qed.

Lemma keeps_get_group_info tournament_id group_name :
  keeps (get_group_info tournament_id group_name).
Proof.
  unfold get_group_info.
  apply keeps_nbind; [apply keeps_lift; auto with quiet|intros buffer].
  apply keeps_nbind.
  { destruct (buffer !! tournament_id); [apply keeps_nret|].
    apply keeps_nbind; [apply keeps_request_get_pages|intros groups].
    apply keeps_nbind; [|intros _; apply keeps_nret].
    apply keeps_lift, quiet_modify. intros s. repeat split. }
  intros groups.
  apply keeps_nbind; [apply keeps_lift; auto with quiet|intros [[i group]|]];
    [|apply keeps_nret].
  apply keeps_nbind; [|intros _; apply keeps_nret].
  apply keeps_lift, quiet_modify. intros s. repeat split.
Qed.

Lemma rate_limited_perform c inbox s :
  rate_limited s -> rate_limited (snd (perform c inbox s)).
Proof.
  intros Hs.
  assert (Hforget : forall A (m : Net A), keeps m -> rate_limited (snd (forget m inbox s))).
  { intros A m Hm. unfold forget. specialize (Hm inbox s Hs).
    destruct (m inbox s) as [[r inbox'] s']. exact Hm. }
  destruct c; cbn [perform]; apply Hforget;
    first [ apply keeps_request_get_pages | apply keeps_request_get
          | apply keeps_get_tournament | apply keeps_get_group_info ].
Qed.

Lemma rate_limited_perform_all cs : forall inbox s,
  rate_limited s -> rate_limited (snd (perform_all cs inbox s)).
Proof.
  induction cs as [|c cs IH]; intros inbox s Hs; cbn [perform_all]; [exact Hs|].
  pose proof (rate_limited_perform c inbox s Hs) as Hc.
  destruct (perform c inbox s) as [inbox' s']. now apply IH.
Qed.

Lemma rate_limited_init auth_path s :
  request_times (trace s) = [] -> rate_limited (snd (init auth_path s)).
Proof.
  intros Hnone. unfold init.
  assert (Hrest : quiet (_ <- load_api_credentials ;; _ <- modify (set_group_buffer ∅) ;;
                         modify (set_tournament_buffer ∅))).
  { quiet_tac. }
  unfold bind at 1. pose proof (quiet_now s) as Hnow.
  destruct (now s) as [[t|e] s1] eqn:Hnow_eq; cbn [snd] in Hnow.
  2:{ unfold now in Hnow_eq. destruct (ticks s); discriminate. }
  unfold bind at 1. unfold modify at 1.
  match goal with |- rate_limited (snd (?k ?s2)) =>
    eapply (rate_limited_same_limiter s2); [apply (Hrest s2)|] end.
  destruct Hnow as (_ & _ & Htr). unfold rate_limited. cbn.
  rewrite Htr, Hnone. repeat split. discriminate.
Qed.

(** C8: [__respect_rate_limits] lets its caller through no sooner than the
    cooldown and sets the next cooldown 333 ms after the time it let the
    caller through; every request method, with or without authorization,
    calls it before each of its requests (the pages and the token request
    among them), so that it keeps the invariant of the rate limiter; hence
    in every session of a new instance any two consecutive requests leave
    at least 333 ms apart. *)
Theorem requests_are_spaced :
  (forall s,
     let s' := snd (respect_rate_limits s) in
     api_cooldown s <= clock s' /\ clock s <= clock s' /\
     api_cooldown s' = clock s' + Datetime.milliseconds (time_per_request s)) /\
  (forall url data headers authorization,
     keeps (request_post url data headers authorization)) /\
  (forall url headers authorization, keeps (request_get url headers authorization)) /\
  (forall url headers authorization unit items_per_request,
     keeps (request_get_pages url headers authorization unit items_per_request)) /\
  keeps check_auth_token /\
  (forall auth_path s calls inbox,
     request_times (trace s) = [] ->
     spaced 333000
       (request_times (trace (snd (perform_all calls inbox (snd (init auth_path s))))))).
Proof.
  split.
  { intros s. destruct (respect_rate_limits_spec s) as (t & tk & -> & ? & ?).
    cbn. repeat split; lia. }
  split; [exact keeps_request_post|].
  split; [exact keeps_request_get|].
  split; [exact keeps_request_get_pages|].
  split; [exact keeps_check_auth_token|].
  intros auth_path s calls inbox Hnone.
  apply (rate_limited_perform_all calls inbox (snd (init auth_path s))).
  now apply rate_limited_init.
Qed.

Lemma requests_are_spaced_witness :
  spaced 333000
    (request_times (trace (snd (perform_all
       [GetRanking "T" "S" "G"; GetGroups "T"]
       [sample_page "items" 0 1 3 [JInt 1; JInt 2]; sample_page "items" 2 2 3 [JInt 3];
        sample_page "groups" 0 0 1 [JInt 4]]
       (snd (init "auth.json" (sample_world [0; 0; 7; 400000; 1]%N))))))).
Proof.
  destruct requests_are_spaced as (_ & _ & _ & _ & _ & Hsession).
  apply Hsession. reflexivity.
Defined.
(** ** The token *)

Lemma now_eq s : now s = (Ok (clock (after_tick s)), after_tick s).
Proof. unfold after_tick, now. destruct (ticks s); reflexivity. Qed.

Lemma credentials_after_tick s : credentials (after_tick s) = credentials s.
Proof. unfold after_tick, now. destruct (ticks s); reflexivity. Qed.

Lemma trace_after_tick s : trace (after_tick s) = trace s.
Proof. unfold after_tick, now. destruct (ticks s); reflexivity. Qed.

Lemma has_api_token_expired_eq s e :
  credentials s !! "auth_expiry" = Some (PDatetime e) ->
  has_api_token_expired s
  = (Ok (e <? clock (after_tick s) + Datetime.minutes 1), after_tick s).
Proof.
  intros He. unfold has_api_token_expired, bind. rewrite now_eq.
  unfold credential, Py.getitem. rewrite credentials_after_tick, He. reflexivity.
Qed.

Lemma json_dump_ok d :
  map_Forall (fun _ v => is_json v = true) d -> json_dump d = Ok (JDict (omap json_of d)).
Proof. intros H. unfold json_dump. destruct (decide _); [reflexivity|contradiction]. Qed.

Lemma json_credentials_with_token a ty sc creds :
  json_credentials creds -> json_credentials (with_token a ty sc creds).
Proof.
  intros H key v. unfold with_token.
  rewrite !lookup_insert. repeat case_decide; try (intros [= <-]; reflexivity).
  apply H.
Qed.

Lemma in_file_all_json creds text :
  json_credentials creds ->
  map_Forall (fun _ v => is_json v = true) (<["auth_expiry" := pstr text]> creds).
Proof.
  intros H key v. rewrite lookup_insert. case_decide; [intros [= <-]; reflexivity|].
  intros Hv. eapply H; eauto.
Qed.

Lemma credential_path_after_tick s : credential_path (after_tick s) = credential_path s.
Proof. unfold after_tick, now. destruct (ticks s); reflexivity. Qed.

Ltac st_simpl :=
  cbn [api_cooldown time_per_request credential_path credentials group_buffer
       tournament_buffer get_defaults post_defaults pages_defaults clock ticks
       disk trace set_api_cooldown set_credentials set_group_buffer
       set_tournament_buffer set_get_defaults set_post_defaults set_pages_defaults
       set_clock set_ticks set_disk set_trace log_request fst snd minus_ten] in *.

Lemma year_1000_nonneg : 0 <= year_1000.
Proof. vm_compute. discriminate. Qed.

Lemma add_in_range t delta :
  0 <= t + delta < max_timestamp -> Datetime.add t delta = Ok (t + delta).
Proof.
  intros H. unfold Datetime.add. change Datetime.end_of_time with max_timestamp. cbv zeta.
  destruct (Z.leb_spec 0 (t + delta)); [|lia].
  destruct (Z.ltb_spec (t + delta) max_timestamp); [reflexivity|lia].
Qed.

Lemma add_out_of_range t delta :
  ~ 0 <= t + delta < max_timestamp -> Datetime.add t delta = Raise OverflowError.
Proof.
  intros H. unfold Datetime.add. change Datetime.end_of_time with max_timestamp. cbv zeta.
  destruct (Z.leb_spec 0 (t + delta)); [|reflexivity].
  destruct (Z.ltb_spec (t + delta) max_timestamp); [lia|reflexivity].
Qed.

Lemma clock_after_update_tick a ty sc x s :
  clock (after_update a ty sc x s) = clock (after_tick s).
Proof.
  unfold after_update, after_tick, now.
  destruct s as [cd tpr path creds gb tb gd pd pgd clk tks dsk tr].
  destruct tks; reflexivity.
Qed.

Lemma update_api_credentials_eq body a ty sc x s :
  token_reply body a ty sc x -> json_credentials (credentials s) ->
  0 <= clock (after_tick s) + Datetime.seconds (x - 10) < max_timestamp ->
  update_api_credentials (JDict body) s = (Ok tt, after_update a ty sc x s).
Proof.
  intros (Ha & Hty & Hsc & Hx) Hjson Hrange.
  apply add_in_range in Hrange. revert Hrange. unfold after_tick, now.
  pose proof (fun text => json_dump_ok _ (in_file_all_json _ text
                (json_credentials_with_token a ty sc _ Hjson))) as Hdump.
  unfold with_token in Hdump.
  destruct s as [cd tpr path creds gb tb gd pd pgd clk tks dsk tr]. st_simpl.
  unfold update_api_credentials, after_update, after_tick, credential_file, with_token,
    bind, lift_result, subscript, Py.getitem, set_credential, modify, gets, write_json, now.
  rewrite Ha, Hty, Hsc, Hx. st_simpl.
  destruct tks; st_simpl; intros ->; st_simpl; rewrite Hdump; reflexivity.
Qed.

Lemma respect_rate_limits_ok s :
  respect_rate_limits s = (Ok tt, snd (respect_rate_limits s)).
Proof. destruct (respect_rate_limits_spec s) as (t & tk & -> & _). reflexivity. Qed.

Lemma credentials_respect_rate_limits s :
  credentials (snd (respect_rate_limits s)) = credentials s.
Proof. destruct (respect_rate_limits_spec s) as (t & tk & -> & _). reflexivity. Qed.

Lemma trace_respect_rate_limits s : trace (snd (respect_rate_limits s)) = trace s.
Proof. destruct (respect_rate_limits_spec s) as (t & tk & -> & _). reflexivity. Qed.

Lemma credential_path_respect_rate_limits s :
  credential_path (snd (respect_rate_limits s)) = credential_path s.
Proof. destruct (respect_rate_limits_spec s) as (t & tk & -> & _). reflexivity. Qed.

Lemma check_auth_token_fresh inbox s e :
  credentials s !! "auth_expiry" = Some (PDatetime e) ->
  clock (after_tick s) + Datetime.minutes 1 <= e ->
  check_auth_token inbox s = (Ok tt, inbox, after_tick s).
Proof.
  intros He Hfresh. unfold check_auth_token, nbind, lift.
  rewrite (has_api_token_expired_eq s e He).
  destruct (Z.ltb_spec e (clock (after_tick s) + Datetime.minutes 1)); [lia|].
  reflexivity.
Qed.

Lemma check_auth_token_stale r inbox s e cid cs tok body a ty sc x :
  credentials s !! "auth_expiry" = Some (PDatetime e) ->
  e < clock (after_tick s) + Datetime.minutes 1 ->
  credentials s !! "client_id" = Some cid ->
  credentials s !! "client_secret" = Some cs ->
  credentials s !! "token" = Some tok ->
  ok r = true -> resp_json r = Some (JDict body) ->
  token_reply body a ty sc x -> json_credentials (credentials s) ->
  0 <= token_handled cid cs tok s + Datetime.seconds (x - 10) < max_timestamp ->
  check_auth_token (r :: inbox) s
  = (Ok tt, inbox, after_update a ty sc x (token_requested cid cs tok s)).
Proof.
  intros He Hstale Hcid Hcs Htok Hok Hbody Hreply Hjson Hrange.
  unfold check_auth_token, nbind at 1, lift at 1.
  rewrite (has_api_token_expired_eq s e He).
  destruct (Z.ltb_spec e (clock (after_tick s) + Datetime.minutes 1)); [|lia].
  unfold nbind at 1, lift at 1, credential at 1, Py.getitem.
  rewrite credentials_after_tick, Hcid.
  unfold nbind at 1, lift at 1, credential at 1, Py.getitem.
  rewrite credentials_after_tick, Hcs.
  unfold request_post_with, attach_headers, answer, requests_send, response_json.
  unfold nbind, lift, gets, nret, credential, Py.getitem, modify. cbn [default].
  rewrite credentials_after_tick, Htok.
  rewrite respect_rate_limits_ok. rewrite Hok, Hbody. unfold lift_result.
  fold (token_form cid cs). fold (token_headers tok). fold (token_requested cid cs tok s).
  rewrite (update_api_credentials_eq body a ty sc x);
    [reflexivity|exact Hreply| |exact Hrange].
  unfold token_requested. st_simpl.
  now rewrite credentials_respect_rate_limits, credentials_after_tick.
Qed.

Lemma clock_after_update a ty sc x s :
  clock (after_update a ty sc x s)
  = clock (after_tick (set_credentials (with_token a ty sc (credentials s)) s)).
Proof. reflexivity. Qed.

Lemma credentials_after_update a ty sc x s :
  credentials (after_update a ty sc x s)
  = <["auth_expiry" := PDatetime (clock (after_update a ty sc x s) + Datetime.seconds (x - 10))]>
      (<["auth_expiry" := pstr (Datetime.strftime
            (clock (after_update a ty sc x s) + Datetime.seconds (x - 10)))]>
         (with_token a ty sc (credentials s))).
Proof. reflexivity. Qed.

Lemma trace_after_update a ty sc x s :
  trace (after_update a ty sc x s)
  = EvWrite (credential_path s)
      (credential_file (with_token a ty sc (credentials s))
         (clock (after_update a ty sc x s) + Datetime.seconds (x - 10)))
    :: trace s.
Proof. unfold after_update. st_simpl. rewrite trace_after_tick. reflexivity. Qed.

Lemma disk_after_update a ty sc x s :
  disk (after_update a ty sc x s) !! credential_path s
  = Some (Some (credential_file (with_token a ty sc (credentials s))
                  (clock (after_update a ty sc x s) + Datetime.seconds (x - 10)))).
Proof. unfold after_update. st_simpl. apply lookup_insert_eq. Qed.


Lemma credentials_token_requested cid cs tok s :
  credentials (token_requested cid cs tok s) = credentials s.
Proof.
  unfold token_requested. st_simpl.
  now rewrite credentials_respect_rate_limits, credentials_after_tick.
Qed.

Lemma trace_token_requested cid cs tok s :
  exists post,
    trace (token_requested cid cs tok s) = EvRequest post :: trace s /\
    req_method post = "POST" /\ req_url post = token_url /\
    req_data post = Some (token_form cid cs) /\
    req_headers post = token_headers tok.
Proof.
  unfold token_requested. st_simpl.
  rewrite trace_respect_rate_limits, trace_after_tick. eexists. repeat split.
Qed.

Lemma credential_path_token_requested cid cs tok s :
  credential_path (token_requested cid cs tok s) = credential_path s.
Proof.
  unfold token_requested. st_simpl.
  now rewrite credential_path_respect_rate_limits, credential_path_after_tick.
Qed.

Lemma credential_file_lookup creds e key v :
  key <> "auth_expiry" -> creds !! key = Some (PJson v) ->
  exists d, credential_file creds e = JDict d /\ d !! key = Some v /\
            d !! "auth_expiry" = Some (JStr (Datetime.strftime e)).
Proof.
  intros Hkey Hv. eexists. split; [reflexivity|].
  rewrite !lookup_omap, lookup_insert_ne, Hv, lookup_insert_eq by congruence.
  split; reflexivity.
Qed.

(** Once the token has been replaced, the headers of the call carry the
    new token; [save] stands for what the method does with its dictionary. *)
Lemma attach_headers_refreshed save h r inbox s e cid cs tok body a ty sc x :
  (forall h0 s0, credentials (save h0 s0) = credentials s0 /\
                 trace (save h0 s0) = trace s0) ->
  credentials s !! "auth_expiry" = Some (PDatetime e) ->
  e < clock (after_tick s) + Datetime.minutes 1 ->
  credentials s !! "client_id" = Some cid ->
  credentials s !! "client_secret" = Some cs ->
  credentials s !! "token" = Some tok ->
  ok r = true -> resp_json r = Some (JDict body) ->
  token_reply body a ty sc x -> json_credentials (credentials s) ->
  0 <= token_handled cid cs tok s + Datetime.seconds (x - 10) < max_timestamp ->
  exists h' s2,
    attach_headers check_auth_token true save h (r :: inbox) s = (Ok h', inbox, s2) /\
    h' !! "Authorization" = Some (PJson a) /\
    trace s2 = trace (after_update a ty sc x (token_requested cid cs tok s)).
Proof.
  intros Hsave He Hstale Hcid Hcs Htok Hok Hbody Hreply Hjson Hrange.
  set (s' := after_update a ty sc x (token_requested cid cs tok s)).
  assert (Hkey : credentials s' !! "auth_key" = Some (PJson a)).
  { unfold s'. rewrite credentials_after_update. unfold with_token.
    rewrite !lookup_insert_ne by congruence. apply lookup_insert_eq. }
  assert (Htoken : credentials s' !! "token" = Some tok).
  { unfold s'. rewrite credentials_after_update. unfold with_token.
    rewrite !lookup_insert_ne by congruence.
    now rewrite credentials_token_requested. }
  set (h1 := <["Authorization" := PJson a]> h).
  set (h2 := <["X-Api-Key" := tok]> h1).
  exists h2, (save h2 (save h1 s')). split; [|split].
  - unfold attach_headers. unfold nbind at 1. unfold nbind at 1.
    rewrite (check_auth_token_stale r inbox s e cid cs tok body a ty sc x) by assumption.
    fold s'. unfold nbind, lift, credential, Py.getitem, modify, nret.
    rewrite Hkey. fold h1. rewrite (proj1 (Hsave h1 s')), Htoken. reflexivity.
  - unfold h2, h1. rewrite lookup_insert_ne by congruence. apply lookup_insert_eq.
  - now rewrite !(proj2 (Hsave _ _)).
Qed.

Lemma trace_sent method url h data s :
  trace (log_request method url h data (snd (respect_rate_limits s)))
  = EvRequest {| req_method := method; req_url := url; req_headers := h;
                 req_data := data; req_time := clock (snd (respect_rate_limits s)) |}
    :: trace s.
Proof. unfold log_request. st_simpl. now rewrite trace_respect_rate_limits. Qed.

(** What a call sends once its headers are ready. *)
Lemma trace_send_answer method url h data inbox s :
  trace (snd ((_ <-- lift respect_rate_limits ;;
               response <-- requests_send method url h data ;;
               answer response) inbox s))
  = EvRequest {| req_method := method; req_url := url; req_headers := h;
                 req_data := data; req_time := clock (snd (respect_rate_limits s)) |}
    :: trace s.
Proof.
  unfold nbind at 1, lift at 1. rewrite respect_rate_limits_ok.
  unfold nbind, requests_send.
  destruct inbox as [|r2 rest]; cbn [snd]; [apply trace_sent|].
  unfold answer. destruct (ok r2); [|apply trace_sent].
  unfold lift, lift_result. cbn [snd]. apply trace_sent.
Qed.

Lemma request_get_sends url headers authorization inbox s h inbox' s' :
  attach_headers check_auth_token authorization
    (fun h => match headers with None => set_get_defaults h | Some _ => fun s => s end)
    (default (get_defaults s) headers) inbox s = (Ok h, inbox', s') ->
  exists get,
    trace (snd (request_get url headers authorization inbox s))
    = EvRequest get :: trace s' /\
    req_method get = "GET" /\ req_url get = url /\ req_headers get = h.
Proof.
  intros Hattach. unfold request_get. unfold nbind at 1, lift at 1, gets at 1.
  unfold nbind at 1. rewrite Hattach. rewrite trace_send_answer.
  eexists. split; [reflexivity|]. repeat split.
Qed.

Lemma request_post_sends url data headers authorization inbox s h inbox' s' :
  attach_headers check_auth_token authorization
    (fun h => match headers with None => set_post_defaults h | Some _ => fun s => s end)
    (default (post_defaults s) headers) inbox s = (Ok h, inbox', s') ->
  exists post,
    trace (snd (request_post url data headers authorization inbox s))
    = EvRequest post :: trace s' /\
    req_method post = "POST" /\ req_url post = url /\ req_headers post = h.
Proof.
  intros Hattach. unfold request_post, request_post_with.
  unfold nbind at 1, lift at 1, gets at 1.
  unfold nbind at 1. rewrite Hattach. rewrite trace_send_answer.
  eexists. split; [reflexivity|]. repeat split.
Qed.

Lemma request_get_pages_sends url headers authorization unit ipr inbox s h inbox' s' :
  attach_headers check_auth_token authorization
    (fun h => match headers with None => set_pages_defaults h | Some _ => fun s => s end)
    (default (pages_defaults s) headers) inbox s = (Ok h, inbox', s') ->
  exists page later,
    trace (snd (request_get_pages url headers authorization unit ipr inbox s))
    = (later ++ EvRequest page :: trace s')%list /\
    req_method page = "GET" /\ req_url page = url /\
    req_headers page = with_range unit ipr 0 h.
Proof.
  intros Hattach. unfold request_get_pages. unfold nbind at 1, lift at 1, gets at 1.
  unfold nbind at 1. rewrite Hattach.
  destruct (pages_loop_first_request url unit ipr h 0 1 [] inbox' s')
    as (page & later & Htrace & Hm & Hu & _ & Hh); [lia|].
  destruct (pages_loop url unit ipr h 0 1 [] inbox' s') as [[[res h'] inbox1] s1].
  cbn [snd] in *. exists page, later. repeat split; try assumption.
  rewrite <- Htrace. destruct headers; reflexivity.
Qed.

Lemma save_keeps (set_defaults : gmap string pyval -> state -> state)
    (headers : option (gmap string pyval)) :
  (forall h s, credentials (set_defaults h s) = credentials s /\
               trace (set_defaults h s) = trace s) ->
  forall h0 s0,
    credentials (match headers with None => set_defaults h0 | Some _ => fun s => s end s0)
    = credentials s0 /\
    trace (match headers with None => set_defaults h0 | Some _ => fun s => s end s0)
    = trace s0.
Proof. intros H h0 s0. destruct headers; [split; reflexivity|apply H]. Qed.

(** The later pages of a fetch go with the token the fetch started with.
    Here the token is good for 61 seconds when the fetch starts; the first
    page takes five seconds to come, and the request for the second page
    leaves with the same token and without a token request before it. *)
Lemma second_page_goes_unchecked :
  let '(_, _, s) :=
    request_get_pages "u" None true "items" 50
      [sample_page "items" 0 1 3 [JInt 1; JInt 2]; sample_page "items" 2 2 3 [JInt 3]]
      (sample_state 61000000 [0; 0; 0; 5000000; 0]%N) in
  map show_event (trace s)
  = [("GET", Some (pstr "old"), Some (pstr "items=2-51"), 5000000);
     ("GET", Some (pstr "old"), Some (pstr "items=0-49"), 0)] /\
  credentials s !! "auth_expiry" = Some (PDatetime (sample_time + 61000000)).
Proof. vm_compute. split; reflexivity. Qed.

(** C3: a request method that is called with authorization checks the
    token before its request leaves (shown for [__request_get],
    [__request_post] and [__request_get_pages]).  A token that expires 60
    seconds or more after the clock is read is kept, and nothing is sent.
    A token that expires sooner is replaced: exactly one POST with the
    client credentials goes to the token endpoint; the answer's token is
    stored; the stored expiry is the time the answer is handled plus
    [expires_in] less 10 seconds, which is 10 seconds before the expiry
    the answer reports; the credentials are written to the credential
    file; and only then does the request of the caller leave, with the new
    token.  The new expiry is taken to lie in the years 1000 to 9999,
    where it is a date that is written with four digits. *)
Theorem token_checked_before_call s e :
  credentials s !! "auth_expiry" = Some (PDatetime e) ->
  (clock (after_tick s) + Datetime.minutes 1 <= e ->
   forall inbox, check_auth_token inbox s = (Ok tt, inbox, after_tick s)) /\
  (e < clock (after_tick s) + Datetime.minutes 1 ->
   forall r inbox cid cs tok body a ty sc x,
     credentials s !! "client_id" = Some cid ->
     credentials s !! "client_secret" = Some cs ->
     credentials s !! "token" = Some tok ->
     ok r = true -> resp_json r = Some (JDict body) ->
     token_reply body a ty sc x -> json_credentials (credentials s) ->
     year_1000 <= token_handled cid cs tok s + Datetime.seconds (x - 10) < max_timestamp ->
     exists s' post file d,
       check_auth_token (r :: inbox) s = (Ok tt, inbox, s') /\
       trace s' = EvWrite (credential_path s) file :: EvRequest post :: trace s /\
       req_method post = "POST" /\ req_url post = token_url /\
       req_data post = Some (token_form cid cs) /\
       credentials s' !! "auth_key" = Some (PJson a) /\
       clock s' = token_handled cid cs tok s /\
       credentials s' !! "auth_expiry"
       = Some (PDatetime (clock s' + Datetime.seconds (x - 10))) /\
       clock s' + Datetime.seconds (x - 10) + Datetime.seconds 10
       = clock s' + Datetime.seconds x /\
       disk s' !! credential_path s = Some (Some file) /\
       file = JDict d /\ d !! "auth_key" = Some a /\
       d !! "auth_expiry"
       = Some (JStr (Datetime.strftime (clock s' + Datetime.seconds (x - 10)))) /\
       forall url headers,
         (exists get,
            trace (snd (request_get url headers true (r :: inbox) s))
            = EvRequest get :: trace s' /\
            req_method get = "GET" /\ req_url get = url /\
            req_headers get !! "Authorization" = Some (PJson a)) /\
         (forall data, exists post',
            trace (snd (request_post url data headers true (r :: inbox) s))
            = EvRequest post' :: trace s' /\
            req_method post' = "POST" /\ req_url post' = url /\
            req_headers post' !! "Authorization" = Some (PJson a)) /\
         (forall unit items_per_request, exists page later,
            trace (snd (request_get_pages url headers true unit items_per_request
                          (r :: inbox) s))
            = (later ++ EvRequest page :: trace s')%list /\
            req_method page = "GET" /\ req_url page = url /\
            req_headers page !! "Authorization" = Some (PJson a))).
Proof.
  intros He. split.
  { intros Hfresh inbox. now apply (check_auth_token_fresh inbox s e). }
  intros Hstale r inbox cid cs tok body a ty sc x Hcid Hcs Htok Hok Hbody Hreply Hjson
    Hyears.
  assert (Hrange : 0 <= token_handled cid cs tok s + Datetime.seconds (x - 10)
                   < max_timestamp) by (pose proof year_1000_nonneg; lia).
  set (s0 := token_requested cid cs tok s).
  set (s' := after_update a ty sc x s0).
  destruct (trace_token_requested cid cs tok s) as (post & Hpost & Hm & Hu & Hd & _).
  destruct (credential_file_lookup (with_token a ty sc (credentials s0))
              (clock s' + Datetime.seconds (x - 10)) "auth_key" a)
    as (d & Hfile & Hdkey & Hdexp); [congruence| |].
  { unfold with_token. rewrite !lookup_insert_ne by congruence. apply lookup_insert_eq. }
  exists s', post, (credential_file (with_token a ty sc (credentials s0))
                      (clock s' + Datetime.seconds (x - 10))), d.
  split; [now apply (check_auth_token_stale r inbox s e cid cs tok body a ty sc x)|].
  split.
  { unfold s'. rewrite trace_after_update. fold s'. unfold s0 at 1 3.
    now rewrite credential_path_token_requested, Hpost. }
  do 3 (split; [assumption|]).
  split.
  { unfold s'. rewrite credentials_after_update. unfold with_token.
    rewrite !lookup_insert_ne by congruence. apply lookup_insert_eq. }
  split; [apply clock_after_update_tick|].
  split.
  { unfold s'. rewrite credentials_after_update. apply lookup_insert_eq. }
  split; [unfold Datetime.seconds; lia|].
  split.
  { unfold s'. rewrite <- (credential_path_token_requested cid cs tok s).
    apply disk_after_update. }
  do 3 (split; [assumption|]).
  intros url headers.
  assert (Hattach : forall set_defaults h,
            (forall h0 s0, credentials (set_defaults h0 s0) = credentials s0 /\
                           trace (set_defaults h0 s0) = trace s0) ->
            exists h' s2,
              attach_headers check_auth_token true
                (fun h0 => match headers with
                           | None => set_defaults h0
                           | Some _ => fun s => s
                           end) h (r :: inbox) s = (Ok h', inbox, s2) /\
              h' !! "Authorization" = Some (PJson a) /\ trace s2 = trace s').
  { intros set_defaults h Hset.
    apply (attach_headers_refreshed _ h r inbox s e cid cs tok body a ty sc x);
      try assumption.
    apply save_keeps, Hset. }
  split; [|split].
  - destruct (Hattach set_get_defaults (default (get_defaults s) headers))
      as (h' & s2 & Hrun & Hauth & Htr); [split; reflexivity|].
    destruct (request_get_sends url headers true _ s _ _ _ Hrun)
      as (get & Hget & Hgm & Hgu & Hgh).
    exists get. rewrite Hget, Htr, Hgh. repeat split; assumption.
  - intros data.
    destruct (Hattach set_post_defaults (default (post_defaults s) headers))
      as (h' & s2 & Hrun & Hauth & Htr); [split; reflexivity|].
    destruct (request_post_sends url data headers true _ s _ _ _ Hrun)
      as (post' & Hpost' & Hpm & Hpu & Hph).
    exists post'. rewrite Hpost', Htr, Hph. repeat split; assumption.
  - intros unit ipr.
    destruct (Hattach set_pages_defaults (default (pages_defaults s) headers))
      as (h' & s2 & Hrun & Hauth & Htr); [split; reflexivity|].
    destruct (request_get_pages_sends url headers true unit ipr _ s _ _ _ Hrun)
      as (page & later & Hpage & Hgm & Hgu & Hgh).
    exists page, later. rewrite Hpage, Htr, Hgh. repeat split; try assumption.
    unfold with_range. rewrite lookup_insert_ne by congruence. exact Hauth.
Qed.

Lemma sample_credentials_json valid_for : json_credentials (sample_credentials valid_for).
Proof.
  intros key v. unfold sample_credentials. rewrite !lookup_insert.
  repeat case_decide; try (intros [= <-]; reflexivity); try congruence.
Qed.

Lemma token_checked_witness :
  exists s',
    check_auth_token [token_response 3600] (sample_state 30000000 []) = (Ok tt, [], s') /\
    credentials s' !! "auth_key" = Some (pstr "new").
Proof.
  destruct (token_checked_before_call (sample_state 30000000 [])
              (sample_time + 30000000) eq_refl) as [_ Hstale].
  destruct (Hstale ltac:(vm_compute; reflexivity) (token_response 3600) []
              (pstr "id") (pstr "secret") (pstr "key") (token_body 3600)
              (JStr "new") (JStr "bearer") (JStr "organizer:result") 3600
              eq_refl eq_refl eq_refl eq_refl eq_refl
              ltac:(repeat split) (sample_credentials_json 30000000)
              ltac:(vm_compute; split; [discriminate|reflexivity]))
    as (s' & post & file & d & Hrun & _ & _ & _ & _ & Hkey & _).
  exists s'. split; assumption.
Defined.

(** ** The credential file *)


(** ** More of the client: the buffers, the failures and the headers *)

Lemma request_get_plain url given inbox s token :
  credentials s !! "token" = Some token ->
  request_get url given false inbox s =
  let save h := match given with None => set_get_defaults h | Some _ => fun s => s end in
  let h := <["X-Api-Key" := token]> (default (get_defaults s) given) in
  let s1 := log_request "GET" url h None (snd (respect_rate_limits (save h s))) in
  match inbox with
  | [] => (Raise ConnectionError, [], s1)
  | r :: inbox =>
      if ok r then (response_json r, inbox, s1)
      else (Raise (HTTPError (status_code r)), inbox, s1)
  end.
Proof.
  intros Htoken. unfold request_get, attach_headers.
  unfold nbind, lift, gets, nret, credential, Py.getitem, modify.
  rewrite Htoken. cbv zeta.
  rewrite respect_rate_limits_ok. unfold requests_send.
  destruct inbox as [|r inbox]; [reflexivity|].
  unfold answer. destruct (ok r); [|reflexivity].
  unfold lift, lift_result. reflexivity.
Qed.

Lemma tournament_buffer_sent method url h data s :
  tournament_buffer (log_request method url h data (snd (respect_rate_limits s)))
  = tournament_buffer s.
Proof.
  destruct (respect_rate_limits_spec s) as (t & ticks' & -> & _). reflexivity.
Qed.

Lemma get_tournament_hit tournament_id tournament inbox s :
  tournament_buffer s !! tournament_id = Some tournament ->
  get_tournament tournament_id inbox s = (Ok tournament, inbox, s).
Proof.
  intros Hhit. unfold get_tournament, nbind, lift, gets, nret. rewrite Hhit. reflexivity.
Qed.

Lemma get_tournament_miss tournament_id inbox s :
  tournament_buffer s !! tournament_id = None ->
  get_tournament tournament_id inbox s =
  match request_get (tournaments_url +:+ tournament_id) None false inbox s with
  | (Ok tournament, inbox', s') =>
      (Ok tournament, inbox',
       set_tournament_buffer (<[tournament_id := tournament]> (tournament_buffer s')) s')
  | (Raise e, inbox', s') => (Raise e, inbox', s')
  end.
Proof.
  intros Hmiss. unfold get_tournament. unfold nbind at 1, lift at 1, gets at 1.
  rewrite Hmiss. unfold nbind, lift, modify, nret.
  destruct (request_get _ _ _ _ _) as [[[t|e] inbox'] s']; reflexivity.
Qed.

(** X1: [get_tournament] asks the platform once for each tournament.  On
    a tournament that is not in the buffer it sends one GET to the URL of
    the tournament; on a successful answer the tournament is returned and
    every later call for it returns the same value without a request and
    without a change of state; a call that raises leaves the buffer as it
    was, and a refused request raises the [HTTPError] of its status. *)
Theorem get_tournament_cached tournament_id r inbox s token :
  tournament_buffer s !! tournament_id = None ->
  credentials s !! "token" = Some token ->
  let run := get_tournament tournament_id (r :: inbox) s in
  (forall tournament,
     ok r = true -> resp_json r = Some tournament ->
     exists s' get,
       run = (Ok tournament, inbox, s') /\
       trace s' = EvRequest get :: trace s /\
       req_method get = "GET" /\
       req_url get = tournaments_url +:+ tournament_id /\
       forall inbox', get_tournament tournament_id inbox' s' = (Ok tournament, inbox', s')) /\
  (forall e inbox' s',
     run = (Raise e, inbox', s') ->
     tournament_buffer s' = tournament_buffer s /\
     (ok r = false -> e = HTTPError (status_code r))).
Proof.
  intros Hmiss Htoken run. subst run.
  rewrite (get_tournament_miss _ _ _ Hmiss).
  rewrite (request_get_plain _ None (r :: inbox) s token Htoken).
  cbv zeta. split.
  - intros tournament Hok Hjson. rewrite Hok. unfold response_json. rewrite Hjson.
    eexists _, _. split; [reflexivity|]. split.
    + cbn [trace set_tournament_buffer log_request set_trace].
      rewrite trace_respect_rate_limits. reflexivity.
    + split; [reflexivity|]. split; [reflexivity|].
      intros inbox'. apply get_tournament_hit.
      cbn [tournament_buffer set_tournament_buffer]. apply lookup_insert_eq.
  - intros e inbox' s'. destruct (ok r).
    + unfold response_json. destruct (resp_json r) as [j|].
      * intros [=].
      * intros [= <- <- <-]. split; [|intros [=]].
        rewrite tournament_buffer_sent. reflexivity.
    + intros [= <- <- <-]. split; [|reflexivity].
      rewrite tournament_buffer_sent. reflexivity.
Qed.

Lemma get_tournament_cached_witness :
  exists s',
    get_tournament "T" [tournament_page] (sample_state 0 [])
    = (Ok (JDict {[ "name" := JStr "Cup" ]}), [], s') /\
    get_tournament "T" [] s' = (Ok (JDict {[ "name" := JStr "Cup" ]}), [], s').
Proof.
  destruct (get_tournament_cached "T" tournament_page [] (sample_state 0 []) (pstr "key")
              eq_refl eq_refl) as [Hok _].
  destruct (Hok (JDict {[ "name" := JStr "Cup" ]}) eq_refl eq_refl)
    as (s' & get & Hrun & _ & _ & _ & Hagain).
  exists s'. split; [exact Hrun|apply Hagain].
Defined.

Lemma find_group_first before group after group_name tournament_id : forall i,
  forallb (named_otherwise group_name) before = true ->
  named group_name group = true ->
  find_group (before ++ group :: after) group_name tournament_id i
  = Ok (Some ((i + List.length before)%nat, annotated tournament_id group)).
Proof.
  induction before as [|g before IH]; intros i Hbefore Hnamed.
  - cbn [app find_group length]. destruct group as [| | | | |d]; try discriminate.
    cbn [named] in Hnamed. cbn [subscript]. unfold Py.getitem.
    destruct (d !! "name") as [[| | |n| |]|]; try discriminate.
    cbn [rbind]. cbn [PyJson.eq_str] in Hnamed. rewrite Hnamed.
    rewrite Nat.add_0_r. reflexivity.
  - cbn [forallb] in Hbefore. apply andb_prop in Hbefore as [Hg Hbefore].
    cbn [app find_group length]. destruct g as [| | | | |d']; try discriminate.
    cbn [named_otherwise] in Hg. cbn [subscript]. unfold Py.getitem.
    destruct (d' !! "name") as [n|]; try discriminate. cbn [rbind].
    rewrite (IH (S i) Hbefore Hnamed).
    replace (S i + List.length before)%nat with (i + S (List.length before))%nat by lia.
    destruct n as [| | |n| |]; try reflexivity.
    cbn [PyJson.eq_str] in Hg. apply negb_true_iff in Hg. rewrite Hg. reflexivity.
Qed.

Lemma find_group_none groups group_name tournament_id : forall i,
  forallb (named_otherwise group_name) groups = true ->
  find_group groups group_name tournament_id i = Ok None.
Proof.
  induction groups as [|g groups IH]; intros i Hall; [reflexivity|].
  cbn [forallb] in Hall. apply andb_prop in Hall as [Hg Hall].
  cbn [find_group]. destruct g as [| | | | |d']; try discriminate.
  cbn [named_otherwise] in Hg. cbn [subscript]. unfold Py.getitem.
  destruct (d' !! "name") as [n|]; try discriminate. cbn [rbind].
  rewrite (IH (S i) Hall).
  destruct n as [| | |n| |]; try reflexivity.
  cbn [PyJson.eq_str] in Hg. apply negb_true_iff in Hg. rewrite Hg. reflexivity.
Qed.

Lemma named_annotated group_name tournament_id group :
  named group_name (annotated tournament_id group) = named group_name group.
Proof.
  destruct group as [| | | | |d]; try reflexivity.
  cbn [annotated named]. rewrite lookup_insert_ne by discriminate. reflexivity.
Qed.

Lemma annotated_twice tournament_id group :
  annotated tournament_id (annotated tournament_id group) = annotated tournament_id group.
Proof.
  destruct group as [| | | | |d]; try reflexivity.
  cbn [annotated]. f_equal. apply insert_insert_eq.
Qed.

Lemma set_group_buffer_same s : set_group_buffer (group_buffer s) s = s.
Proof. destruct s. reflexivity. Qed.

Lemma get_group_info_hit tournament_id group_name groups inbox s :
  group_buffer s !! tournament_id = Some groups ->
  get_group_info tournament_id group_name inbox s =
  match find_group groups group_name tournament_id 0 with
  | Ok (Some (i, group)) =>
      (Ok (Some group), inbox,
       set_group_buffer (<[tournament_id := <[i := group]> groups]> (group_buffer s)) s)
  | Ok None => (Ok None, inbox, s)
  | Raise e => (Raise e, inbox, s)
  end.
Proof.
  intros Hhit. unfold get_group_info. unfold nbind at 1, lift at 1, gets at 1.
  rewrite Hhit. unfold nbind, nret, lift, lift_result, modify.
  destruct (find_group _ _ _ _) as [[[i group]|]|e]; reflexivity.
Qed.

Lemma get_group_info_miss tournament_id group_name inbox s :
  group_buffer s !! tournament_id = None ->
  get_group_info tournament_id group_name inbox s =
  match get_groups tournament_id inbox s with
  | (Ok groups, inbox', s') =>
      get_group_info tournament_id group_name inbox'
        (set_group_buffer (<[tournament_id := groups]> (group_buffer s')) s')
  | (Raise e, inbox', s') => (Raise e, inbox', s')
  end.
Proof.
  intros Hmiss. unfold get_group_info at 1.
  unfold nbind, lift, gets, modify, nret, lift_result. rewrite Hmiss.
  destruct (get_groups _ _ _) as [[[groups|e] inbox'] s']; [|reflexivity].
  rewrite (get_group_info_hit tournament_id group_name groups).
  2:{ cbn [group_buffer set_group_buffer]. apply lookup_insert_eq. }
  destruct (find_group _ _ _ _) as [[[i group]|]|e]; reflexivity.
Qed.

Lemma insert_middle {A} (before : list A) x y after :
  <[List.length before := x]> (before ++ y :: after)%list = (before ++ x :: after)%list.
Proof.
  induction before as [|a before IH]; [reflexivity|].
  cbn [List.length app]. change (<[S (List.length before) := x]> (a :: (before ++ y :: after)%list))
    with (a :: <[List.length before := x]> (before ++ y :: after)%list).
  rewrite IH. reflexivity.
Qed.

(** X2: [get_group_info] gives the first group of the tournament that has
    the name asked for, with the tournament id written into it under
    [tournament_id]; the list of groups is fetched once, the buffer holds
    the group with its annotation, and a later call gives the same group
    without a request and without a change of state. *)
Theorem get_group_info_first tournament_id group_name before group after
    inbox s inbox1 s1 :
  group_buffer s !! tournament_id = None ->
  get_groups tournament_id inbox s = (Ok (before ++ group :: after)%list, inbox1, s1) ->
  forallb (named_otherwise group_name) before = true ->
  named group_name group = true ->
  exists d s',
    group = JDict d /\
    let found := JDict (<["tournament_id" := JStr tournament_id]> d) in
    get_group_info tournament_id group_name inbox s = (Ok (Some found), inbox1, s') /\
    group_buffer s' !! tournament_id = Some (before ++ found :: after)%list /\
    trace s' = trace s1 /\
    forall inbox',
      get_group_info tournament_id group_name inbox' s' = (Ok (Some found), inbox', s').
Proof.
  intros Hmiss Hgroups Hbefore Hnamed.
  destruct group as [| | | | |d]; try discriminate.
  exists d. eexists. split; [reflexivity|]. cbv zeta.
  change (JDict (<["tournament_id" := JStr tournament_id]> d))
    with (annotated tournament_id (JDict d)).
  rewrite (get_group_info_miss _ _ _ _ Hmiss), Hgroups.
  rewrite (get_group_info_hit _ _ (before ++ JDict d :: after)).
  2:{ cbn [group_buffer set_group_buffer]. apply lookup_insert_eq. }
  rewrite (find_group_first _ _ _ _ _ 0%nat Hbefore Hnamed).
  cbn [Nat.add]. rewrite insert_middle.
  split; [reflexivity|].
  cbn [group_buffer set_group_buffer trace]. rewrite lookup_insert_eq.
  split; [reflexivity|]. split; [reflexivity|].
  intros inbox'.
  rewrite (get_group_info_hit _ _ (before ++ annotated tournament_id (JDict d) :: after)).
  2:{ cbn [group_buffer set_group_buffer]. apply lookup_insert_eq. }
  rewrite (find_group_first _ _ _ _ _ 0%nat Hbefore).
  2:{ rewrite named_annotated. exact Hnamed. }
  cbn [Nat.add]. rewrite annotated_twice, insert_middle.
  cbn [group_buffer set_group_buffer]. rewrite insert_insert_eq. reflexivity.
Qed.

Lemma get_group_info_first_witness :
  exists group s',
    get_group_info "T" "The Vortex" [sample_page "groups" 0 1 2 sample_groups]
      (sample_state 0 [])
    = (Ok (Some group), [], s') /\
    subscript group "tournament_id" = Ok (JStr "T") /\
    subscript group "id" = Ok (JStr "2").
Proof.
  destruct (get_group_info_first "T" "The Vortex" [sample_group "Division 1" "1"]
              (sample_group "The Vortex" "2") []
              [sample_page "groups" 0 1 2 sample_groups] (sample_state 0 []) []
              (snd (get_groups "T" [sample_page "groups" 0 1 2 sample_groups]
                      (sample_state 0 [])))
              eq_refl ltac:(vm_compute; reflexivity) eq_refl eq_refl)
    as (d & s' & Hd & Hrun & _).
  injection Hd as <-. eexists _, s'. split; [exact Hrun|]. split; reflexivity.
Defined.

(** X3: when every group of the tournament has a name and none has the
    name asked for, [get_group_info] gives [None]; the list stays in the
    buffer, so a later call answers without a request. *)
Theorem get_group_info_absent tournament_id group_name groups inbox s inbox1 s1 :
  group_buffer s !! tournament_id = None ->
  get_groups tournament_id inbox s = (Ok groups, inbox1, s1) ->
  forallb (named_otherwise group_name) groups = true ->
  exists s',
    get_group_info tournament_id group_name inbox s = (Ok None, inbox1, s') /\
    trace s' = trace s1 /\
    forall inbox', get_group_info tournament_id group_name inbox' s' = (Ok None, inbox', s').
Proof.
  intros Hmiss Hgroups Hall. eexists.
  rewrite (get_group_info_miss _ _ _ _ Hmiss), Hgroups.
  rewrite (get_group_info_hit _ _ groups).
  2:{ cbn [group_buffer set_group_buffer]. apply lookup_insert_eq. }
  rewrite (find_group_none _ _ _ _ Hall).
  split; [reflexivity|]. split; [reflexivity|]. intros inbox'.
  rewrite (get_group_info_hit _ _ groups).
  2:{ cbn [group_buffer set_group_buffer]. apply lookup_insert_eq. }
  rewrite (find_group_none _ _ _ _ Hall). reflexivity.
Qed.

Lemma get_group_info_absent_witness :
  exists s',
    get_group_info "T" "Division 9" [sample_page "groups" 0 1 2 sample_groups]
      (sample_state 0 [])
    = (Ok None, [], s') /\
    get_group_info "T" "Division 9" [] s' = (Ok None, [], s').
Proof.
  destruct (get_group_info_absent "T" "Division 9" sample_groups
              [sample_page "groups" 0 1 2 sample_groups] (sample_state 0 []) []
              (snd (get_groups "T" [sample_page "groups" 0 1 2 sample_groups]
                      (sample_state 0 [])))
              eq_refl ltac:(vm_compute; reflexivity) eq_refl)
    as (s' & Hrun & _ & Hagain).
  exists s'. split; [exact Hrun|apply Hagain].
Defined.

Lemma plain_run_refl token s : unauthenticated s -> plain_run token s s.
Proof.
  intros Hs. split; [exists []; split; [reflexivity|constructor]|].
  repeat split; apply Hs.
Qed.

Lemma plain_run_trans token s1 s2 s3 :
  plain_run token s1 s2 -> plain_run token s2 s3 -> plain_run token s1 s3.
Proof.
  intros ((l1 & Ht1 & Hl1) & Hc1 & Hd1 & _) ((l2 & Ht2 & Hl2) & Hc2 & Hd2 & Hu).
  split; [|repeat split; try apply Hu; congruence].
  exists (l2 ++ l1)%list. split; [rewrite Ht2, Ht1, app_assoc; reflexivity|].
  apply Forall_app. split; assumption.
Qed.

Lemma plain_run_sent token url h s :
  h !! "X-Api-Key" = Some token -> h !! "Authorization" = None ->
  unauthenticated s ->
  plain_run token s (log_request "GET" url h None (snd (respect_rate_limits s))).
Proof.
  intros Hkey Hauth Hs.
  destruct (respect_rate_limits_spec s) as (t & ticks' & -> & _).
  split; [|repeat split; apply Hs].
  eexists [_]. split; [reflexivity|]. constructor; [|constructor].
  cbn. repeat split; assumption.
Qed.

Lemma pages_loop_plain token url unit ipr inbox :
  forall headers page_start total page_list s r h' inbox' s',
  headers !! "X-Api-Key" = Some token -> headers !! "Authorization" = None ->
  unauthenticated s ->
  pages_loop url unit ipr headers page_start total page_list inbox s = (r, h', inbox', s') ->
  plain_run token s s' /\ pages_defaults s' = pages_defaults s /\
  h' !! "Authorization" = None.
Proof.
  assert (Hsent : forall headers page_start s,
    headers !! "X-Api-Key" = Some token -> headers !! "Authorization" = None ->
    unauthenticated s ->
    plain_run token s (page_sent url unit ipr page_start headers s) /\
    pages_defaults (page_sent url unit ipr page_start headers s) = pages_defaults s /\
    with_range unit ipr page_start headers !! "X-Api-Key" = Some token /\
    with_range unit ipr page_start headers !! "Authorization" = None /\
    unauthenticated (page_sent url unit ipr page_start headers s)).
  { intros headers page_start s Hkey Hauth Hs.
    assert (Hkey' : with_range unit ipr page_start headers !! "X-Api-Key" = Some token).
    { unfold with_range. rewrite lookup_insert_ne by discriminate. exact Hkey. }
    assert (Hauth' : with_range unit ipr page_start headers !! "Authorization" = None).
    { unfold with_range. rewrite lookup_insert_ne by discriminate. exact Hauth. }
    pose proof (plain_run_sent token url _ s Hkey' Hauth' Hs) as Hrun.
    split; [exact Hrun|]. split.
    - unfold page_sent. destruct (respect_rate_limits_spec s) as (t & ticks' & -> & _).
      reflexivity.
    - repeat split; try assumption; apply Hrun. }
  induction inbox as [|resp inbox IH];
    intros headers page_start total page_list s r h' inbox' s' Hkey Hauth Hs;
    destruct (Z_lt_le_dec page_start total) as [Hlt|Hge].
  - rewrite pages_loop_nil by exact Hlt. intros [= <- <- <- <-].
    destruct (Hsent headers page_start s Hkey Hauth Hs) as (H1 & H2 & H3 & H4 & H5).
    auto.
  - rewrite pages_loop_done by exact Hge. intros [= <- <- <- <-].
    split; [apply plain_run_refl, Hs|]. auto.
  - rewrite pages_loop_cons by exact Hlt. cbv zeta.
    destruct (Hsent headers page_start s Hkey Hauth Hs) as (H1 & H2 & H3 & H4 & H5).
    destruct (ok resp); [|intros [= <- <- <- <-]; auto].
    destruct (let* body := response_json resp in _) as [[pl [[[f l] t]|]]|e].
    + intros Hloop. apply IH in Hloop as (Hrun & Hdef & Hh'); try assumption.
      split; [eapply plain_run_trans; eassumption|]. split; [congruence|assumption].
    + intros [= <- <- <- <-]. auto.
    + intros [= <- <- <- <-]. auto.
  - rewrite pages_loop_done by exact Hge. intros [= <- <- <- <-].
    split; [apply plain_run_refl, Hs|]. auto.
Qed.

Lemma request_get_pages_plain_run token url unit ipr inbox s :
  credentials s !! "token" = Some token -> unauthenticated s ->
  plain_run token s (snd (request_get_pages url None false unit ipr inbox s)).
Proof.
  intros Htoken Hs. rewrite (request_get_pages_plain _ None _ _ _ _ token Htoken).
  cbv zeta.
  set (h := <["X-Api-Key" := token]> (default (pages_defaults s) None)).
  assert (Hkey : h !! "X-Api-Key" = Some token) by apply lookup_insert_eq.
  assert (Hauth : h !! "Authorization" = None).
  { unfold h. rewrite lookup_insert_ne by discriminate. apply Hs. }
  assert (Hs1 : unauthenticated (set_pages_defaults h s)).
  { split; [apply Hs|exact Hauth]. }
  destruct (pages_loop _ _ _ _ _ _ _ _ _) as [[[r h'] inbox'] s'] eqn:Hloop.
  apply (pages_loop_plain token) in Hloop as (Hrun & _ & Hh'); try assumption.
  cbn [snd].
  destruct Hrun as (Htr & Hc & Hd & Hu1 & Hu2).
  split; [exact Htr|]. split; [exact Hc|]. split; [exact Hd|].
  split; [exact Hu1|exact Hh'].
Qed.

Lemma request_get_plain_run token url inbox s :
  credentials s !! "token" = Some token -> unauthenticated s ->
  plain_run token s (snd (request_get url None false inbox s)).
Proof.
  intros Htoken Hs. rewrite (request_get_plain _ None _ _ token Htoken). cbv zeta.
  set (h := <["X-Api-Key" := token]> (default (get_defaults s) None)).
  assert (Hkey : h !! "X-Api-Key" = Some token) by apply lookup_insert_eq.
  assert (Hauth : h !! "Authorization" = None).
  { unfold h. rewrite lookup_insert_ne by discriminate. apply Hs. }
  assert (Hs1 : unauthenticated (set_get_defaults h s)).
  { split; [exact Hauth|apply Hs]. }
  pose proof (plain_run_sent token url h _ Hkey Hauth Hs1) as Hrun.
  assert (Hgoal : plain_run token s
            (log_request "GET" url h None (snd (respect_rate_limits (set_get_defaults h s))))).
  { destruct Hrun as (Htr & Hc & Hd & Hu). split; [exact Htr|]. auto. }
  destruct inbox as [|r inbox]; [exact Hgoal|].
  destruct (ok r); exact Hgoal.
Qed.

Lemma get_tournament_plain_run token tournament_id inbox s :
  credentials s !! "token" = Some token -> unauthenticated s ->
  plain_run token s (snd (get_tournament tournament_id inbox s)).
Proof.
  intros Htoken Hs.
  destruct (tournament_buffer s !! tournament_id) as [t|] eqn:Hbuf.
  - rewrite (get_tournament_hit _ _ _ _ Hbuf). apply plain_run_refl, Hs.
  - rewrite (get_tournament_miss _ _ _ Hbuf).
    pose proof (request_get_plain_run token (tournaments_url +:+ tournament_id) inbox s
                  Htoken Hs) as Hrun.
    destruct (request_get _ _ _ _ _) as [[[t|e] inbox'] s']; exact Hrun.
Qed.

Lemma get_group_info_plain_run token tournament_id group_name inbox s :
  credentials s !! "token" = Some token -> unauthenticated s ->
  plain_run token s (snd (get_group_info tournament_id group_name inbox s)).
Proof.
  intros Htoken Hs.
  assert (Hhit : forall groups inbox s0 s,
    plain_run token s0 s -> group_buffer s !! tournament_id = Some groups ->
    plain_run token s0 (snd (get_group_info tournament_id group_name inbox s))).
  { intros groups inbox0 s0 s1 Hrun Hbuf. rewrite (get_group_info_hit _ _ groups _ _ Hbuf).
    destruct (find_group _ _ _ _) as [[[i group]|]|e]; exact Hrun. }
  destruct (group_buffer s !! tournament_id) as [groups|] eqn:Hbuf.
  - apply (Hhit groups); [apply plain_run_refl, Hs|exact Hbuf].
  - rewrite (get_group_info_miss _ _ _ _ Hbuf).
    pose proof (request_get_pages_plain_run token
                  (tournaments_url +:+ tournament_id +:+ "/groups") "groups" 50 inbox s
                  Htoken Hs) as Hrun.
    change (request_get_pages _ None false "groups" 50 inbox s)
      with (get_groups tournament_id inbox s) in Hrun.
    destruct (get_groups _ _ _) as [[[groups|e] inbox'] s']; cbn [snd] in Hrun; [|exact Hrun].
    apply (Hhit groups); [exact Hrun|].
    cbn [group_buffer set_group_buffer]. apply lookup_insert_eq.
Qed.

Lemma perform_plain_run token c inbox s :
  credentials s !! "token" = Some token -> unauthenticated s ->
  plain_run token s (snd (perform c inbox s)).
Proof.
  intros Htoken Hs.
  assert (Hforget : forall A (m : Net A),
            plain_run token s (snd (m inbox s)) -> plain_run token s (snd (forget m inbox s))).
  { intros A m. unfold forget. destruct (m inbox s) as [[r inbox'] s']. exact (fun H => H). }
  destruct c; cbn [perform]; apply Hforget.
  - apply request_get_pages_plain_run; assumption.
  - apply request_get_pages_plain_run; assumption.
  - apply request_get_pages_plain_run; assumption.
  - apply request_get_plain_run; assumption.
  - apply get_tournament_plain_run; assumption.
  - apply get_group_info_plain_run; assumption.
Qed.

(** X4: the public methods never authenticate.  As long as the default
    header dictionaries hold no [Authorization], a session of calls of the
    public methods adds nothing to the trace but GET requests without a
    body that carry the API key and no [Authorization]; the token is
    neither checked nor refreshed, so the credentials and the files stay as
    they were. *)
Theorem public_methods_never_authenticate token calls : forall inbox s,
  credentials s !! "token" = Some token ->
  get_defaults s !! "Authorization" = None ->
  pages_defaults s !! "Authorization" = None ->
  let s' := snd (perform_all calls inbox s) in
  (exists later,
     trace s' = (later ++ trace s)%list /\ Forall (plain_get token) later) /\
  credentials s' = credentials s /\ disk s' = disk s.
Proof.
  intros inbox s Htoken Hg Hp.
  assert (Hrun : plain_run token s (snd (perform_all calls inbox s))).
  { assert (Hs : unauthenticated s) by (split; assumption). clear Hg Hp.
    assert (Hgen : forall s0, plain_run token s0 s ->
              plain_run token s0 (snd (perform_all calls inbox s))).
    { revert inbox s Htoken Hs.
      induction calls as [|c calls IH]; intros inbox s Htoken Hs s0 Hrun; [exact Hrun|].
      cbn [perform_all].
      pose proof (perform_plain_run token c inbox s Htoken Hs) as Hstep.
      destruct (perform c inbox s) as [inbox1 s1]. cbn [snd] in Hstep.
      apply IH.
      - destruct Hstep as (_ & -> & _). exact Htoken.
      - apply Hstep.
      - eapply plain_run_trans; eassumption. }
    apply Hgen, plain_run_refl, Hs. }
  destruct Hrun as (Htr & Hc & Hd & _). auto.
Qed.

Lemma public_methods_never_authenticate_witness :
  let s' := snd (perform_all [GetTournament "T"; GetRanking "T" "S" "G"]
                   [tournament_page; sample_page "items" 0 0 1 [JInt 1]]
                   (sample_state 0 [])) in
  credentials s' = credentials (sample_state 0 []) /\ disk s' = disk (sample_state 0 []).
Proof.
  apply (public_methods_never_authenticate (pstr "key")); reflexivity.
Defined.

Lemma disk_token_requested cid cs tok s : disk (token_requested cid cs tok s) = disk s.
Proof.
  unfold token_requested.
  destruct (respect_rate_limits_spec (after_tick s)) as (t & tk & -> & _).
  unfold after_tick, now. destruct (ticks s); reflexivity.
Qed.

Lemma check_auth_token_refused r inbox s e cid cs tok :
  credentials s !! "auth_expiry" = Some (PDatetime e) ->
  e < clock (after_tick s) + Datetime.minutes 1 ->
  credentials s !! "client_id" = Some cid ->
  credentials s !! "client_secret" = Some cs ->
  credentials s !! "token" = Some tok ->
  ok r = false ->
  check_auth_token (r :: inbox) s
  = (Raise (HTTPError (status_code r)), inbox, token_requested cid cs tok s).
Proof.
  intros He Hstale Hcid Hcs Htok Hok.
  unfold check_auth_token, nbind at 1, lift at 1.
  rewrite (has_api_token_expired_eq s e He).
  destruct (Z.ltb_spec e (clock (after_tick s) + Datetime.minutes 1)); [|lia].
  unfold nbind at 1, lift at 1, credential at 1, Py.getitem.
  rewrite credentials_after_tick, Hcid.
  unfold nbind at 1, lift at 1, credential at 1, Py.getitem.
  rewrite credentials_after_tick, Hcs.
  unfold request_post_with, attach_headers, answer, requests_send, response_json.
  unfold nbind, lift, gets, nret, nraise, credential, Py.getitem, modify. cbn [default].
  rewrite credentials_after_tick, Htok.
  rewrite respect_rate_limits_ok. rewrite Hok.
  reflexivity.
Qed.

(** X5: when the token has to be refreshed and the platform refuses the
    token request, a request method called with authorization raises the
    [HTTPError] of that status: the token request is the only request that
    leaves, the request of the caller is not sent, and the credentials and
    the files stay as they were. *)
Theorem refused_refresh_stops_the_call r inbox s e cid cs tok :
  credentials s !! "auth_expiry" = Some (PDatetime e) ->
  e < clock (after_tick s) + Datetime.minutes 1 ->
  credentials s !! "client_id" = Some cid ->
  credentials s !! "client_secret" = Some cs ->
  credentials s !! "token" = Some tok ->
  ok r = false ->
  exists s1 post,
    trace s1 = EvRequest post :: trace s /\
    req_method post = "POST" /\ req_url post = token_url /\
    credentials s1 = credentials s /\ disk s1 = disk s /\
    (forall url headers,
       request_get url headers true (r :: inbox) s
       = (Raise (HTTPError (status_code r)), inbox, s1)) /\
    (forall url data headers,
       request_post url data headers true (r :: inbox) s
       = (Raise (HTTPError (status_code r)), inbox, s1)) /\
    (forall url headers unit items_per_request,
       request_get_pages url headers true unit items_per_request (r :: inbox) s
       = (Raise (HTTPError (status_code r)), inbox, s1)).
Proof.
  intros He Hstale Hcid Hcs Htok Hok.
  pose proof (check_auth_token_refused r inbox s e cid cs tok He Hstale Hcid Hcs Htok Hok)
    as Hcheck.
  destruct (trace_token_requested cid cs tok s) as (post & Htrace & Hm & Hu & _).
  exists (token_requested cid cs tok s), post.
  split; [exact Htrace|]. split; [exact Hm|]. split; [exact Hu|].
  split; [apply credentials_token_requested|]. split; [apply disk_token_requested|].
  repeat split.
  - intros url headers. unfold request_get, attach_headers.
    unfold nbind at 1, lift at 1, gets at 1. unfold nbind at 1. unfold nbind at 1.
    unfold nbind at 1. rewrite Hcheck. reflexivity.
  - intros url data headers. unfold request_post, request_post_with, attach_headers.
    unfold nbind at 1, lift at 1, gets at 1. unfold nbind at 1. unfold nbind at 1.
    unfold nbind at 1. rewrite Hcheck. reflexivity.
  - intros url headers unit ipr. unfold request_get_pages, attach_headers.
    unfold nbind at 1, lift at 1, gets at 1. unfold nbind at 1. unfold nbind at 1.
    unfold nbind at 1. rewrite Hcheck. reflexivity.
Qed.

Lemma refused_refresh_witness :
  exists s1,
    request_get "u" None true [refusal] (sample_state 30000000 [])
    = (Raise (HTTPError 401), [], s1) /\
    credentials s1 = credentials (sample_state 30000000 []).
Proof.
  destruct (refused_refresh_stops_the_call refusal [] (sample_state 30000000 [])
              (sample_time + 30000000) (pstr "id") (pstr "secret") (pstr "key")
              eq_refl ltac:(vm_compute; reflexivity) eq_refl eq_refl eq_refl eq_refl)
    as (s1 & post & _ & _ & _ & Hcreds & _ & Hget & _).
  exists s1. split; [apply Hget|exact Hcreds].
Defined.

Lemma update_api_credentials_overflow body a ty sc x s :
  token_reply body a ty sc x ->
  ~ 0 <= clock (after_tick s) + Datetime.seconds (x - 10) < max_timestamp ->
  fst (update_api_credentials (JDict body) s) = Raise OverflowError.
Proof.
  intros (Ha & Hty & Hsc & Hx) Hrange.
  apply add_out_of_range in Hrange. revert Hrange. unfold after_tick, now.
  destruct s as [cd tpr path creds gb tb gd pd pgd clk tks dsk tr]. st_simpl.
  unfold update_api_credentials, bind, lift_result, subscript, Py.getitem,
    set_credential, modify, gets, write_json, now.
  rewrite Ha, Hty, Hsc, Hx. st_simpl.
  destruct tks; st_simpl; intros ->; reflexivity.
Qed.

(** X6: a token response at fault leaves the credential file alone.  When
    [__update_api_credentials] raises a [KeyError] (a field is missing), a
    [TypeError] (the response or its [expires_in] is not of the expected
    type) or an [OverflowError] (the new expiry is no date), nothing has
    been written and the stored expiry is the one of before; the fields
    read before the failure are replaced in memory all the same.  With the
    four fields in the response the failure is the [OverflowError], and
    the new expiry lies outside the years 1 to 9999. *)
Theorem failed_update_keeps_the_file response s e s' :
  json_credentials (credentials s) ->
  update_api_credentials response s = (Raise e, s') ->
  e = KeyError \/ e = TypeError \/ e = OverflowError ->
  disk s' = disk s /\ trace s' = trace s /\
  credentials s' !! "auth_expiry" = credentials s !! "auth_expiry" /\
  (forall body a ty sc x,
     response = JDict body -> token_reply body a ty sc x ->
     e = OverflowError /\
     ~ 0 <= clock (after_tick s) + Datetime.seconds (x - 10) < max_timestamp).
Proof.
  intros Hjson Hrun _.
  assert (Hfull : forall body a ty sc x,
            response = JDict body -> token_reply body a ty sc x ->
            e = OverflowError /\
            ~ 0 <= clock (after_tick s) + Datetime.seconds (x - 10) < max_timestamp).
  { intros body a ty sc x -> Hreply.
    assert (Hout : ~ 0 <= clock (after_tick s) + Datetime.seconds (x - 10) < max_timestamp).
    { intros Hin.
      rewrite (update_api_credentials_eq body a ty sc x s Hreply Hjson Hin) in Hrun.
      discriminate. }
    split; [|exact Hout].
    pose proof (update_api_credentials_overflow body a ty sc x s Hreply Hout) as Hover.
    rewrite Hrun in Hover. cbn [fst] in Hover. congruence. }
  cut (disk s' = disk s /\ trace s' = trace s /\
       credentials s' !! "auth_expiry" = credentials s !! "auth_expiry").
  { intros (Hd & Ht & Hc). auto. }
  clear Hfull. revert Hrun.
  destruct response as [| | | | |body];
    try (intros [= <- <-]; repeat split; reflexivity).
  destruct s as [cd tpr path creds gb tb gd pd pgd clk tks dsk tr]. st_simpl.
  unfold update_api_credentials, bind, lift_result, subscript, Py.getitem,
    set_credential, modify, gets, write_json, now.
  destruct (body !! "access_token") as [a|];
    [|intros [= <- <-]; repeat split; reflexivity].
  destruct (body !! "token_type") as [ty|]; st_simpl;
    [|intros [= <- <-]; st_simpl; rewrite lookup_insert_ne by discriminate;
      repeat split; reflexivity].
  destruct (body !! "scope") as [sc|]; st_simpl;
    [|intros [= <- <-]; st_simpl; rewrite !lookup_insert_ne by discriminate;
      repeat split; reflexivity].
  destruct (body !! "expires_in") as [x|]; st_simpl;
    [|intros [= <- <-]; st_simpl; rewrite !lookup_insert_ne by discriminate;
      repeat split; reflexivity].
  pose proof (fun text => json_dump_ok _ (in_file_all_json _ text
                (json_credentials_with_token a ty sc _ Hjson))) as Hdump.
  unfold with_token in Hdump.
  destruct tks as [|d tks]; st_simpl;
    (destruct x; st_simpl;
     try (intros [= <- <-]; st_simpl; rewrite !lookup_insert_ne by discriminate;
          repeat split; reflexivity);
     (match goal with
      | |- context [Datetime.add ?t ?delta] => destruct (Datetime.add t delta)
      end; st_simpl;
      [rewrite Hdump; intros [=]
      |intros [= <- <-]; st_simpl; rewrite !lookup_insert_ne by discriminate;
       repeat split; reflexivity])).
Qed.

Lemma failed_update_witness :
  let overflow := update_api_credentials (JDict (token_body 1000000000000))
                    (sample_state 0 []) in
  let missing := update_api_credentials token_without_expiry (sample_state 0 []) in
  fst overflow = Raise OverflowError /\ fst missing = Raise KeyError /\
  disk (snd overflow) = disk (sample_state 0 []) /\
  disk (snd missing) = disk (sample_state 0 []) /\
  credentials (snd overflow) !! "auth_expiry" = Some (PDatetime sample_time) /\
  credentials (snd missing) !! "auth_expiry" = Some (PDatetime sample_time) /\
  credentials (snd overflow) !! "auth_key" = Some (pstr "new").
Proof.
  destruct (failed_update_keeps_the_file (JDict (token_body 1000000000000))
              (sample_state 0 []) OverflowError
              (snd (update_api_credentials (JDict (token_body 1000000000000))
                      (sample_state 0 [])))
              (sample_credentials_json 0) ltac:(vm_compute; reflexivity)
              ltac:(right; right; reflexivity))
    as (Hdisk1 & _ & Hexpiry1 & _).
  destruct (failed_update_keeps_the_file token_without_expiry
              (sample_state 0 []) KeyError
              (snd (update_api_credentials token_without_expiry (sample_state 0 [])))
              (sample_credentials_json 0) ltac:(vm_compute; reflexivity)
              ltac:(left; reflexivity))
    as (Hdisk2 & _ & Hexpiry2 & _).
  cbv zeta.
  split; [vm_compute; reflexivity|]. split; [vm_compute; reflexivity|].
  split; [exact Hdisk1|]. split; [exact Hdisk2|].
  split; [rewrite Hexpiry1; reflexivity|].
  split; [rewrite Hexpiry2; reflexivity|reflexivity].
Defined.

Lemma pages_loop_stops_at_refusal url unit ipr inbox :
  forall headers page_start total page_list s r h' inbox' s',
  pages_loop url unit ipr headers page_start total page_list inbox s = (r, h', inbox', s') ->
  match r with
  | Ok _ => exists used, inbox = (used ++ inbox')%list /\ Forall answered used
  | Raise (HTTPError code) =>
      exists used refusal,
        inbox = (used ++ refusal :: inbox')%list /\ Forall answered used /\
        ok refusal = false /\ status_code refusal = code
  | Raise _ => True
  end.
Proof.
  induction inbox as [|resp inbox IH];
    intros headers page_start total page_list s r h' inbox' s';
    destruct (Z_lt_le_dec page_start total) as [Hlt|Hge].
  - rewrite pages_loop_nil by exact Hlt. intros [= <- <- <- <-]. exact I.
  - rewrite pages_loop_done by exact Hge. intros [= <- <- <- <-].
    exists []. split; [reflexivity|constructor].
  - rewrite pages_loop_cons by exact Hlt. cbv zeta.
    destruct (ok resp) eqn:Hok.
    + destruct (let* body := response_json resp in _) as [[pl [[[f l] t]|]]|e] eqn:Hpage.
      * intros Hloop. apply IH in Hloop.
        destruct r as [pages|[| | | | | | | |code]]; try exact I.
        -- destruct Hloop as (used & -> & Hused).
           exists (resp :: used). split; [reflexivity|]. constructor; assumption.
        -- destruct Hloop as (used & refusal & -> & Hused & Hrefusal).
           exists (resp :: used), refusal. split; [reflexivity|].
           split; [constructor; assumption|exact Hrefusal].
      * intros [= <- <- <- <-]. exists [resp]. split; [reflexivity|].
        constructor; [exact Hok|constructor].
      * intros [= <- <- <- <-].
        assert (He : forall code, e <> HTTPError code).
        { intros code ->. unfold response_json, header, Py.getitem in Hpage.
          destruct (resp_json resp) as [body|]; [|discriminate]. cbn [rbind] in Hpage.
          destruct (extend page_list body) as [pl|e] eqn:Hext.
          - cbn [rbind] in Hpage. destruct (resp_headers resp !! _); discriminate.
          - cbn [rbind] in Hpage. injection Hpage as ->. destruct body; discriminate. }
        destruct e; try exact I. exfalso. eapply He. reflexivity.
    + intros [= <- <- <- <-]. exists [], resp.
      split; [reflexivity|]. split; [constructor|]. split; [exact Hok|reflexivity].
  - rewrite pages_loop_done by exact Hge. intros [= <- <- <- <-].
    exists []. split; [reflexivity|constructor].
Qed.

(** X7: a paginated fetch is all or nothing.  If it returns, every
    response it used had a success status and the result is the items of
    these responses, in order; if it raises an [HTTPError], the status is
    that of the first refused response, the responses after it are not
    asked for, and the items of the pages before it are dropped. *)
Theorem paginated_fetch_is_all_or_nothing url given unit ipr inbox s r inbox' s' :
  request_get_pages url given false unit ipr inbox s = (r, inbox', s') ->
  match r with
  | Ok pages =>
      exists used,
        inbox = (used ++ inbox')%list /\ Forall answered used /\
        pages = flat_map items_of used
  | Raise (HTTPError code) =>
      exists used refusal,
        inbox = (used ++ refusal :: inbox')%list /\ Forall answered used /\
        ok refusal = false /\ status_code refusal = code
  | Raise _ => True
  end.
Proof.
  intros Hrun.
  assert (Hpages : forall pages, r = Ok pages ->
            exists used, inbox = (used ++ inbox')%list /\ pages = flat_map items_of used).
  { intros pages ->. eapply request_get_pages_concat. exact Hrun. }
  destruct (credentials s !! "token") as [token|] eqn:Htoken.
  - rewrite (request_get_pages_plain url given unit ipr inbox s token Htoken) in Hrun.
    cbv zeta in Hrun.
    destruct (pages_loop _ _ _ _ _ _ _ _ _) as [[[r1 h'] inbox1] s1] eqn:Hloop.
    injection Hrun as <- <- _. apply pages_loop_stops_at_refusal in Hloop.
    destruct r1 as [pages|e]; [|exact Hloop].
    destruct Hloop as (used & Hinbox & Hused).
    destruct (Hpages pages eq_refl) as (used' & Hinbox' & Hitems).
    assert (used' = used) as ->.
    { rewrite Hinbox in Hinbox'. apply app_inv_tail in Hinbox'. congruence. }
    exists used. auto.
  - unfold request_get_pages, attach_headers in Hrun.
    unfold nbind, lift, gets, nret, credential, Py.getitem in Hrun. rewrite Htoken in Hrun.
    injection Hrun as <- _ _. exact I.
Qed.

Lemma paginated_fetch_is_all_or_nothing_witness :
  exists used refused,
    [sample_page "items" 0 1 4 [JInt 1; JInt 2]; refusal] = (used ++ [refused])%list /\
    Forall answered used /\ ok refused = false /\ status_code refused = 401.
Proof.
  apply (paginated_fetch_is_all_or_nothing "u" None "items" 50
           [sample_page "items" 0 1 4 [JInt 1; JInt 2]; refusal] (sample_state 0 [])
           (Raise (HTTPError 401)) []
           (snd (request_get_pages "u" None false "items" 50
                   [sample_page "items" 0 1 4 [JInt 1; JInt 2]; refusal]
                   (sample_state 0 [])))).
  vm_compute. reflexivity.
Defined.
(** ** More of the rendering *)

Lemma hex_digit_facts c :
  is_hex_digit c = true ->
  Py.is_space c = false /\ Ascii.eqb c "#" = false /\ Ascii.eqb c "+" = false /\
  Ascii.eqb c "-" = false /\ Ascii.eqb c "x" = false /\ Ascii.eqb c "X" = false /\
  exists v, Py.hex_value c = Some v /\ 0 <= v < 16.
Proof.
  destruct c as [[] [] [] [] [] [] [] []]; vm_compute; intros H; try discriminate H;
    repeat (split; [reflexivity|]); eexists; (split; [reflexivity|]);
    (split; [discriminate|reflexivity]).
Qed.

Lemma int16_two_digits a b :
  is_hex_digit a = true -> is_hex_digit b = true ->
  Py.int16 (String a (String b "")) = Ok (16 * hex_digit a + hex_digit b).
Proof.
  intros Ha Hb.
  destruct (hex_digit_facts a Ha) as (Hsp & _ & Hplus & Hminus & _ & _ & va & Hva & _).
  destruct (hex_digit_facts b Hb) as (_ & _ & _ & _ & Hx & HX & vb & Hvb & _).
  unfold Py.int16, hex_digit. cbn [Py.skip_spaces]. rewrite Hsp.
  cbn [Py.skip_sign]. rewrite Hplus, Hminus.
  cbn [Py.skip_hex_prefix]. rewrite Hx, HX, andb_false_r.
  rewrite Hva. cbn [Py.scan_hex]. rewrite Hva, Hvb. cbn [Py.skip_spaces].
  f_equal. lia.
Qed.

Lemma rstrip_none ch s :
  all_chars (fun c => negb (Ascii.eqb c ch)) s = true -> Py.rstrip ch s = s.
Proof.
  induction s as [|c s IH]; [reflexivity|]. cbn [all_chars Py.rstrip].
  intros [Hc Hs]%andb_prop. rewrite (IH Hs).
  destruct s; [|reflexivity]. apply negb_true_iff in Hc. rewrite Hc. reflexivity.
Qed.

Lemma strip_colour_code s :
  colour_code_wf s = true ->
  Py.strip "#" s = colour_digits s /\ six_hex_digits (colour_digits s) = true.
Proof.
  assert (Hsix : forall t, six_hex_digits t = true -> Py.strip "#" t = t).
  { intros t [Hlen Hall]%andb_prop. unfold Py.strip.
    assert (Hl : Py.lstrip "#" t = t).
    { destruct t as [|c t]; [reflexivity|]. cbn [all_chars] in Hall.
      apply andb_prop in Hall as [Hc _].
      cbn [Py.lstrip]. destruct (hex_digit_facts c Hc) as (_ & -> & _). reflexivity. }
    rewrite Hl. apply rstrip_none.
    eapply all_chars_weaken; [|exact Hall].
    intros c Hc. destruct (hex_digit_facts c Hc) as (_ & -> & _). reflexivity. }
  destruct s as [|c r]; [discriminate|]. cbn [colour_code_wf colour_digits].
  destruct (Ascii.eqb c "#") eqn:Hc.
  - intros Hr. split; [|exact Hr]. rewrite <- (Hsix r Hr) at 2.
    unfold Py.strip. cbn [Py.lstrip]. rewrite Hc. reflexivity.
  - intros Hs. split; [apply Hsix|]; exact Hs.
Qed.

Lemma to_rgb_from_rgb r g b :
  0 <= r < 256 -> 0 <= g < 256 -> 0 <= b < 256 ->
  to_rgb (from_rgb r g b) = (r, g, b) /\ 0 <= colour_value (from_rgb r g b) < 2 ^ 24.
Proof.
  intros Hr Hg Hb. unfold to_rgb, get_byte, from_rgb. cbn [colour_value].
  rewrite !Z.shiftl_mul_pow2 by lia. rewrite !Z.shiftr_div_pow2 by lia.
  change 255 with (Z.ones 8). rewrite !Z.land_ones by lia.
  change (2 ^ (8 * 2)) with 65536. change (2 ^ (8 * 1)) with 256.
  change (2 ^ (8 * 0)) with 1. change (2 ^ 16) with 65536. change (2 ^ 8) with 256.
  change (2 ^ 24) with 16777216.
  split; [|lia]. repeat f_equal; Z.div_mod_to_equations; lia.
Qed.

(** X8: every colour code of six hexadecimal digits, with or without a
    leading [#], is parsed: the components of the colour are the values of
    the three pairs of digits, and the colour is a 24-bit value. *)
Theorem well_formed_colour_parses s :
  colour_code_wf s = true ->
  exists c,
    str_to_colour s = Ok c /\
    to_rgb c = (hex_byte (colour_digits s) 0, hex_byte (colour_digits s) 2,
                hex_byte (colour_digits s) 4) /\
    0 <= colour_value c < 2 ^ 24.
Proof.
  intros Hwf. destruct (strip_colour_code s Hwf) as [Hstrip Hsix].
  unfold str_to_colour. rewrite Hstrip.
  destruct (colour_digits s) as [|c1 [|c2 [|c3 [|c4 [|c5 [|c6 [|c7 rest]]]]]]];
    try discriminate Hsix.
  apply andb_prop in Hsix as [_ Hall]. cbn [all_chars] in Hall.
  repeat (apply andb_prop in Hall as [? Hall]).
  cbn [Py.take Py.drop]. rewrite !int16_two_digits by assumption. cbn [rbind].
  assert (Hbyte : forall a b, is_hex_digit a = true -> is_hex_digit b = true ->
            0 <= 16 * hex_digit a + hex_digit b < 256).
  { intros a b Ha Hb.
    destruct (hex_digit_facts a Ha) as (_ & _ & _ & _ & _ & _ & va & Hva & ?).
    destruct (hex_digit_facts b Hb) as (_ & _ & _ & _ & _ & _ & vb & Hvb & ?).
    unfold hex_digit. rewrite Hva, Hvb. lia. }
  eexists. split; [reflexivity|].
  unfold hex_byte. cbn [Py.drop].
  apply to_rgb_from_rgb; apply Hbyte; assumption.
Qed.

Lemma well_formed_colour_parses_witness :
  exists c,
    str_to_colour "#00AAFF" = Ok c /\ to_rgb c = (0, 170, 255) /\
    0 <= colour_value c < 2 ^ 24.
Proof. apply (well_formed_colour_parses "#00AAFF"). reflexivity. Defined.

Lemma lstrip_snoc ch s :
  Py.lstrip ch (s +:+ String ch "")
  = match Py.lstrip ch s with
    | "" => ""
    | t => t +:+ String ch ""
    end.
Proof.
  induction s as [|c s IH].
  - rewrite append_nil_l. cbn [Py.lstrip]. rewrite Ascii.eqb_refl. reflexivity.
  - rewrite append_cons. cbn [Py.lstrip]. destruct (Ascii.eqb c ch); [exact IH|].
    rewrite append_cons. reflexivity.
Qed.

Lemma rstrip_snoc ch s : Py.rstrip ch (s +:+ String ch "") = Py.rstrip ch s.
Proof.
  induction s as [|c s IH].
  - rewrite append_nil_l. cbn [Py.rstrip]. rewrite Ascii.eqb_refl. reflexivity.
  - rewrite append_cons. cbn [Py.rstrip]. rewrite IH. reflexivity.
Qed.

Lemma strip_cons ch s : Py.strip ch (String ch s) = Py.strip ch s.
Proof. unfold Py.strip. cbn [Py.lstrip]. rewrite Ascii.eqb_refl. reflexivity. Qed.

Lemma strip_snoc ch s : Py.strip ch (s +:+ String ch "") = Py.strip ch s.
Proof.
  unfold Py.strip. rewrite lstrip_snoc.
  destruct (Py.lstrip ch s) as [|c t] eqn:Hl; [reflexivity|].
  apply rstrip_snoc.
Qed.

(** X9: [__str_to_colour] ignores every [#] at either end of the code:
    one more [#] in front or behind changes nothing, whether the code is
    accepted or not. *)
Theorem colour_hashes_are_ignored s :
  str_to_colour (String "#" s) = str_to_colour s /\
  str_to_colour (s +:+ "#") = str_to_colour s.
Proof.
  unfold str_to_colour. rewrite strip_cons, strip_snoc. split; reflexivity.
Qed.

Lemma length_padded_row ranking team :
  team ∈ ranking -> String.length (padded_row ranking team) = table_width ranking.
Proof.
  intros Hin. unfold padded_row, table_width, ranking_keys, Py.join.
  cbn [map String.concat].
  change String.append with (fun s t => s +:+ t). cbv beta.
  rewrite !length_append, !length_ljust by (apply column_width_ge; exact Hin).
  cbn [String.length]. lia.
Qed.

(** X10: the ranking table is rectangular: for a ranking that is not
    empty it has one row for each entry, and every row has the same
    length, the widths of the four columns and the nine characters of the
    three separators. *)
Theorem ranking_table_is_rectangular ranking :
  ranking <> [] ->
  exists rows,
    generate_ranking_text ranking = Ok (Py.join newline rows) /\
    List.length rows = List.length ranking /\
    Forall (fun row => String.length row = table_width ranking) rows.
Proof.
  intros Hne. exists (map (padded_row ranking) ranking).
  split; [apply generate_ranking_text_rows, Hne|].
  split; [apply length_map|].
  apply Forall_forall. intros row (team & -> & Hin)%list_elem_of_fmap.
  apply length_padded_row, Hin.
Qed.

Lemma ranking_table_is_rectangular_witness :
  exists rows,
    generate_ranking_text sample_ranking = Ok (Py.join newline rows) /\
    List.length rows = 2%nat /\
    Forall (fun row => String.length row = 22%nat) rows.
Proof. apply (ranking_table_is_rectangular sample_ranking). discriminate. Defined.

Lemma get_match_info_two m :
  (2 <= List.length (opponents m))%nat -> exists info, get_match_info m = Ok info.
Proof.
  destruct m as [st [|home [|away others]]]; cbn [opponents List.length]; try lia.
  intros _. unfold get_match_info, Py.index. cbn [opponents lookup list_lookup rbind].
  destruct (forfeit home || forfeit away); eexists; reflexivity.
Qed.

Lemma get_match_info_short m :
  (List.length (opponents m) < 2)%nat -> get_match_info m = Raise IndexError.
Proof.
  destruct m as [st [|home [|away others]]]; cbn [opponents List.length]; try lia;
    intros _; reflexivity.
Qed.

(** X11: the fixture text has one line for each match, in the order of
    the matches, if every match has two opponents; a single match with
    fewer than two opponents makes the whole text raise an [IndexError];
    no match at all gives the empty text (where the ranking text raises). *)
Theorem fixture_text_lines g matches :
  generate_fixture_text g [] = Ok "" /\
  (Forall (fun m => (2 <= List.length (opponents m))%nat) matches ->
   exists lines,
     generate_fixture_text g matches = Ok (Py.join newline lines) /\
     Forall2 (fun m line => fixture_line g m = Ok line) matches lines) /\
  (Exists (fun m => (List.length (opponents m) < 2)%nat) matches ->
   generate_fixture_text g matches = Raise IndexError).
Proof.
  split; [reflexivity|]. unfold generate_fixture_text. split.
  - intros Hall.
    assert (Hinfos : exists infos,
              map_result get_match_info matches = Ok infos /\
              Forall2 (fun m line => fixture_line g m = Ok line) matches
                (map (get_match_string g) infos)).
    { induction Hall as [|m matches Hm Hall (infos & Hinfos & Hlines)].
      - exists []. split; [reflexivity|constructor].
      - destruct (get_match_info_two m Hm) as (info & Hinfo).
        exists (info :: infos). cbn [map_result]. rewrite Hinfo, Hinfos.
        split; [reflexivity|]. cbn [map]. constructor; [|exact Hlines].
        unfold fixture_line. rewrite Hinfo. reflexivity. }
    destruct Hinfos as (infos & -> & Hlines). eexists. split; [reflexivity|exact Hlines].
  - intros Hex.
    assert (Hraise : map_result get_match_info matches = Raise IndexError).
    { induction Hex as [m matches Hm|m matches Hex IH].
      - cbn [map_result]. rewrite (get_match_info_short m Hm). reflexivity.
      - cbn [map_result]. rewrite IH.
        destruct (Nat.lt_ge_cases (List.length (opponents m)) 2) as [Hm|Hm].
        + rewrite (get_match_info_short m Hm). reflexivity.
        + destruct (get_match_info_two m Hm) as (info & ->). reflexivity. }
    rewrite Hraise. reflexivity.
Qed.

Lemma fixture_text_lines_witness :
  (exists lines,
     generate_fixture_text sample_guild [one_forfeit; both_forfeit]
     = Ok (Py.join newline lines) /\
     Forall2 (fun m line => fixture_line sample_guild m = Ok line)
       [one_forfeit; both_forfeit] lines) /\
  generate_fixture_text sample_guild
    [one_forfeit; {| status := "pending"; opponents := [unplayed "Alpha"] |}]
  = Raise IndexError.
Proof.
  split.
  - apply (fixture_text_lines sample_guild [one_forfeit; both_forfeit]).
    repeat constructor.
  - apply (fixture_text_lines sample_guild
             [one_forfeit; {| status := "pending"; opponents := [unplayed "Alpha"] |}]).
    right. left. cbn. lia.
Defined.

(** X12: without a forfeit the scores are shown as the platform sent
    them: unless the match is pending, two numbers are written in decimal
    and a score that is [null] is written [None], so a match without
    scores that is not pending reads [None-None]. *)
Theorem scores_shown_as_sent st home away others g :
  forfeit home || forfeit away = false ->
  exists info,
    get_match_info {| status := st; opponents := home :: away :: others |} = Ok info /\
    ti_score (home_team info) = opp_score home /\
    ti_score (away_team info) = opp_score away /\
    (String.eqb st "pending" = false ->
     opp_score home = ScoreNone -> opp_score away = ScoreNone ->
     get_match_string g info
     = (display_name (home_team info) +:+ " " +:+ find_emote_id g (home_team info))
       +:+ " " +:+ "None-None" +:+ " " +:+
       (find_emote_id g (away_team info) +:+ " " +:+ display_name (away_team info))) /\
    (forall x y,
     String.eqb st "pending" = false ->
     opp_score home = ScoreInt x -> opp_score away = ScoreInt y ->
     get_match_string g info
     = (display_name (home_team info) +:+ " " +:+ find_emote_id g (home_team info))
       +:+ " " +:+ (Py.str_of_int x +:+ "-" +:+ Py.str_of_int y) +:+ " " +:+
       (find_emote_id g (away_team info) +:+ " " +:+ display_name (away_team info))).
Proof.
  intros Hno. unfold get_match_info, Py.index.
  cbn [opponents lookup list_lookup rbind status]. rewrite Hno.
  eexists. split; [reflexivity|]. cbn [home_team away_team team_info_of ti_score].
  split; [reflexivity|]. split; [reflexivity|].
  unfold get_match_string. cbn [mi_status home_team away_team ti_score team_info_of].
  split.
  - intros -> -> ->. reflexivity.
  - intros x y -> -> ->. reflexivity.
Qed.

Lemma scores_shown_as_sent_witness :
  exists info,
    get_match_info {| status := "running"; opponents := [unplayed "Alpha"; unplayed "Beta"] |}
    = Ok info /\
    get_match_string sample_guild info
    = "Alpha :grey_question: None-None :grey_question: Beta".
Proof.
  destruct (scores_shown_as_sent "running" (unplayed "Alpha") (unplayed "Beta") []
              sample_guild eq_refl)
    as (info & Hinfo & _ & _ & Hnone & _).
  exists info. split; [exact Hinfo|].
  rewrite (Hnone eq_refl eq_refl eq_refl).
  injection Hinfo as <-. reflexivity.
Defined.










(** X14: the emote of a team is the placeholder or the mention of a
    custom emote of the guild; no other mention is ever made up. *)
Theorem emote_is_of_the_guild g t :
  find_emote_id g t = grey_question \/
  exists e, e ∈ emojis g /\ find_emote_id g t = emote_mention e.
Proof.
  assert (Hget : forall name mention, get_emote_id g name = Some mention ->
            exists e, e ∈ emojis g /\ mention = emote_mention e).
  { intros name mention. rewrite get_emote_id_lookup. unfold lookup_emote.
    destruct (find _ (emojis g)) as [e|] eqn:Hfind; [|discriminate].
    intros [= <-]. apply find_some in Hfind as [Hin _].
    exists e. split; [apply list_elem_of_In, Hin|reflexivity]. }
  unfold find_emote_id.
  destruct (match ti_emote t with Some e => get_emote_id g e | None => None end)
    as [mention|] eqn:Hgiven.
  - right. destruct (ti_emote t) as [name|]; [|discriminate].
    destruct (Hget _ _ Hgiven) as (e & Hin & ->). exists e. split; [exact Hin|reflexivity].
  - destruct (get_emote_id g (team_name_to_emote_name (ti_name t))) as [mention|] eqn:Hguess.
    + right. destruct (Hget _ _ Hguess) as (e & Hin & ->).
      exists e. split; [exact Hin|reflexivity].
    + left. reflexivity.
Qed.
(** ** The stored lists and the commands *)

Lemma find_result_find {A} (p : A -> result bool) (f : A -> bool) l :
  (forall a, a ∈ l -> p a = Ok (f a)) -> PyJson.find_result p l = Ok (find f l).
Proof.
  induction l as [|a l IH]; intros Hp; [reflexivity|].
  cbn [PyJson.find_result find]. rewrite (Hp a) by left. cbn [rbind].
  destruct (f a); [reflexivity|]. apply IH. intros b Hb. apply Hp. right. exact Hb.
Qed.

Lemma filter_result_filter {A} (p : A -> result bool) (f : A -> bool) l :
  (forall a, a ∈ l -> p a = Ok (f a)) -> PyJson.filter_result p l = Ok (List.filter f l).
Proof.
  induction l as [|a l IH]; intros Hp; [reflexivity|].
  cbn [PyJson.filter_result List.filter]. rewrite (Hp a) by left. cbn [rbind].
  rewrite IH by (intros b Hb; apply Hp; right; exact Hb). reflexivity.
Qed.

Lemma exists_result_existsb {A} (p : A -> result bool) (f : A -> bool) l :
  (forall a, a ∈ l -> p a = Ok (f a)) -> PyJson.exists_result p l = Ok (existsb f l).
Proof.
  induction l as [|a l IH]; intros Hp; [reflexivity|].
  cbn [PyJson.exists_result existsb]. rewrite (Hp a) by left. cbn [rbind].
  destruct (f a); [reflexivity|]. apply IH. intros b Hb. apply Hp. right. exact Hb.
Qed.

Lemma find_result_some {A} (p : A -> result bool) l a :
  PyJson.find_result p l = Ok (Some a) -> a ∈ l /\ p a = Ok true.
Proof.
  induction l as [|b l IH]; [discriminate|]. cbn [PyJson.find_result].
  destruct (p b) as [[|]|e] eqn:Hb; cbn [rbind]; try discriminate.
  - intros [= <-]. split; [left|exact Hb].
  - intros [Hin Hp]%IH. split; [right; exact Hin|exact Hp].
Qed.

Lemma is_stage_names stage alias name q :
  stage_names stage = Some (alias, name) ->
  Registry.is_stage q stage = Ok (PyJson.eq_str alias q || PyJson.eq_str name q) /\
  Registry.keeps_stage q stage = Ok (negb (PyJson.eq_str alias q || PyJson.eq_str name q)).
Proof.
  unfold stage_names, Registry.is_stage, Registry.keeps_stage.
  destruct (subscript stage "alias") as [a|]; [|discriminate].
  destruct (subscript stage "group") as [group|]; [|discriminate]. cbn [rbind].
  destruct (subscript group "name") as [n|]; [|discriminate].
  intros [= <- <-]. cbn [rbind].
  destruct (PyJson.eq_str a q); split; reflexivity.
Qed.

Lemma is_stage_answers_to q l :
  forallb well_formed_stage l = true ->
  (forall stage, stage ∈ l -> Registry.is_stage q stage = Ok (answers_to q stage)) /\
  (forall stage, stage ∈ l ->
     Registry.keeps_stage q stage = Ok (negb (answers_to q stage))).
Proof.
  intros Hwf.
  assert (Hin : forall stage, stage ∈ l -> exists alias name,
            stage_names stage = Some (alias, name)).
  { intros stage Hstage. rewrite forallb_forall in Hwf.
    specialize (Hwf stage (proj1 (list_elem_of_In _ _) Hstage)).
    unfold well_formed_stage in Hwf.
    destruct (stage_names stage) as [[alias name]|]; [|discriminate]. eauto. }
  split; intros stage (alias & name & Hnames)%Hin; unfold answers_to; rewrite Hnames;
    apply (is_stage_names _ _ _ _ Hnames).
Qed.

Lemma get_stage_find q g l :
  JSONStorage.content (Registry.stages g) = JList l ->
  forallb well_formed_stage l = true ->
  Registry.get_stage q g = Ok (find (answers_to (Py.lower q)) l).
Proof.
  intros Hl Hwf. unfold Registry.get_stage. rewrite Hl. cbn [PyJson.iterate rbind].
  apply find_result_find, is_stage_answers_to, Hwf.
Qed.

Lemma find_app {A} (f : A -> bool) l1 l2 :
  find f (l1 ++ l2) = match find f l1 with Some a => Some a | None => find f l2 end.
Proof. induction l1 as [|a l1 IH]; [reflexivity|]. cbn. destruct (f a); [reflexivity|exact IH]. Qed.

Lemma stage_names_stage_info alias group_info name logo_url colour :
  subscript group_info "name" = Ok name ->
  stage_names (Registry.stage_info alias group_info logo_url colour)
  = Some (JStr (Py.lower alias), name).
Proof.
  intros Hname. unfold stage_names, Registry.stage_info, subscript at 1 2, Py.getitem.
  rewrite lookup_insert_eq. rewrite lookup_insert_ne by discriminate.
  rewrite lookup_insert_eq. cbn [rbind]. rewrite Hname. reflexivity.
Qed.

(** X15: after [add_stage] the stage is found by [get_stage] under its
    alias, in whatever case the alias is typed, unless an older stage
    already answers to that name: [get_stage] gives the first match, so
    whatever it found before it still finds. *)
Theorem added_stage_is_found alias group_info name logo_url colour g fs l :
  JSONStorage.content (Registry.stages g) = JList l ->
  forallb well_formed_stage l = true ->
  subscript group_info "name" = Ok name ->
  exists g' fs',
    Registry.add_stage alias group_info logo_url colour g fs = (Ok tt, g', fs') /\
    (forall q older,
       Registry.get_stage q g = Ok (Some older) ->
       Registry.get_stage q g' = Ok (Some older)) /\
    (forall q,
       Registry.get_stage q g = Ok None -> Py.lower q = Py.lower alias ->
       Registry.get_stage q g'
       = Ok (Some (Registry.stage_info alias group_info logo_url colour))).
Proof.
  intros Hl Hwf Hname.
  pose proof (stage_names_stage_info alias group_info name logo_url colour Hname) as Hnew.
  set (new := Registry.stage_info alias group_info logo_url colour) in *.
  unfold Registry.add_stage. rewrite Hl. cbn [PyJson.iadd]. fold new.
  eexists _, _. split; [reflexivity|].
  assert (Hget : forall q,
    Registry.get_stage q
      (Registry.set_stages (JSONStorage.set_content (JList (l ++ [new])) (Registry.stages g)) g)
    = Ok (find (answers_to (Py.lower q)) (l ++ [new])%list)).
  { intros q. apply get_stage_find; [reflexivity|].
    rewrite forallb_app, Hwf. cbn [forallb]. unfold well_formed_stage. rewrite Hnew.
    reflexivity. }
  split.
  - intros q older. rewrite Hget, (get_stage_find q g l Hl Hwf), find_app.
    intros [= ->]. reflexivity.
  - intros q. rewrite Hget, (get_stage_find q g l Hl Hwf), find_app.
    intros [= ->] Hq. cbn [find]. unfold answers_to. rewrite Hnew.
    cbn [PyJson.eq_str]. rewrite Hq, String.eqb_refl. reflexivity.
Qed.

Lemma added_stage_is_found_witness :
  exists g fs,
    Registry.add_stage "Vortex" (sample_group "The Vortex" "2") "logo.png" "#00AAFF"
      (Registry.init no_files) no_files
    = (Ok tt, g, fs) /\
    Registry.get_stage "VORTEX" g = Ok (Some vortex).
Proof.
  destruct (added_stage_is_found "Vortex" (sample_group "The Vortex" "2")
              (JStr "The Vortex") "logo.png" "#00AAFF" (Registry.init no_files) no_files []
              eq_refl eq_refl eq_refl)
    as (g & fs & Hadd & _ & Hfound).
  exists g, fs. split; [exact Hadd|]. apply Hfound; reflexivity.
Defined.

Lemma lower_char_twice c : Py.lower_char (Py.lower_char c) = Py.lower_char c.
Proof. destruct c as [[] [] [] [] [] [] [] []]; reflexivity. Qed.

Lemma lower_twice s : Py.lower (Py.lower s) = Py.lower s.
Proof.
  induction s as [|c s IH]; [reflexivity|]. cbn [Py.lower].
  rewrite lower_char_twice, IH. reflexivity.
Qed.

Lemma find_filter_none {A} (f : A -> bool) l : find f (List.filter (fun a => negb (f a)) l) = None.
Proof.
  induction l as [|a l IH]; [reflexivity|]. cbn [List.filter].
  destruct (f a) eqn:Ha; cbn [negb]; [exact IH|]. cbn [find]. rewrite Ha. exact IH.
Qed.

Lemma forallb_filter {A} (p f : A -> bool) l :
  forallb p l = true -> forallb p (List.filter f l) = true.
Proof.
  induction l as [|a l IH]; [reflexivity|]. cbn [forallb List.filter].
  intros [Ha Hl]%andb_prop. destruct (f a); [cbn [forallb]; rewrite Ha|]; apply IH, Hl.
Qed.

Lemma remove_stage_filter x g fs l :
  JSONStorage.content (Registry.stages g) = JList l ->
  forallb well_formed_stage l = true ->
  Registry.remove_stage x g fs =
  let st := JSONStorage.set_content
              (JList (List.filter (fun stage => negb (answers_to x stage)) l))
              (Registry.stages g) in
  (Ok tt, Registry.set_stages st g, JSONStorage.save st fs).
Proof.
  intros Hl Hwf. unfold Registry.remove_stage. rewrite Hl. cbn [PyJson.iterate rbind].
  rewrite (filter_result_filter _ (fun stage => negb (answers_to x stage)));
    [reflexivity|].
  apply is_stage_answers_to, Hwf.
Qed.

(** X16: [remove_stage] keeps, in their order, exactly the stages that
    have the name neither for alias nor for group name, and leaves the
    sequences alone; after it [get_stage] finds nothing under a name in
    lower case. *)
Theorem removed_stage_is_gone x g fs l :
  JSONStorage.content (Registry.stages g) = JList l ->
  forallb well_formed_stage l = true ->
  exists g' fs',
    Registry.remove_stage x g fs = (Ok tt, g', fs') /\
    JSONStorage.content (Registry.stages g')
    = JList (List.filter (fun stage => negb (answers_to x stage)) l) /\
    Registry.sequences g' = Registry.sequences g /\
    (Py.lower x = x -> Registry.get_stage x g' = Ok None).
Proof.
  intros Hl Hwf. rewrite (remove_stage_filter x g fs l Hl Hwf). cbv zeta.
  eexists _, _. split; [reflexivity|]. split; [reflexivity|]. split; [reflexivity|].
  intros Hx. erewrite get_stage_find; [|reflexivity|apply forallb_filter, Hwf].
  rewrite Hx, find_filter_none. reflexivity.
Qed.

Lemma removed_stage_is_gone_witness :
  exists g fs,
    Registry.remove_stage "vortex" (Bot.embed_gen vortex_bot) vortex_files = (Ok tt, g, fs) /\
    Registry.get_stage "vortex" g = Ok None.
Proof.
  destruct (removed_stage_is_gone "vortex" (Bot.embed_gen vortex_bot) vortex_files [vortex]
              eq_refl eq_refl)
    as (g & fs & Hremove & _ & _ & Hgone).
  exists g, fs. split; [exact Hremove|]. apply Hgone. reflexivity.
Defined.

(** X17: [get_stage] compares the name in lower case with the stored
    alias and with the group name as the platform spells it; a stage it
    gives back has that alias or that group name, so a stage whose group
    name contains an upper-case letter is found by its alias only. *)
Theorem stage_found_by_lower_case_name q g stage :
  Registry.get_stage q g = Ok (Some stage) ->
  exists alias,
    subscript stage "alias" = Ok alias /\
    (alias = JStr (Py.lower q) \/
     exists group,
       subscript stage "group" = Ok group /\
       subscript group "name" = Ok (JStr (Py.lower q))) /\
    forall group name,
      subscript stage "group" = Ok group -> subscript group "name" = Ok (JStr name) ->
      Py.lower name <> name -> alias = JStr (Py.lower q).
Proof.
  unfold Registry.get_stage.
  destruct (PyJson.iterate _) as [l|e]; [|discriminate]. cbn [rbind].
  intros [_ Hstage]%find_result_some. unfold Registry.is_stage in Hstage.
  destruct (subscript stage "alias") as [alias|]; [|discriminate]. cbn [rbind] in Hstage.
  exists alias. split; [reflexivity|].
  assert (Heq : forall j s, PyJson.eq_str j s = true -> j = JStr s).
  { intros [| | |t| |] s; try discriminate. cbn [PyJson.eq_str].
    intros ->%String.eqb_eq. reflexivity. }
  destruct (PyJson.eq_str alias (Py.lower q)) eqn:Halias.
  - apply Heq in Halias. split; [left; exact Halias|]. intros; exact Halias.
  - destruct (subscript stage "group") as [group|]; [|discriminate]. cbn [rbind] in Hstage.
    destruct (subscript group "name") as [name|] eqn:Hgroup; [|discriminate].
    cbn [rbind] in Hstage.
    injection Hstage as Hname. apply Heq in Hname. subst name.
    split; [right; exists group; split; [reflexivity|exact Hgroup]|].
    intros group' name' [= <-] Hname' Hupper. exfalso. apply Hupper.
    rewrite Hname' in Hgroup. injection Hgroup as ->. apply lower_twice.
Qed.

Lemma stage_found_by_lower_case_name_witness :
  Registry.get_stage "The Vortex" (Bot.embed_gen vortex_bot) = Ok None /\
  exists alias,
    subscript vortex "alias" = Ok alias /\ alias = JStr (Py.lower "Vortex").
Proof.
  split; [reflexivity|].
  destruct (stage_found_by_lower_case_name "Vortex" (Bot.embed_gen vortex_bot) vortex
              eq_refl)
    as (alias & Halias & _ & Hupper).
  exists alias. split; [exact Halias|].
  apply (Hupper (sample_group "The Vortex" "2") "The Vortex"); [reflexivity..|].
  discriminate.
Defined.

Lemma set_content_same st c :
  JSONStorage.content st = c -> JSONStorage.set_content c st = st.
Proof. destruct st. cbn. intros ->. reflexivity. Qed.

Lemma set_stages_same g : Registry.set_stages (Registry.stages g) g = g.
Proof. destruct g. reflexivity. Qed.

Lemma set_sequences_same g : Registry.set_sequences (Registry.sequences g) g = g.
Proof. destruct g. reflexivity. Qed.

Lemma filter_all {A} (f : A -> bool) l : forallb f l = true -> List.filter f l = l.
Proof.
  induction l as [|a l IH]; [reflexivity|]. cbn [forallb List.filter].
  intros [-> Hl]%andb_prop. rewrite (IH Hl). reflexivity.
Qed.

Lemma stored_apart_from_kept x stage :
  Py.lower x <> x -> stored_apart_from x stage = true ->
  well_formed_stage stage = true /\ negb (answers_to x stage) = true.
Proof.
  intros Hx. unfold stored_apart_from, well_formed_stage, answers_to.
  destruct (stage_names stage) as [[[| | |alias| |] name]|]; try discriminate.
  intros [Halias Hname]%andb_prop. split; [reflexivity|].
  apply negb_true_iff in Hname. rewrite Hname, orb_false_r. cbn [PyJson.eq_str].
  apply negb_true_iff, String.eqb_neq. intros ->.
  apply String.eqb_eq in Halias. contradiction.
Qed.

(** X18: [removegroup] does not put the name in lower case, where
    [add_stage] stored the alias in lower case.  For a name with an
    upper-case letter that is no group's name, the command removes
    nothing, and answers that the group was removed. *)
Theorem removegroup_is_case_sensitive ctx x b l :
  PermissionManager.has_perms (Bot.perms b) ctx = Ok true ->
  JSONStorage.content (Registry.stages (Bot.embed_gen b)) = JList l ->
  forallb (stored_apart_from x) l = true ->
  Py.lower x <> x ->
  exists b',
    Bot.removegroup ctx x b = (Ok ["Removed group '" +:+ x +:+ "' from the bot."], b') /\
    Bot.embed_gen b' = Bot.embed_gen b /\ Bot.perms b' = Bot.perms b.
Proof.
  intros Hperms Hl Hstored Hx.
  assert (Hwf : forallb well_formed_stage l = true).
  { apply forallb_forall. intros stage Hin. rewrite forallb_forall in Hstored.
    apply (stored_apart_from_kept x stage Hx), Hstored, Hin. }
  assert (Hkept : List.filter (fun stage => negb (answers_to x stage)) l = l).
  { apply filter_all, forallb_forall. intros stage Hin. rewrite forallb_forall in Hstored.
    apply (stored_apart_from_kept x stage Hx), Hstored, Hin. }
  unfold Bot.removegroup. rewrite Hperms.
  rewrite (remove_stage_filter x _ _ l Hl Hwf). cbv zeta. rewrite Hkept.
  rewrite (set_content_same _ _ Hl), set_stages_same.
  eexists. split; [reflexivity|]. split; reflexivity.
Qed.

Lemma removegroup_is_case_sensitive_witness :
  exists b,
    Bot.removegroup (member true []) "Vortex" vortex_bot
    = (Ok ["Removed group 'Vortex' from the bot."], b) /\
    Registry.get_stage "Vortex" (Bot.embed_gen b) = Ok (Some vortex).
Proof.
  destruct (removegroup_is_case_sensitive (member true []) "Vortex" vortex_bot [vortex]
              eq_refl eq_refl eq_refl ltac:(discriminate))
    as (b & Hrun & Hgen & _).
  exists b. split; [exact Hrun|]. rewrite Hgen. reflexivity.
Defined.

Lemma is_sequence_alias q l :
  forallb has_alias l = true ->
  forall sequence, sequence ∈ l ->
    Registry.is_sequence q sequence = Ok (alias_is q sequence) /\
    Registry.keeps_sequence q sequence = Ok (negb (alias_is q sequence)).
Proof.
  intros Hall sequence Hin. rewrite forallb_forall in Hall.
  specialize (Hall sequence (proj1 (list_elem_of_In _ _) Hin)).
  unfold has_alias, alias_is, Registry.is_sequence, Registry.keeps_sequence in *.
  destruct (subscript sequence "alias"); [|discriminate]. split; reflexivity.
Qed.

Lemma alias_is_sequence_info q alias groups :
  alias_is q (Registry.sequence_info alias groups) = String.eqb (Py.lower alias) q /\
  has_alias (Registry.sequence_info alias groups) = true.
Proof.
  unfold alias_is, has_alias, Registry.sequence_info, subscript, Py.getitem.
  rewrite lookup_insert_eq. split; reflexivity.
Qed.

Lemma get_sequence_find q g l :
  JSONStorage.content (Registry.sequences g) = JList l ->
  forallb has_alias l = true ->
  Registry.get_sequence q g = Ok (find (alias_is (Py.lower q)) l).
Proof.
  intros Hl Hall. unfold Registry.get_sequence. rewrite Hl. cbn [PyJson.iterate rbind].
  apply find_result_find. intros sequence Hin.
  apply (is_sequence_alias _ l Hall sequence Hin).
Qed.

Lemma find_none_filter {A} (f : A -> bool) l :
  find f l = None -> List.filter (fun a => negb (f a)) l = l.
Proof.
  induction l as [|a l IH]; [reflexivity|]. cbn [find List.filter].
  destruct (f a); [discriminate|]. intros Hl. cbn [negb]. rewrite (IH Hl). reflexivity.
Qed.

(** X19: a sequence added under an alias that was free is found by
    [get_sequence] under that alias in whatever case, with the groups it
    was given; removing it by its alias in lower case gives back the
    sequences of before and writes them to the file. *)
Theorem sequence_round_trip alias groups g fs l :
  JSONStorage.content (Registry.sequences g) = JList l ->
  forallb has_alias l = true ->
  Registry.get_sequence alias g = Ok None ->
  exists g1 fs1 fs2,
    Registry.add_sequence alias groups g fs = (Ok tt, g1, fs1) /\
    (forall q, Py.lower q = Py.lower alias ->
       Registry.get_sequence q g1 = Ok (Some (Registry.sequence_info alias groups))) /\
    subscript (Registry.sequence_info alias groups) "groups" = Ok (JList (map JStr groups)) /\
    Registry.remove_sequence (Py.lower alias) g1 fs1 = (Ok tt, g, fs2) /\
    fs2 !! JSONStorage.location (Registry.sequences g) = Some (Some (JList l)).
Proof.
  intros Hl Hall Hnone.
  rewrite (get_sequence_find alias g l Hl Hall) in Hnone. injection Hnone as Hnone.
  set (new := Registry.sequence_info alias groups).
  destruct (alias_is_sequence_info (Py.lower alias) alias groups) as [Hnew Hhas].
  fold new in Hnew, Hhas.
  assert (Hall1 : forallb has_alias (l ++ [new]) = true).
  { rewrite forallb_app, Hall. cbn [forallb]. rewrite Hhas. reflexivity. }
  unfold Registry.add_sequence. rewrite Hl. cbn [PyJson.iadd]. fold new.
  eexists _, _, _. split; [reflexivity|]. split; [|split; [|split]].
  - intros q Hq. erewrite get_sequence_find; [|reflexivity|exact Hall1].
    rewrite find_app, Hq, Hnone. cbn [find]. rewrite Hnew, String.eqb_refl. reflexivity.
  - unfold new, Registry.sequence_info, subscript, Py.getitem.
    rewrite lookup_insert_ne by discriminate. rewrite lookup_insert_eq. reflexivity.
  - unfold Registry.remove_sequence.
    cbn [Registry.sequences Registry.set_sequences JSONStorage.content
         JSONStorage.set_content PyJson.iterate rbind].
    rewrite (filter_result_filter _ (fun sequence => negb (alias_is (Py.lower alias) sequence)))
      by (intros sequence Hin; apply (is_sequence_alias _ _ Hall1 sequence Hin)).
    rewrite List.filter_app, (find_none_filter _ l Hnone). cbn [List.filter].
    rewrite Hnew, String.eqb_refl. cbn [negb]. rewrite app_nil_r.
    f_equal. f_equal.
    destruct g as [stages [location content]]. cbn in Hl. subst content. reflexivity.
  - cbn [JSONStorage.save JSONStorage.location JSONStorage.content JSONStorage.set_content
         Registry.sequences Registry.set_sequences].
    apply lookup_insert_eq.
Qed.

Lemma sequence_round_trip_witness :
  exists g fs,
    Registry.add_sequence "ECC8" ["CC1"; "CC2"; "Vortex"] (Registry.init no_files) no_files
    = (Ok tt, g, fs) /\
    Registry.get_sequence "ecc8" g
    = Ok (Some (Registry.sequence_info "ECC8" ["CC1"; "CC2"; "Vortex"])) /\
    exists fs', Registry.remove_sequence "ecc8" g fs = (Ok tt, Registry.init no_files, fs').
Proof.
  destruct (sequence_round_trip "ECC8" ["CC1"; "CC2"; "Vortex"] (Registry.init no_files) no_files []
              eq_refl eq_refl eq_refl)
    as (g & fs & fs' & Hadd & Hfound & _ & Hremove & _).
  exists g, fs. split; [exact Hadd|]. split; [apply Hfound; reflexivity|].
  exists fs'. exact Hremove.
Defined.

Import PermissionManager.

Lemma permits_role_entry member_role entry :
  permits member_role (role_entry entry) = Ok (same_entry entry (entry_of member_role)) /\
  keeps_role member_role (role_entry entry)
  = Ok (negb (same_entry entry (entry_of member_role))).
Proof.
  unfold permits, keeps_role, role_entry, subscript, Py.getitem, same_entry, entry_of.
  rewrite lookup_insert_eq. rewrite lookup_insert_ne by discriminate.
  rewrite lookup_insert_eq. cbn [rbind PyJson.eq_int fst snd].
  destruct (fst entry =? role_guild_id member_role); split; reflexivity.
Qed.

Lemma exists_result_map {A B} (p : B -> result bool) (g : A -> B) (f : A -> bool) l :
  (forall a, p (g a) = Ok (f a)) -> PyJson.exists_result p (map g l) = Ok (existsb f l).
Proof.
  intros Hp. induction l as [|a l IH]; [reflexivity|].
  cbn [map PyJson.exists_result existsb]. rewrite Hp. cbn [rbind].
  destruct (f a); [reflexivity|exact IH].
Qed.

Lemma filter_result_map {A B} (p : B -> result bool) (g : A -> B) (f : A -> bool) l :
  (forall a, p (g a) = Ok (f a)) ->
  PyJson.filter_result p (map g l) = Ok (map g (List.filter f l)).
Proof.
  intros Hp. induction l as [|a l IH]; [reflexivity|].
  cbn [map PyJson.filter_result List.filter]. rewrite Hp, IH. cbn [rbind].
  destruct (f a); reflexivity.
Qed.

Lemma existsb_ext {A} (f g : A -> bool) l :
  (forall a, f a = g a) -> existsb f l = existsb g l.
Proof.
  intros Hfg. induction l as [|a l IH]; [reflexivity|].
  cbn [existsb]. rewrite Hfg, IH. reflexivity.
Qed.

Lemma has_perms_role_list roles entries ctx :
  JSONStorage.content roles = role_list entries ->
  has_perms roles ctx
  = Ok (author_administrator ctx || existsb (grants entries) (author_roles ctx)).
Proof.
  intros Hroles. unfold has_perms. destruct (author_administrator ctx); [reflexivity|].
  cbn [orb]. apply exists_result_existsb. intros member_role _.
  rewrite Hroles. cbn [role_list PyJson.iterate rbind].
  apply exists_result_map. intros entry. apply permits_role_entry.
Qed.

(** X20: [has_perms] holds for an administrator whatever the file
    held, and is refused to an author without roles who is not one, with
    the list not even read; over a well-formed list of roles it holds
    exactly for an administrator and for an author one of whose roles is
    in the list, under its guild and its id. *)
Theorem permissions_follow_the_role_list roles ctx :
  (author_administrator ctx = true -> has_perms roles ctx = Ok true) /\
  (author_administrator ctx = false -> author_roles ctx = [] ->
   has_perms roles ctx = Ok false) /\
  (forall entries,
     JSONStorage.content roles = role_list entries ->
     has_perms roles ctx
     = Ok (author_administrator ctx || existsb (grants entries) (author_roles ctx))).
Proof.
  split; [|split].
  - intros Hadmin. unfold has_perms. rewrite Hadmin. reflexivity.
  - intros Hadmin Hroles. unfold has_perms. rewrite Hadmin, Hroles. reflexivity.
  - intros entries. apply has_perms_role_list.
Qed.

Lemma permissions_follow_the_role_list_witness :
  PermissionManager.has_perms
    {| JSONStorage.location := "roles.json"; JSONStorage.content := role_list [(1, 10)] |}
    (member false [sample_role])
  = Ok true /\
  PermissionManager.has_perms
    {| JSONStorage.location := "roles.json"; JSONStorage.content := JInt 0 |}
    (member false [])
  = Ok false.
Proof.
  split.
  - apply (proj2 (proj2 (permissions_follow_the_role_list
             {| JSONStorage.location := "roles.json";
                JSONStorage.content := role_list [(1, 10)] |}
             (member false [sample_role]))) [(1, 10)]).
    reflexivity.
  - apply (proj1 (proj2 (permissions_follow_the_role_list
             {| JSONStorage.location := "roles.json"; JSONStorage.content := JInt 0 |}
             (member false [])))); reflexivity.
Defined.

(** X21: [add_role] appends the role to the list and [remove_role] takes
    out every entry of that role, and both write the list to the file;
    after [add_role] an author with that role is permitted as well, after
    [remove_role] that role permits no more. *)
Theorem role_list_updates r roles fs entries :
  JSONStorage.content roles = role_list entries ->
  (exists roles' fs',
     add_role r roles fs = (Ok tt, roles', fs') /\
     JSONStorage.content roles' = role_list (entries ++ [entry_of r]) /\
     fs' !! JSONStorage.location roles = Some (Some (JSONStorage.content roles')) /\
     forall ctx,
       has_perms roles' ctx
       = Ok (author_administrator ctx
             || existsb (fun member_role =>
                           grants entries member_role
                           || same_entry (entry_of r) (entry_of member_role))
                        (author_roles ctx))) /\
  (exists roles' fs',
     remove_role r roles fs = (Ok tt, roles', fs') /\
     JSONStorage.content roles'
     = role_list (List.filter (fun entry => negb (same_entry entry (entry_of r))) entries) /\
     fs' !! JSONStorage.location roles = Some (Some (JSONStorage.content roles')) /\
     forall ctx,
       has_perms roles' ctx
       = Ok (author_administrator ctx
             || existsb (fun member_role =>
                           grants entries member_role
                           && negb (same_entry (entry_of r) (entry_of member_role)))
                        (author_roles ctx))).
Proof.
  intros Hroles. split.
  - unfold add_role. rewrite Hroles. cbn [role_list PyJson.iadd].
    change (role_info r) with (role_entry (entry_of r)).
    change [role_entry (entry_of r)] with (map role_entry [entry_of r]).
    rewrite <- map_app. fold (role_list (entries ++ [entry_of r])).
    eexists _, _. split; [reflexivity|]. split; [reflexivity|].
    split; [apply lookup_insert_eq|].
    intros ctx. rewrite (has_perms_role_list _ (entries ++ [entry_of r])) by reflexivity.
    f_equal. f_equal. apply existsb_ext. intros member_role.
    unfold grants. rewrite existsb_app. cbn [existsb]. rewrite orb_false_r. reflexivity.
  - unfold remove_role. rewrite Hroles. cbn [role_list PyJson.iterate rbind].
    rewrite (filter_result_map _ _ (fun entry => negb (same_entry entry (entry_of r))))
      by (intros entry; apply permits_role_entry).
    eexists _, _. split; [reflexivity|]. split; [reflexivity|].
    split; [apply lookup_insert_eq|].
    intros ctx. erewrite has_perms_role_list by reflexivity.
    f_equal. f_equal. apply existsb_ext. intros member_role.
    unfold grants. clear Hroles. induction entries as [|entry entries IH]; [reflexivity|].
    cbn [List.filter existsb].
    assert (Hsame : same_entry entry (entry_of r) = true ->
              same_entry entry (entry_of member_role)
              = same_entry (entry_of r) (entry_of member_role)).
    { unfold same_entry. intros [H1 H2]%andb_prop.
      apply Z.eqb_eq in H1, H2. rewrite H1, H2. reflexivity. }
    destruct (same_entry entry (entry_of r)) eqn:Hr; cbn [negb existsb].
    + rewrite IH, (Hsame eq_refl).
      destruct (same_entry (entry_of r) (entry_of member_role)); cbn [orb andb negb];
        [rewrite andb_false_r|rewrite andb_true_r]; reflexivity.
    + rewrite IH.
      destruct (same_entry entry (entry_of member_role)) eqn:Hm; cbn [orb andb]; [|reflexivity].
      assert (Hne : same_entry (entry_of r) (entry_of member_role) = false).
      { unfold same_entry in *. apply andb_prop in Hm as [H1 H2].
        apply Z.eqb_eq in H1, H2. rewrite <- H1, <- H2.
        rewrite (Z.eqb_sym (fst (entry_of r))), (Z.eqb_sym (snd (entry_of r))). exact Hr. }
      rewrite Hne. reflexivity.
Qed.

Lemma role_list_updates_witness :
  exists roles fs,
    PermissionManager.remove_role sample_role
      {| JSONStorage.location := "roles.json";
         JSONStorage.content := role_list [(1, 10); (2, 20); (1, 10)] |} no_files
    = (Ok tt, roles, fs) /\
    JSONStorage.content roles = role_list [(2, 20)] /\
    PermissionManager.has_perms roles (member false [sample_role]) = Ok false.
Proof.
  destruct (role_list_updates sample_role
              {| JSONStorage.location := "roles.json";
                 JSONStorage.content := role_list [(1, 10); (2, 20); (1, 10)] |} no_files
              [(1, 10); (2, 20); (1, 10)] eq_refl)
    as (_ & roles & fs & Hremove & Hcontent & _ & Hperms).
  exists roles, fs. split; [exact Hremove|]. split; [exact Hcontent|].
  rewrite Hperms. reflexivity.
Defined.


Lemma eq_int_apart j a b : PyJson.eq_int j a = true -> a <> b -> PyJson.eq_int j b = false.
Proof.
  destruct j as [|c|z| | |]; try discriminate; cbn [PyJson.eq_int];
    intros ->%Z.eqb_eq Hab; apply Z.eqb_neq; exact Hab.
Qed.

Lemma exists_result_ext {A} (f g : A -> result bool) l :
  (forall a, a ∈ l -> f a = g a) -> PyJson.exists_result f l = PyJson.exists_result g l.
Proof.
  induction l as [|a l IH]; intros Hfg; [reflexivity|].
  cbn [PyJson.exists_result]. rewrite (Hfg a) by left.
  rewrite IH by (intros b Hb; apply Hfg; right; exact Hb). reflexivity.
Qed.

Lemma exists_result_snoc {A} (p : A -> result bool) l a :
  p a = Ok false -> PyJson.exists_result p (l ++ [a]) = PyJson.exists_result p l.
Proof.
  intros Ha. induction l as [|b l IH]; cbn [app PyJson.exists_result].
  - rewrite Ha. reflexivity.
  - rewrite IH. reflexivity.
Qed.

Lemma exists_result_removed r member_role l : forall kept,
  role_guild_id member_role <> role_guild_id r ->
  PyJson.filter_result (keeps_role r) l = Ok kept ->
  PyJson.exists_result (permits member_role) kept
  = PyJson.exists_result (permits member_role) l.
Proof.
  induction l as [|e l IH]; intros kept Hguild; cbn [PyJson.filter_result].
  - intros [= <-]. reflexivity.
  - destruct (keeps_role r e) as [keep|] eqn:He; [|discriminate]. cbn [rbind].
    destruct (PyJson.filter_result (keeps_role r) l) as [kept'|]; [|discriminate].
    cbn [rbind]. intros [= <-]. specialize (IH kept' Hguild eq_refl).
    destruct keep; cbn [PyJson.exists_result]; [rewrite IH; reflexivity|].
    assert (Hno : permits member_role e = Ok false).
    { unfold keeps_role in He. unfold permits.
      destruct (subscript e "guild") as [guild|]; [|discriminate]. cbn [rbind] in *.
      destruct (PyJson.eq_int guild (role_guild_id r)) eqn:Hg.
      - rewrite (eq_int_apart _ _ _ Hg) by congruence. reflexivity.
      - discriminate. }
    rewrite Hno. cbn [rbind]. exact IH.
Qed.

Lemma has_perms_other_guild r roles fs ctx :
  Forall (fun member_role => role_guild_id member_role <> role_guild_id r)
    (author_roles ctx) ->
  has_perms (snd (fst (add_role r roles fs))) ctx = has_perms roles ctx /\
  has_perms (snd (fst (remove_role r roles fs))) ctx = has_perms roles ctx.
Proof.
  intros Hguild. rewrite Forall_forall in Hguild. split.
  - unfold add_role. destruct (JSONStorage.content roles) as [| | | |l|] eqn:Hl;
      cbn [PyJson.iadd snd fst]; try reflexivity.
    unfold has_perms. destruct (author_administrator ctx); [reflexivity|].
    apply exists_result_ext. intros member_role Hin.
    rewrite Hl. cbn [JSONStorage.set_content JSONStorage.content PyJson.iterate rbind].
    apply exists_result_snoc.
    change (role_info r) with (role_entry (entry_of r)).
    rewrite (proj1 (permits_role_entry member_role (entry_of r))).
    unfold same_entry, entry_of. cbn [fst snd].
    destruct (Z.eqb_spec (role_guild_id r) (role_guild_id member_role)) as [Heq|];
      [|reflexivity].
    exfalso. apply (Hguild member_role Hin). congruence.
  - unfold remove_role.
    destruct (PyJson.iterate (JSONStorage.content roles)) as [l|] eqn:Hl;
      cbn [rbind]; [|reflexivity].
    destruct (PyJson.filter_result (keeps_role r) l) as [kept|] eqn:Hkept; [|reflexivity].
    cbn [snd fst]. unfold has_perms. destruct (author_administrator ctx); [reflexivity|].
    apply exists_result_ext. intros member_role Hin.
    rewrite Hl. cbn [JSONStorage.set_content JSONStorage.content PyJson.iterate rbind].
    apply (exists_result_removed r); [apply Hguild, Hin|exact Hkept].
Qed.

Lemma perms_kept ctx c b :
  match c with
  | Bot.AddRole _ | Bot.RemoveRole _ => True
  | _ => Bot.perms (snd (Bot.run ctx c b)) = Bot.perms b
  end.
Proof.
  destruct c; cbn [Bot.run]; try exact I.
  - unfold Bot.ping. destruct (has_perms _ _) as [[|]|]; reflexivity.
  - unfold Bot.removegroup. destruct (has_perms _ _) as [[|]|]; try reflexivity.
    destruct (Registry.remove_stage _ _ _) as [[[|] g] fs]; reflexivity.
  - unfold Bot.addsequence. destruct (has_perms _ _) as [[|]|]; try reflexivity.
    destruct (Registry.add_sequence _ _ _ _) as [[[|] g] fs]; reflexivity.
  - unfold Bot.removesequence. destruct (has_perms _ _) as [[|]|]; try reflexivity.
    destruct (Registry.remove_sequence _ _ _) as [[[|] g] fs]; reflexivity.
Qed.

(** X22: no command changes who is permitted in another guild: whatever
    the command and whoever issues it, [has_perms] gives the same for
    every author whose roles all belong to guilds other than the guild of
    the command.  No assumption is made on the content of the list. *)
Theorem other_guilds_are_untouched ctx c b ctx' :
  Forall (fun member_role => role_guild_id member_role <> guild_id ctx)
    (author_roles ctx') ->
  has_perms (Bot.perms (snd (Bot.run ctx c b))) ctx' = has_perms (Bot.perms b) ctx'.
Proof.
  intros Hguild.
  pose proof (perms_kept ctx c b) as Hkept.
  destruct c as [| | | |r|r]; try (rewrite Hkept; reflexivity); cbn [Bot.run].
  - unfold Bot.addrole. destruct (author_administrator ctx); [|reflexivity]. cbn [negb].
    destruct (Z.eqb_spec (role_guild_id r) (guild_id ctx)) as [Heq|]; [|reflexivity].
    cbn [negb]. rewrite <- Heq in Hguild.
    pose proof (proj1 (has_perms_other_guild r (Bot.perms b) (Bot.fs b) ctx' Hguild)) as H.
    destruct (add_role r (Bot.perms b) (Bot.fs b)) as [[[|] roles] fs]; exact H.
  - unfold Bot.removerole. destruct (author_administrator ctx); [|reflexivity]. cbn [negb].
    destruct (Z.eqb_spec (role_guild_id r) (guild_id ctx)) as [Heq|]; [|reflexivity].
    cbn [negb]. rewrite <- Heq in Hguild.
    pose proof (proj2 (has_perms_other_guild r (Bot.perms b) (Bot.fs b) ctx' Hguild)) as H.
    destruct (remove_role r (Bot.perms b) (Bot.fs b)) as [[[|] roles] fs]; exact H.
Qed.

Lemma other_guilds_are_untouched_witness :
  PermissionManager.has_perms
    (Bot.perms (snd (Bot.run (member true []) (Bot.AddRole sample_role) vortex_bot)))
    (member false [other_role])
  = Ok false.
Proof.
  rewrite (other_guilds_are_untouched (member true []) (Bot.AddRole sample_role) vortex_bot
             (member false [other_role])).
  - reflexivity.
  - repeat constructor. discriminate.
Defined.

(** X23: an author that [has_perms] does not permit changes nothing:
    every command answers [Permission denied] ([ping] answers nothing) and
    leaves the lists and the files as they were.  The two commands on
    roles are refused to every author who is not an administrator, and for
    every role of another guild, also when [has_perms] holds. *)
Theorem commands_are_refused ctx b :
  (has_perms (Bot.perms b) ctx = Ok false ->
   forall c,
     Bot.run ctx c b
     = (Ok (match c with Bot.Ping => [] | _ => Bot.denied end), b)) /\
  (forall r,
     author_administrator ctx = false \/ role_guild_id r <> guild_id ctx ->
     Bot.run ctx (Bot.AddRole r) b = (Ok Bot.denied, b) /\
     Bot.run ctx (Bot.RemoveRole r) b = (Ok Bot.denied, b)).
Proof.
  split.
  - intros Hno c.
    assert (Hadmin : author_administrator ctx = false).
    { unfold has_perms in Hno. destruct (author_administrator ctx); [discriminate|reflexivity]. }
    destruct c; cbn [Bot.run];
      unfold Bot.ping, Bot.removegroup, Bot.addsequence, Bot.removesequence,
        Bot.addrole, Bot.removerole;
      rewrite ?Hno, ?Hadmin; reflexivity.
  - intros r [Hadmin|Hguild]; cbn [Bot.run]; unfold Bot.addrole, Bot.removerole.
    + rewrite Hadmin. split; reflexivity.
    + apply Z.eqb_neq in Hguild. rewrite Hguild.
      destruct (author_administrator ctx); split; reflexivity.
Qed.

Lemma commands_are_refused_witness :
  Bot.run (member false []) (Bot.RemoveGroup "vortex") vortex_bot
  = (Ok ["Permission denied"], vortex_bot) /\
  Bot.run (member true []) (Bot.AddRole other_role) vortex_bot
  = (Ok ["Permission denied"], vortex_bot).
Proof.
  split.
  - apply (proj1 (commands_are_refused (member false []) vortex_bot) eq_refl
             (Bot.RemoveGroup "vortex")).
  - apply (proj2 (commands_are_refused (member true []) vortex_bot) other_role).
    right. discriminate.
Defined.

Lemma init_saved p c fs :
  JSONStorage.init p (JSONStorage.save (JSONStorage.set_content c (JSONStorage.init p fs)) fs)
  = JSONStorage.set_content c (JSONStorage.init p fs).
Proof.
  unfold JSONStorage.init, JSONStorage.save, JSONStorage.set_content, JSONStorage.load.
  cbn [JSONStorage.location JSONStorage.content]. rewrite lookup_insert_eq. reflexivity.
Qed.

Lemma init_elsewhere p q c fs :
  q <> p ->
  JSONStorage.init q (JSONStorage.save (JSONStorage.set_content c (JSONStorage.init p fs)) fs)
  = JSONStorage.init q fs.
Proof.
  intros Hqp.
  unfold JSONStorage.init, JSONStorage.save, JSONStorage.set_content, JSONStorage.load.
  cbn [JSONStorage.location JSONStorage.content].
  rewrite lookup_insert_ne by congruence. reflexivity.
Qed.

Lemma in_step_stages b c :
  in_step b ->
  let st := JSONStorage.set_content c (Registry.stages (Bot.embed_gen b)) in
  in_step {| Bot.perms := Bot.perms b;
             Bot.embed_gen := Registry.set_stages st (Bot.embed_gen b);
             Bot.fs := JSONStorage.save st (Bot.fs b) |}.
Proof.
  destruct b as [roles g fs]. unfold in_step, Bot.start. cbn [Bot.fs Bot.perms Bot.embed_gen].
  intros [= -> ->]. cbv zeta. unfold PermissionManager.init, Registry.init, Registry.set_stages.
  cbn [Registry.stages Registry.sequences].
  rewrite init_saved, !init_elsewhere by discriminate. reflexivity.
Qed.

Lemma in_step_sequences b c :
  in_step b ->
  let st := JSONStorage.set_content c (Registry.sequences (Bot.embed_gen b)) in
  in_step {| Bot.perms := Bot.perms b;
             Bot.embed_gen := Registry.set_sequences st (Bot.embed_gen b);
             Bot.fs := JSONStorage.save st (Bot.fs b) |}.
Proof.
  destruct b as [roles g fs]. unfold in_step, Bot.start. cbn [Bot.fs Bot.perms Bot.embed_gen].
  intros [= -> ->]. cbv zeta.
  unfold PermissionManager.init, Registry.init, Registry.set_sequences.
  cbn [Registry.stages Registry.sequences].
  rewrite init_saved, !init_elsewhere by discriminate. reflexivity.
Qed.

Lemma in_step_perms b c :
  in_step b ->
  let st := JSONStorage.set_content c (Bot.perms b) in
  in_step {| Bot.perms := st; Bot.embed_gen := Bot.embed_gen b;
             Bot.fs := JSONStorage.save st (Bot.fs b) |}.
Proof.
  destruct b as [roles g fs]. unfold in_step, Bot.start. cbn [Bot.fs Bot.perms Bot.embed_gen].
  intros [= -> ->]. cbv zeta. unfold PermissionManager.init, Registry.init.
  rewrite init_saved, !init_elsewhere by discriminate. reflexivity.
Qed.

Lemma bot_eta b :
  {| Bot.perms := Bot.perms b; Bot.embed_gen := Bot.embed_gen b; Bot.fs := Bot.fs b |} = b.
Proof. destruct b. reflexivity. Qed.

(** X24: what is in memory is what is in the files.  If the lists are
    what a start from the files gives, they still are after every command
    that completes and after every [add_stage] that completes: a restart
    loses nothing, and the three files do not disturb each other. *)
Theorem restart_loses_nothing b :
  in_step b ->
  (forall ctx c out b', Bot.run ctx c b = (Ok out, b') -> in_step b') /\
  (forall alias group_info logo_url colour g fs,
     Registry.add_stage alias group_info logo_url colour (Bot.embed_gen b) (Bot.fs b)
     = (Ok tt, g, fs) ->
     in_step {| Bot.perms := Bot.perms b; Bot.embed_gen := g; Bot.fs := fs |}).
Proof.
  intros Hb. split.
  - intros ctx c out b' Hrun.
    assert (Hall : in_step (snd (Bot.run ctx c b))); [|rewrite Hrun in Hall; exact Hall].
    clear Hrun. destruct c; cbn [Bot.run].
    + unfold Bot.ping. destruct (has_perms _ _) as [[|]|]; exact Hb.
    + unfold Bot.removegroup. destruct (has_perms _ _) as [[|]|]; try exact Hb.
      unfold Registry.remove_stage.
      destruct (let* l := PyJson.iterate _ in _) as [kept|e]; cbn [snd].
      * apply (in_step_stages b _ Hb).
      * rewrite bot_eta. exact Hb.
    + unfold Bot.addsequence. destruct (has_perms _ _) as [[|]|]; try exact Hb.
      unfold Registry.add_sequence.
      destruct (PyJson.iadd _ _) as [content|e]; cbn [snd].
      * apply (in_step_sequences b _ Hb).
      * rewrite bot_eta. exact Hb.
    + unfold Bot.removesequence. destruct (has_perms _ _) as [[|]|]; try exact Hb.
      unfold Registry.remove_sequence.
      destruct (let* l := PyJson.iterate _ in _) as [kept|e]; cbn [snd].
      * apply (in_step_sequences b _ Hb).
      * rewrite bot_eta. exact Hb.
    + unfold Bot.addrole. destruct (negb (author_administrator ctx)); [exact Hb|].
      destruct (negb (_ =? _)); [exact Hb|].
      unfold add_role. destruct (PyJson.iadd _ _) as [content|e]; cbn [snd].
      * apply (in_step_perms b _ Hb).
      * rewrite bot_eta. exact Hb.
    + unfold Bot.removerole. destruct (negb (author_administrator ctx)); [exact Hb|].
      destruct (negb (_ =? _)); [exact Hb|].
      unfold remove_role.
      destruct (let* l := PyJson.iterate _ in _) as [kept|e]; cbn [snd].
      * apply (in_step_perms b _ Hb).
      * rewrite bot_eta. exact Hb.
  - intros alias group_info logo_url colour g fs. unfold Registry.add_stage.
    destruct (PyJson.iadd _ _) as [content|e]; [|discriminate].
    intros [= <- <-]. apply (in_step_stages b _ Hb).
Qed.

Lemma restart_loses_nothing_witness :
  exists out b,
    Bot.run (member true []) (Bot.AddRole sample_role) vortex_bot = (Ok out, b) /\
    b = Bot.start (Bot.fs b).
Proof.
  eexists _, _. split; [reflexivity|].
  apply (proj1 (restart_loses_nothing vortex_bot eq_refl)
           (member true []) (Bot.AddRole sample_role) _ _ eq_refl).
Defined.
